(** * bridgebuff: a shallow embedding of [client.py] and of the
    pagination of [server.py]

    The client speaks HTTP/1.1 by hand over one persistent socket
    ([http_get]), walks a paginated ranking ([get_top_n_games]), fetches
    game records ([get_game_info]) and aggregates them in two ways
    ([analysis_immortals], [analysis_top_meta]). The server cuts a
    ranking into pages ([paginate_df], [build_pagination_links]) behind
    two endpoints ([get_rank_sunk], [get_rank_escaped]).

    Conventions of the embedding.
    - [bytes] values are [string]s of 8-bit characters.
    - A Python [str] is represented by its UTF-8 encoding, so that the
      tests the client makes on decoded text with ASCII patterns
      (["200" in first_line], [split("\r\n")], [startswith], [split(":")],
      [replace(",", "")]) are the same tests on the representation.
    - The socket is an explicit state: the inbound events still to be
      delivered, a script for [sendall], and the log of the calls made.
    - [print] calls write to stdout only and are left out. *)

From Stdlib Require Import List String Ascii ZArith Lia Bool Arith PeanoNat.
From Stdlib Require Import Floats.SpecFloat.
From Stdlib Require Import Sorting.Permutation Sorting.Sorted.
Import ListNotations.
Local Open Scope string_scope.
Set Warnings "-register-all".

(** ** Text and bytes *)

Module PyText.

Definition CR : ascii := "013"%char.
Definition LF : ascii := "010"%char.
Definition CRLF : string := String CR (String LF "").
Definition CRLFCRLF : string := CRLF ++ CRLF.

(** [s[n:]] *)
Fixpoint drop (n : nat) (s : string) : string :=
  match n, s with
  | O, _ => s
  | S _, "" => ""
  | S n', String _ s' => drop n' s'
  end.

(** [s[:n]] *)
Fixpoint take (n : nat) (s : string) : string :=
  match n, s with
  | O, _ => ""
  | S _, "" => ""
  | S n', String c s' => String c (take n' s')
  end.

(** [s.startswith(p)] *)
Fixpoint startswith (p s : string) : bool :=
  match p, s with
  | "", _ => true
  | String _ _, "" => false
  | String a p', String b s' => Ascii.eqb a b && startswith p' s'
  end.

(** [s.split(sep, 1)] when [sep] occurs in [s]: the text before the first
    occurrence and the text after it; [None] when [sep] does not occur
    (Python then returns the one-element list [[s]]). *)
Fixpoint split_first (sep s : string) : option (string * string) :=
  if startswith sep s then Some ("", drop (String.length sep) s)
  else match s with
       | "" => None
       | String c s' =>
           match split_first sep s' with
           | Some (before, after) => Some (String c before, after)
           | None => None
           end
       end.

(** [sep in s] *)
Definition contains (sep s : string) : bool :=
  match split_first sep s with Some _ => true | None => false end.

(** [s.split("\r\n")]: never empty, the pieces between successive
    non-overlapping separators found from the left. *)
Fixpoint split_crlf (s : string) : list string :=
  match s with
  | "" => [""]
  | String c s' =>
      match Ascii.eqb c CR, s' with
      | true, String d rest =>
          if Ascii.eqb d LF then "" :: split_crlf rest
          else match split_crlf s' with
               | l :: ls => String c l :: ls
               | [] => [String c ""]
               end
      | _, _ =>
          match split_crlf s' with
          | l :: ls => String c l :: ls
          | [] => [String c ""]
          end
      end
  end.

(** [c.lower()] on ASCII: 'A'..'Z' to 'a'..'z'. Bytes of a multi-byte
    UTF-8 sequence are left alone; no character outside ASCII lowercases
    to a letter of ["content-length:"]. *)
Definition lower_char (c : ascii) : ascii :=
  let n := nat_of_ascii c in
  if (65 <=? n)%nat && (n <=? 90)%nat then ascii_of_nat (n + 32) else c.

Fixpoint lower (s : string) : string :=
  match s with
  | "" => ""
  | String c s' => String (lower_char c) (lower s')
  end.

(** The characters of a [str]: in the UTF-8 representation the first
    byte of a character tells how many bytes it takes. A [str] is
    well-formed text (what [decode] with [errors="replace"] and
    [json.loads] return); on other byte strings the split is of no
    use. *)
Fixpoint characters (s : string) : list string :=
  match s with
  | "" => []
  | String a s1 =>
      let n := nat_of_ascii a in
      if (n <? 192)%nat then String a "" :: characters s1
      else
        match s1 with
        | "" => [String a ""]
        | String b s2 =>
            if (n <? 224)%nat then String a (String b "") :: characters s2
            else
              match s2 with
              | "" => [String a (String b "")]
              | String c s3 =>
                  if (n <? 240)%nat
                  then String a (String b (String c "")) :: characters s3
                  else
                    match s3 with
                    | "" => [String a (String b (String c ""))]
                    | String d s4 =>
                        String a (String b (String c (String d "")))
                          :: characters s4
                    end
              end
        end
  end.

Definition byte (c : ascii) : Z := Z.of_nat (nat_of_ascii c).

(** The code point of a character, -1 for a byte string that is not
    the shortest UTF-8 form of one. *)
Definition code_point (ch : string) : Z :=
  match ch with
  | String a "" => if (byte a <? 128)%Z then byte a else (-1)%Z
  | String a (String b "") =>
      let p := ((byte a - 192) * 64 + (byte b - 128))%Z in
      if (128 <=? p)%Z then p else (-1)%Z
  | String a (String b (String c "")) =>
      let p := ((byte a - 224) * 4096 + (byte b - 128) * 64
                + (byte c - 128))%Z in
      if (2048 <=? p)%Z then p else (-1)%Z
  | String a (String b (String c (String d ""))) =>
      let p := ((byte a - 240) * 262144 + (byte b - 128) * 4096
                + (byte c - 128) * 64 + (byte d - 128))%Z in
      if (65536 <=? p)%Z then p else (-1)%Z
  | _ => (-1)%Z
  end.

(** The code points [str.isspace] accepts ([Py_UNICODE_ISSPACE]): TAB,
    LF, VT, FF, CR, FS, GS, RS, US and space; NEL, NBSP, U+1680,
    U+2000..U+200A, U+2028, U+2029, U+202F, U+205F and U+3000. *)
Definition is_space_point (p : Z) : bool :=
  ((9 <=? p) && (p <=? 13) || (28 <=? p) && (p <=? 32)
   || (p =? 133) || (p =? 160) || (p =? 5760)
   || (8192 <=? p) && (p <=? 8202)
   || (p =? 8232) || (p =? 8233) || (p =? 8239) || (p =? 8287)
   || (p =? 12288))%Z.

Definition is_space (ch : string) : bool := is_space_point (code_point ch).

(** The ASCII whitespace the integer parser skips around a literal
    ([Py_ISSPACE]): TAB, LF, VT, FF, CR and space. *)
Definition is_blank (c : ascii) : bool :=
  let n := nat_of_ascii c in
  ((9 <=? n)%nat && (n <=? 13)%nat) || (n =? 32)%nat.

Fixpoint drop_while {A : Type} (p : A -> bool) (l : list A) : list A :=
  match l with
  | [] => []
  | x :: rest => if p x then drop_while p rest else l
  end.

(** [s.strip()]: the whitespace characters at both ends go. *)
Definition strip (s : string) : string :=
  String.concat ""
    (rev (drop_while is_space (rev (drop_while is_space (characters s))))).

Fixpoint lstrip_of (space : ascii -> bool) (s : string) : string :=
  match s with
  | "" => ""
  | String c s' => if space c then lstrip_of space s' else s
  end.

Fixpoint rev_string (acc s : string) : string :=
  match s with
  | "" => acc
  | String c s' => rev_string (String c acc) s'
  end.

(** The ends of a byte string without the bytes [space] accepts. *)
Definition strip_of (space : ascii -> bool) (s : string) : string :=
  rev_string "" (lstrip_of space (rev_string "" (lstrip_of space s))).

Definition digit_of (c : ascii) : option Z :=
  let n := nat_of_ascii c in
  if (48 <=? n)%nat && (n <=? 57)%nat then Some (Z.of_nat (n - 48)) else None.

(** The digits of a decimal literal after the first one, with the single
    underscores Python allows between digits; [acc] is the value so far
    and [after_us] tells that the previous character was an underscore. *)
Fixpoint int_digits (acc : Z) (after_us : bool) (s : string) : option Z :=
  match s with
  | "" => if after_us then None else Some acc
  | String c s' =>
      match digit_of c with
      | Some d => int_digits (10 * acc + d) false s'
      | None =>
          if Ascii.eqb c "_" && negb after_us then int_digits acc true s'
          else None
      end
  end.

Definition int_unsigned (s : string) : option Z :=
  match s with
  | String c s' =>
      match digit_of c with
      | Some d => int_digits d false s'
      | None => None
      end
  | "" => None
  end.

(** The code points of the digits 0 of the decimal digits of Unicode
    14.0 (the database of Python 3.11): each is followed by its digits
    1 to 9. *)
Definition decimal_zeros : list Z :=
  [48; 1632; 1776; 1984; 2406; 2534; 2662; 2790; 2918; 3046; 3174; 3302;
   3430; 3558; 3664; 3792; 3872; 4160; 4240; 6112; 6160; 6470; 6608; 6784;
   6800; 6992; 7088; 7232; 7248; 42528; 43216; 43264; 43472; 43504; 43600;
   44016; 65296; 66720; 68912; 69734; 69872; 69942; 70096; 70384; 70736;
   70864; 71248; 71360; 71472; 71904; 72016; 72784; 73040; 73120; 92768;
   92864; 93008; 120782; 120792; 120802; 120812; 120822; 123200; 123632;
   125264; 130032]%Z.

(** The value of a decimal digit ([Py_UNICODE_TODECIMAL]). *)
Definition decimal_of (p : Z) : option Z :=
  match List.find (fun z => (z <=? p) && (p <? z + 10))%Z decimal_zeros with
  | Some z => Some (p - z)%Z
  | None => None
  end.

(** What [int] makes of the characters before it parses: an ASCII
    character below DEL stays, another whitespace character becomes a
    space, another decimal digit becomes its ASCII digit, and any other
    character makes the text no literal. *)
Fixpoint to_ascii (chs : list string) : option string :=
  match chs with
  | [] => Some ""
  | ch :: rest =>
      let p := code_point ch in
      let out :=
        if ((0 <=? p) && (p <? 127))%Z then Some ch
        else if is_space_point p then Some " "
        else
          match decimal_of p with
          | Some d => Some (String (ascii_of_nat (48 + Z.to_nat d)) "")
          | None => None
          end in
      match out, to_ascii rest with
      | Some x, Some y => Some (x ++ y)
      | _, _ => None
      end
  end.

(** The digits of a text. *)
Fixpoint count_digits (s : string) : nat :=
  match s with
  | "" => 0
  | String c s' =>
      (match digit_of c with Some _ => 1 | None => 0 end + count_digits s')%nat
  end.

(** The default of [sys.set_int_max_str_digits]. *)
Definition int_max_str_digits : nat := 4300.

(** [int(s)] for a [str] in base 10: surrounding whitespace, an optional
    sign, digits with single underscores between them. [None] stands for
    [ValueError], which is also what a literal of more than 4300 digits
    gets (Python 3.11, and the security releases of earlier versions). *)
Definition py_int (s : string) : option Z :=
  match to_ascii (characters s) with
  | None => None
  | Some text =>
      if (int_max_str_digits <? count_digits text)%nat then None
      else
        match strip_of is_blank text with
        | String "-" s' => option_map Z.opp (int_unsigned s')
        | String "+" s' => int_unsigned s'
        | s' => int_unsigned s'
        end
  end.

(** The decimal digits of a positive integer, most significant first;
    it has no more decimal digits than binary ones, which bound [fuel]. *)
Fixpoint decimal_digits (fuel : nat) (z : Z) (acc : string) : string :=
  match fuel with
  | O => acc
  | S fuel' =>
      let acc' := String (ascii_of_nat (48 + Z.to_nat (z mod 10))) acc in
      if (z <? 10)%Z then acc' else decimal_digits fuel' (z / 10) acc'
  end.

(** [str(z)] for an [int]. *)
Definition str_of_Z (z : Z) : string :=
  match z with
  | Z0 => "0"
  | Zpos p => decimal_digits (Pos.size_nat p) z ""
  | Zneg p => String "-" (decimal_digits (Pos.size_nat p) (Zpos p) "")
  end.

(** ["sep".join(l)] *)
Fixpoint join (sep : string) (l : list string) : string :=
  match l with
  | [] => ""
  | [x] => x
  | x :: rest => x ++ sep ++ join sep rest
  end.

(** [c in s] for a character *)
Fixpoint has_char (c : ascii) (s : string) : bool :=
  match s with
  | "" => false
  | String d s' => Ascii.eqb d c || has_char c s'
  end.

(** [s.replace(",", "")] *)
Fixpoint remove_commas (s : string) : string :=
  match s with
  | "" => ""
  | String c s' =>
      if Ascii.eqb c "," then remove_commas s' else String c (remove_commas s')
  end.

End PyText.

(** ** The socket *)

Module Socket.

(** What the peer will deliver: a segment of bytes, or a point at which
    [recv] raises. When the events run out the peer has closed the
    connection and [recv] returns [b""]. *)
Inductive event : Type :=
| Data (bytes : string)
| Fault.

Inductive call : Type :=
| CallSend (data : string)
| CallRecv (bufsize : nat).

(** [send_script]: whether the next calls of [sendall] succeed, in order;
    once the script is used up every call succeeds. *)
Record socket : Type := mkSocket {
  inbound : list event;
  send_script : list bool;
  calls : list call
}.

Inductive received : Type :=
| Chunk (bytes : string)
| RecvRaised.

Fixpoint recv_from (n : nat) (evs : list event) : received * list event :=
  match evs with
  | [] => (Chunk "", [])
  | Fault :: rest => (RecvRaised, rest)
  | Data "" :: rest => recv_from n rest
  | Data bytes :: rest =>
      (Chunk (PyText.take n bytes),
       match PyText.drop n bytes with
       | "" => rest
       | later => Data later :: rest
       end)
  end.

(** [sock.recv(n)]: at most [n] bytes of the first segment. A call that
    blocks for ever, and a [bufsize] beyond what the platform can
    allocate, are outside the model. *)
Definition recv (n : nat) (s : socket) : received * socket :=
  let '(r, evs) := recv_from n (inbound s) in
  (r, mkSocket evs (send_script s) (calls s ++ [CallRecv n])).

(** [sock.sendall(data)]: [false] stands for an exception. *)
Definition sendall (data : string) (s : socket) : bool * socket :=
  match send_script s with
  | [] => (true, mkSocket (inbound s) [] (calls s ++ [CallSend data]))
  | ok :: script => (ok, mkSocket (inbound s) script (calls s ++ [CallSend data]))
  end.

(** Bytes and faults still to come: every [recv] that neither returns
    [b""] nor asks for zero bytes takes at least one away. *)
Fixpoint pending (evs : list event) : nat :=
  match evs with
  | [] => 0
  | Fault :: rest => S (pending rest)
  | Data bytes :: rest => String.length bytes + pending rest
  end.

End Socket.

(** ** Transport: [http_get] *)

Module Transport.
Import PyText Socket.

Section WithDecoder.

(** [bytes.decode("utf-8", errors="replace")], a library function. *)
Variable decode : string -> string.

(** The request [http_get] writes. *)
Definition request_data (host path : string) : string :=
  join CRLF
    [ "GET " ++ path ++ " HTTP/1.1";
      "Host: " ++ host;
      "Connection: keep-alive";
      "";
      "" ].

(** The header loop: one byte per [recv] until the blank line is in the
    buffer. [None] is the [return None] of a closed connection or of an
    exception. Each turn that goes on consumes a byte, so
    [S (pending (inbound s))] turns are enough ([read_header]). *)
Fixpoint read_header_loop (fuel : nat) (response_header : string) (s : socket)
  : option string * socket :=
  match fuel with
  | O => (None, s)
  | S fuel' =>
      match recv 1 s with
      | (RecvRaised, s') => (None, s')
      | (Chunk "", s') => (None, s')
      | (Chunk chunk, s') =>
          let response_header' := response_header ++ chunk in
          if contains CRLFCRLF response_header' then (Some response_header', s')
          else read_header_loop fuel' response_header' s'
      end
  end.

Definition read_header (s : socket) : option string * socket :=
  read_header_loop (S (pending (inbound s))) "" s.

(** The scan for [Content-Length] over [lines[1:]]: the first line whose
    lowercase form starts with ["content-length:"] decides, and the scan
    stops there whether or not its value parses. *)
Fixpoint find_content_length (lines : list string) : Z :=
  match lines with
  | [] => 0
  | ln :: rest =>
      if startswith "content-length:" (lower ln) then
        match split_first ":" ln with
        | Some (_, value) =>
            match py_int (strip value) with
            | Some n => n
            | None => 0
            end
        | None => 0
        end
      else find_content_length rest
  end.

Inductive body_result : Type :=
| BodyRead (body : string)
| BodyRaised.

(** The body loop [while to_read > 0]. A closed connection leaves the
    loop by [break], keeping what was read; an exception returns [None].
    Each turn that goes on lowers [to_read] by at least one, so
    [Z.to_nat to_read] turns are enough ([read_body]). *)
Fixpoint read_body_loop (fuel : nat) (body : string) (to_read : Z) (s : socket)
  : body_result * socket :=
  if (to_read >? 0)%Z then
    match fuel with
    | O => (BodyRead body, s)
    | S fuel' =>
        match recv (Z.to_nat to_read) s with
        | (RecvRaised, s') => (BodyRaised, s')
        | (Chunk "", s') => (BodyRead body, s')
        | (Chunk chunk, s') =>
            read_body_loop fuel' (body ++ chunk)
              (to_read - Z.of_nat (String.length chunk)) s'
        end
    end
  else (BodyRead body, s).

Definition read_body (body : string) (to_read : Z) (s : socket)
  : body_result * socket :=
  read_body_loop (Z.to_nat to_read) body to_read s.

(** What [http_get] does once the header block is in
    [response_header]. *)
Definition handle_response (response_header : string) (s : socket)
  : option string * socket :=
  let '(header_bytes, body_already) :=
    match split_first CRLFCRLF response_header with
    | Some parts => parts
    | None => (response_header, "")
    end in
  let header_part := decode header_bytes in
  let lines := split_crlf header_part in
  let first_line := hd "" lines in
  if negb (contains "200" first_line) then (None, s)
  else
    let content_length := find_content_length (tl lines) in
    let to_read := (content_length - Z.of_nat (String.length body_already))%Z in
    match read_body body_already to_read s with
    | (BodyRaised, s') => (None, s')
    | (BodyRead body, s') => (Some (decode body), s')
    end.

(** [http_get(sock, host, port, path)]: the body as a [str], or [None]. *)
Definition http_get (s : socket) (host : string) (port : Z) (path : string)
  : option string * socket :=
  match sendall (request_data host path) s with
  | (false, s1) => (None, s1)
  | (true, s1) =>
      match read_header s1 with
      | (None, s2) => (None, s2)
      | (Some response_header, s2) => handle_response response_header s2
      end
  end.

End WithDecoder.

End Transport.

(** ** Decoded JSON values and the Python operations applied to them *)

Module Json.
Import PyText.

(** What [json.loads] builds: [None], [bool], [int], [float], [str],
    [list] and [dict] (its items in insertion order, keys distinct). *)
Inductive json : Type :=
| JNull
| JBool (b : bool)
| JInt (z : Z)
| JFloat (f : spec_float)
| JStr (s : string)
| JArr (elems : list json)
| JObj (items : list (string * json)).

(** An uncaught exception leaves the function: [Raised]. *)
Inductive result (A : Type) : Type :=
| Ok (a : A)
| Raised.
Arguments Ok {A} a.
Arguments Raised {A}.

Definition bind {A B : Type} (r : result A) (k : A -> result B) : result B :=
  match r with
  | Ok a => k a
  | Raised => Raised
  end.

(** Truth value of an object, as [if not x] tests it. *)
Definition truthy (v : json) : bool :=
  match v with
  | JNull => false
  | JBool b => b
  | JInt z => negb (z =? 0)%Z
  | JFloat (S754_zero _) => false
  | JFloat _ => true
  | JStr "" => false
  | JStr _ => true
  | JArr [] => false
  | JArr _ => true
  | JObj [] => false
  | JObj _ => true
  end.

Fixpoint lookup (key : string) (items : list (string * json)) : option json :=
  match items with
  | [] => None
  | (k, v) :: rest => if String.eqb k key then Some v else lookup key rest
  end.

(** [v.get(key, default)]: [AttributeError] unless [v] is a [dict]. *)
Definition get (v : json) (key : string) (default : json) : result json :=
  match v with
  | JObj items =>
      match lookup key items with
      | Some x => Ok x
      | None => Ok default
      end
  | _ => Raised
  end.

(** Whether [len(v)] is defined ([TypeError] otherwise). *)
Definition sized (v : json) : bool :=
  match v with
  | JStr _ | JArr _ | JObj _ => true
  | _ => false
  end.

Definition is_continuation (c : ascii) : bool :=
  let n := nat_of_ascii c in (128 <=? n)%nat && (n <? 192)%nat.

(** The characters of a [str]: in the UTF-8 representation, each byte
    that is not a continuation byte starts one. *)
Fixpoint utf8_chars (s : string) : list string :=
  match s with
  | "" => []
  | String c s' =>
      match utf8_chars s' with
      | next :: rest =>
          match s' with
          | String d _ =>
              if is_continuation d then (String c next) :: rest
              else String c "" :: next :: rest
          | "" => String c "" :: next :: rest
          end
      | [] => [String c ""]
      end
  end.

(** The elements [for x in v] visits: the elements of a [list], the
    characters of a [str], the keys of a [dict]; [TypeError] otherwise. *)
Definition iterate (v : json) : result (list json) :=
  match v with
  | JArr elems => Ok elems
  | JStr s => Ok (map JStr (utf8_chars s))
  | JObj items => Ok (map (fun kv => JStr (fst kv)) items)
  | _ => Raised
  end.

End Json.

(** ** Numbers: [int] and [float] (IEEE 754 binary64) *)

Module PyNum.
Import PyText Json.

Definition prec : Z := 53.
Definition emax : Z := 1024.

Inductive number : Type :=
| NInt (z : Z)
| NFloat (f : spec_float).

(** The operand of an arithmetic operator: [bool] is a subclass of
    [int]; anything else that is not a number raises [TypeError]. *)
Definition as_number (v : json) : result number :=
  match v with
  | JInt z => Ok (NInt z)
  | JBool b => Ok (NInt (if b then 1 else 0))
  | JFloat f => Ok (NFloat f)
  | _ => Raised
  end.

(** [float(z)]: rounded to nearest, ties to even; [OverflowError] when
    the integer is too large. *)
Definition float_of_int (z : Z) : result spec_float :=
  match binary_normalize prec emax z 0 false with
  | S754_infinity _ => Raised
  | f => Ok f
  end.

Definition as_float (x : number) : result spec_float :=
  match x with
  | NInt z => float_of_int z
  | NFloat f => Ok f
  end.

(** [x + y] *)
Definition add (x y : number) : result number :=
  match x, y with
  | NInt a, NInt b => Ok (NInt (a + b))
  | _, _ =>
      bind (as_float x) (fun fx =>
      bind (as_float y) (fun fy =>
      Ok (NFloat (SFadd prec emax fx fy))))
  end.

(** [a / b] for two [int]s: the correctly rounded quotient;
    [ZeroDivisionError] when [b] is zero, [OverflowError] when the
    quotient is too large for a [float]. *)
Definition int_truediv (a b : Z) : result spec_float :=
  match b, a with
  | Z0, _ => Raised
  | _, Z0 => Ok (S754_zero (b <? 0)%Z)
  | _, _ =>
      let '(mz, ez, lz) := SFdiv_core_binary prec emax (Z.abs a) 0 (Z.abs b) 0 in
      match binary_round_aux prec emax (xorb (a <? 0)%Z (b <? 0)%Z) mz ez lz with
      | S754_infinity _ => Raised
      | f => Ok f
      end
  end.

(** [s / c] where [c] is an [int] that is not zero. *)
Definition truediv_int (s : number) (c : Z) : result spec_float :=
  match s with
  | NInt a => int_truediv a c
  | NFloat f => bind (float_of_int c) (fun fc => Ok (SFdiv prec emax f fc))
  end.

(** [x < y] on [float]s. *)
Definition float_ltb (x y : spec_float) : bool := SFltb x y.


(** The integer a [float] is equal to, when there is one. *)
Definition integral (f : spec_float) : option Z :=
  match f with
  | S754_zero _ => Some 0%Z
  | S754_finite s m e =>
      let v :=
        match e with
        | Z0 => Some (Zpos m)
        | Zpos p => Some (Z.shiftl (Zpos m) e)
        | Zneg p =>
            if (Zpos m mod 2 ^ Zpos p =? 0)%Z then Some (Zpos m / 2 ^ Zpos p)%Z
            else None
        end in
      option_map (fun z => if s then (- z)%Z else z) v
  | _ => None
  end.

(** [round(m / 2^k)] to the nearest integer, ties to even. *)
Definition round_half_even (num den : Z) : Z :=
  let q := (num / den)%Z in
  let r := (num mod den)%Z in
  match (2 * r ?= den)%Z with
  | Lt => q
  | Gt => (q + 1)%Z
  | Eq => if Z.even q then q else (q + 1)%Z
  end.

Definition two_digits (n : Z) : string :=
  (if (n <? 10)%Z then "0" else "") ++ str_of_Z n.

(** [f"{x:.2f}"] for a [float]: the exact binary value rounded to two
    decimals, ties to even. *)
Definition format_2f (f : spec_float) : string :=
  match f with
  | S754_nan => "nan"
  | S754_infinity s => if s then "-inf" else "inf"
  | S754_zero s => if s then "-0.00" else "0.00"
  | S754_finite s m e =>
      let hundredths :=
        match e with
        | Zneg p => round_half_even (Zpos m * 100) (2 ^ Zpos p)
        | _ => (Zpos m * 2 ^ e * 100)%Z
        end in
      (if s then "-" else "")
        ++ str_of_Z (hundredths / 100) ++ "." ++ two_digits (hundredths mod 100)
  end.

End PyNum.

(** ** Dictionaries in insertion order *)

Module Dict.

Section WithKey.
Context {K V : Type}.
Variable eqb : K -> K -> bool.

(** [d.get(k)] *)
Fixpoint find (k : K) (d : list (K * V)) : option V :=
  match d with
  | [] => None
  | (k', v) :: rest => if eqb k' k then Some v else find k rest
  end.

(** [k in d] *)
Definition member (k : K) (d : list (K * V)) : bool :=
  match find k d with Some _ => true | None => false end.

(** [d[k] = v]: a key already present keeps its place, a new key goes
    last. *)
Fixpoint set (k : K) (v : V) (d : list (K * V)) : list (K * V) :=
  match d with
  | [] => [(k, v)]
  | (k', v') :: rest =>
      if eqb k' k then (k', v) :: rest else (k', v') :: set k v rest
  end.

End WithKey.

End Dict.

(** ** Hashable keys *)

Module Key.
Import Json PyNum.

(** A hashable object used as a dictionary key. Numbers that are equal
    are one key ([1 == 1.0 == True]): a [bool] and a [float] with an
    integer value are filed under that integer. *)
Inductive hkey : Type :=
| KNone
| KInt (z : Z)
| KFloat (f : spec_float)
| KStr (s : string).

(** The key an object stands for; a [list] or a [dict] is unhashable
    ([TypeError]). *)
Definition key_of (v : json) : result hkey :=
  match v with
  | JNull => Ok KNone
  | JBool b => Ok (KInt (if b then 1 else 0))
  | JInt z => Ok (KInt z)
  | JFloat f =>
      match integral f with
      | Some z => Ok (KInt z)
      | None => Ok (KFloat f)
      end
  | JStr s => Ok (KStr s)
  | JArr _ | JObj _ => Raised
  end.

Definition float_same (a b : spec_float) : bool :=
  match a, b with
  | S754_zero s1, S754_zero s2 => Bool.eqb s1 s2
  | S754_infinity s1, S754_infinity s2 => Bool.eqb s1 s2
  | S754_nan, S754_nan => true
  | S754_finite s1 m1 e1, S754_finite s2 m2 e2 =>
      Bool.eqb s1 s2 && Pos.eqb m1 m2 && Z.eqb e1 e2
  | _, _ => false
  end.

(** Equality of keys. A NaN key is found again through the identity of
    the object; two NaN objects are different keys in Python and one key
    here, which no lookup of the client can tell apart: a bucket with a
    key that is not a [str] ends in [AttributeError], and the row
    counters are read at the integers 0..7 only. *)
Definition hkey_eqb (a b : hkey) : bool :=
  match a, b with
  | KNone, KNone => true
  | KInt x, KInt y => Z.eqb x y
  | KFloat x, KFloat y => float_same x y
  | KStr x, KStr y => String.eqb x y
  | _, _ => false
  end.

End Key.

(** ** Stable sorting *)

Module Sorting.

Section WithOrder.
Context {A : Type}.

(** [before x y]: [x] has to come before [y]. *)
Variable before : A -> A -> bool.

Fixpoint insert (x : A) (sorted : list A) : list A :=
  match sorted with
  | [] => [x]
  | y :: rest => if before y x then y :: insert x rest else x :: y :: rest
  end.

(** The stable sort: elements neither of which has to come before the
    other keep the order they had. Where [before] is a strict weak
    order on the elements ([consistent]) there is one such list, and
    [list.sort], which is stable, returns it. *)
Fixpoint stable_sort (l : list A) : list A :=
  match l with
  | [] => []
  | x :: rest => insert x (stable_sort rest)
  end.

(** Whether [before] is a strict weak order on the elements of [l]: no
    two elements have each to come before the other, and when [x] need
    not come after [y] nor [y] after [z], [x] need not come after
    [z]. With keys compared by [<] this fails only for [float] keys, a
    NaN among them. *)
Definition consistent (l : list A) : bool :=
  forallb (fun x =>
    forallb (fun y =>
      negb (before x y && before y x)
      && forallb (fun z => before y x || before z y || negb (before z x)) l)
      l) l.


End WithOrder.

End Sorting.

(** ** The client: crawler, record fetcher and the two analyses *)

Module Client.
Import PyText Socket Json PyNum Key.

(** An aggregation bucket: ["count"] and the running sum. *)
Record bucket : Type := mkBucket {
  count : Z;
  total : number
}.

(** [d[k][field] op= ...]: the bucket under [k] is read, changed and
    stored back; [KeyError] when [k] is missing. *)
Definition modify {K : Type} (eqb : K -> K -> bool) (k : K)
    (f : bucket -> result bucket) (d : list (K * bucket))
  : result (list (K * bucket)) :=
  match Dict.find eqb k d with
  | None => Raised
  | Some b => bind (f b) (fun b' => Ok (Dict.set eqb k b' d))
  end.

Definition bump_count (b : bucket) : result bucket :=
  Ok (mkBucket (count b + 1) (total b)).

Definition add_total (metric : json) (b : bucket) : result bucket :=
  bind (as_number metric) (fun x =>
  bind (add (total b) x) (fun t =>
  Ok (mkBucket (count b) t))).

(** The two dictionary updates that follow the creation of a missing
    bucket, shared by both analyses. *)
Definition record_into {K : Type} (eqb : K -> K -> bool) (k : K)
    (zero : number) (metric : json) (d : list (K * bucket))
  : result (list (K * bucket)) :=
  let d1 := if Dict.member eqb k d then d else Dict.set eqb k (mkBucket 0 zero) d in
  bind (modify eqb k bump_count d1) (fun d2 =>
  modify eqb k (add_total metric) d2).

(** What the bucket of a key holds, when there is none yet as well. *)
Definition count_before {K : Type} (eqb : K -> K -> bool) (k : K)
    (d : list (K * bucket)) : Z :=
  match Dict.find eqb k d with
  | Some b => count b
  | None => 0%Z
  end.

Definition total_before {K : Type} (eqb : K -> K -> bool) (zero : number)
    (k : K) (d : list (K * bucket)) : number :=
  match Dict.find eqb k d with
  | Some b => total b
  | None => zero
  end.

(** [avg = s / c if c > 0 else 0]. The [int] 0 of the second branch is
    written as the [float] 0.0: it is only compared and formatted with
    [.2f], where the two agree. *)
Definition mean (vals : bucket) : result spec_float :=
  if (count vals >? 0)%Z then truediv_int (total vals) (count vals)
  else Ok (S754_zero false).

(** *** Variant B: the placement histogram *)

(** [row_counters.get(k, 0)] *)
Definition counted (k : hkey) (row_counters : list (hkey * Z)) : Z :=
  match Dict.find hkey_eqb k row_counters with
  | Some c => c
  | None => 0%Z
  end.

(** The loop over [cannons]: entries that are not lists of at least two
    elements are skipped; the others count for the row [cpos[0]]. *)
Fixpoint count_rows (cannons : list json) (row_counters : list (hkey * Z))
  : result (list (hkey * Z)) :=
  match cannons with
  | [] => Ok row_counters
  | JArr (row_idx :: _ :: _) :: rest =>
      bind (key_of row_idx) (fun k =>
      count_rows rest
        (Dict.set hkey_eqb k (counted k row_counters + 1)%Z row_counters))
  | _ :: rest => count_rows rest row_counters
  end.

(** [row_counts[r] = row_counters.get(r, 0)] for [r] in [range(8)]. *)
Definition row_counts (row_counters : list (hkey * Z)) : list Z :=
  map (fun r => counted (KInt r) row_counters) [0; 1; 2; 3; 4; 5; 6; 7]%Z.

(** [hist[i] += 1] *)
Fixpoint bump (i : nat) (hist : list Z) : list Z :=
  match hist with
  | [] => []
  | x :: rest =>
      match i with
      | O => (x + 1)%Z :: rest
      | S i' => x :: bump i' rest
      end
  end.

(** The body of the loop over [row_counts]. *)
Definition hist_step (hist : list Z) (c : Z) : list Z :=
  if ((0 <=? c) && (c <=? 7))%Z then bump (Z.to_nat c) hist else bump 7 hist.

(** [hist[i]] is the number of rows that hold [i] cannons, a row with
    more than 7 counting in [hist[7]]. *)
Definition histogram (counts : list Z) : list Z :=
  fold_left hist_step counts (repeat 0%Z 8).

Definition placement_str (hist : list Z) : string :=
  String.concat "" (map str_of_Z hist).

(** The key Variant B derives from the [cannons] of a record. *)
Definition placement_of (cannons : json) : result string :=
  bind (iterate cannons) (fun elems =>
  bind (count_rows elems []) (fun row_counters =>
  Ok (placement_str (histogram (row_counts row_counters))))).

(** *** Rows and lines *)

Fixpoint immortals_rows (items : list (hkey * bucket))
  : result (list (hkey * Z * spec_float)) :=
  match items with
  | [] => Ok []
  | (auth, vals) :: rest =>
      bind (mean vals) (fun avg_sunk =>
      bind (immortals_rows rest) (fun rows =>
      Ok ((auth, count vals, avg_sunk) :: rows)))
  end.

(** [key=lambda x: x[1], reverse=True]: a larger count comes first. *)
Definition by_count_desc (x y : hkey * Z * spec_float) : bool :=
  (snd (fst y) <? snd (fst x))%Z.

(** The CSV loop of Variant A; [auth.replace] raises [AttributeError]
    when the key is not a [str]. *)
Fixpoint immortals_lines (rows : list (hkey * Z * spec_float))
  : result (list string) :=
  match rows with
  | [] => Ok []
  | (KStr auth, c, avg) :: rest =>
      bind (immortals_lines rest) (fun lines =>
      Ok ((remove_commas auth ++ "," ++ str_of_Z c ++ "," ++ format_2f avg)
            :: lines))
  | _ :: _ => Raised
  end.

Fixpoint top_meta_rows (items : list (string * bucket))
  : result (list (string * spec_float)) :=
  match items with
  | [] => Ok []
  | (placement, vals) :: rest =>
      bind (mean vals) (fun avg_escaped =>
      bind (top_meta_rows rest) (fun rows =>
      Ok ((placement, avg_escaped) :: rows)))
  end.

(** [key=lambda x: x[1]]: a smaller mean comes first. *)
Definition by_mean_asc (x y : string * spec_float) : bool :=
  float_ltb (snd x) (snd y).

Definition top_meta_lines (rows : list (string * spec_float)) : list string :=
  map (fun row => fst row ++ "," ++ format_2f (snd row)) rows.

(** What one present record does to the buckets of Variant A. *)
Definition immortals_record (info : json) (gas_data : list (hkey * bucket))
  : result (list (hkey * bucket)) :=
  bind (get info "game_stats" (JObj [])) (fun game_stats =>
  bind (get game_stats "auth" (JStr "UnknownAuth")) (fun auth =>
  bind (get game_stats "ships_sunk" (JInt 0)) (fun ships_sunk =>
  bind (key_of auth) (fun k =>
  record_into hkey_eqb k (NFloat (S754_zero false)) ships_sunk gas_data)))).

(** What one present record does to the buckets of Variant B. *)
Definition top_meta_record (info : json) (placement_data : list (string * bucket))
  : result (list (string * bucket)) :=
  bind (get info "game_stats" (JObj [])) (fun game_stats =>
  bind (get game_stats "cannons" (JArr [])) (fun cannons =>
  bind (get game_stats "ships_escaped" (JInt 0)) (fun ships_escaped =>
  bind (placement_of cannons) (fun placement =>
  record_into String.eqb placement (NInt 0) ships_escaped placement_data)))).

(** The buckets after a sequence of present records. *)
Fixpoint fold_records {D : Type} (step : json -> D -> result D)
    (records : list json) (buckets : D) : result D :=
  match records with
  | [] => Ok buckets
  | v :: rest => bind (step v buckets) (fold_records step rest)
  end.

Section WithLibraries.

(** [bytes.decode("utf-8", errors="replace")] *)
Variable decode : string -> string.
(** [json.loads]; [None] stands for [JSONDecodeError]. *)
Variable json_loads : string -> option json.
(** [str(v)], as an f-string formats a decoded value. *)
Variable py_str : json -> string.
(** [result_list.sort(key=lambda x: x[1])] on means that [<] does not
    preorder (a NaN among other means): the list it leaves is a matter
    of the implementation. *)
Variable sort_unordered :
  list (string * spec_float) -> list (string * spec_float).

Let http_get := Transport.http_get decode.

Definition limit : Z := 50.

Definition rank_path (ranking_type : string) (start : Z) : string :=
  "/api/rank/" ++ ranking_type ++ "?limit=" ++ str_of_Z limit
    ++ "&start=" ++ str_of_Z start.

(** The inner loop of the crawler: identifiers are appended while there
    are fewer than [n]. *)
Fixpoint append_upto (n : Z) (game_ids page_games : list json) : list json :=
  match page_games with
  | [] => game_ids
  | g :: rest =>
      if (Z.of_nat (List.length game_ids) <? n)%Z
      then append_upto n (game_ids ++ [g]) rest
      else game_ids
  end.

(** The loop [while len(game_ids) < n]. The message printed after
    [json.loads] evaluates [len(parsed.get('games', []))] inside a [try]
    that catches [JSONDecodeError] only: a payload that is not a [dict],
    or whose ["games"] has no length, raises out of the function. A turn
    that goes on has appended at least one identifier, so [Z.to_nat n]
    turns are enough ([get_top_n_games]). *)
Fixpoint crawl_loop (fuel : nat) (host : string) (port : Z)
    (ranking_type : string) (n : Z) (game_ids : list json) (start : Z)
    (s : socket) : result (list json) * socket :=
  if (Z.of_nat (List.length game_ids) <? n)%Z then
    match fuel with
    | O => (Ok game_ids, s)
    | S fuel' =>
        match http_get s host port (rank_path ranking_type start) with
        | (None, s1) => (Ok game_ids, s1)
        | (Some data, s1) =>
            match json_loads data with
            | None => (Ok game_ids, s1)
            | Some (JObj items) =>
                let listed :=
                  match lookup "games" items with
                  | Some x => x
                  | None => JArr []
                  end in
                if negb (sized listed) then (Raised, s1)
                else
                  match lookup "games" items with
                  | None => (Ok game_ids, s1)
                  | Some page_games =>
                      if negb (truthy page_games) then (Ok game_ids, s1)
                      else
                        match iterate page_games with
                        | Raised => (Raised, s1)
                        | Ok elems =>
                            let game_ids' := append_upto n game_ids elems in
                            let next :=
                              match lookup "next" items with
                              | Some x => x
                              | None => JNull
                              end in
                            if negb (truthy next) then (Ok game_ids', s1)
                            else crawl_loop fuel' host port ranking_type n
                                   game_ids' (start + limit) s1
                        end
                  end
            | Some _ => (Raised, s1)
            end
        end
    end
  else (Ok game_ids, s).

(** [get_top_n_games(sock, host, port, ranking_type, n)] *)
Definition get_top_n_games (s : socket) (host : string) (port : Z)
    (ranking_type : string) (n : Z) : result (list json) * socket :=
  crawl_loop (Z.to_nat n) host port ranking_type n [] 1 s.

(** [get_game_info(sock, host, port, game_id)]: the decoded payload, or
    [None]. *)
Definition get_game_info (s : socket) (host : string) (port : Z)
    (game_id : json) : option json * socket :=
  match http_get s host port ("/api/game/" ++ py_str game_id) with
  | (None, s1) => (None, s1)
  | (Some "", s1) => (None, s1)
  | (Some data, s1) => (json_loads data, s1)
  end.

(** [if not info]: [None] and every falsy payload. *)
Definition present (info : option json) : option json :=
  match info with
  | Some v => if truthy v then Some v else None
  | None => None
  end.

(** The loop over [game_ids] of either analysis: [step] is what a
    present record does to the buckets. *)
Fixpoint fetch_loop {D : Type} (step : json -> D -> result D)
    (host : string) (port : Z) (game_ids : list json) (buckets : D)
    (s : socket) : result D * socket :=
  match game_ids with
  | [] => (Ok buckets, s)
  | g_id :: rest =>
      let '(info, s1) := get_game_info s host port g_id in
      match present info with
      | None => fetch_loop step host port rest buckets s1
      | Some v =>
          match step v buckets with
          | Raised => (Raised, s1)
          | Ok buckets' => fetch_loop step host port rest buckets' s1
          end
      end
  end.

(** The present records the loop of an analysis meets, in order. *)
Fixpoint present_records (host : string) (port : Z) (game_ids : list json)
    (s : socket) : list json :=
  match game_ids with
  | [] => []
  | g_id :: rest =>
      let '(info, s1) := get_game_info s host port g_id in
      match present info with
      | None => present_records host port rest s1
      | Some v => v :: present_records host port rest s1
      end
  end.

(** [result_list.sort(key=lambda x: x[1])] *)
Definition sort_by_mean (result_list : list (string * spec_float))
  : list (string * spec_float) :=
  if Sorting.consistent by_mean_asc result_list
  then Sorting.stable_sort by_mean_asc result_list
  else sort_unordered result_list.

(** [analysis_immortals(sock, host, port, game_ids)]. The keys of the
    sort are [int]s, which [<] orders: [list.sort] with [reverse=True]
    is the stable sort that puts larger counts first. *)
Definition analysis_immortals (s : socket) (host : string) (port : Z)
    (game_ids : list json) : result (list string) * socket :=
  let '(gas_data, s1) := fetch_loop immortals_record host port game_ids [] s in
  (bind gas_data (fun d =>
   bind (immortals_rows d) (fun result_list =>
   immortals_lines (Sorting.stable_sort by_count_desc result_list))), s1).

(** [analysis_top_meta(sock, host, port, game_ids)] *)
Definition analysis_top_meta (s : socket) (host : string) (port : Z)
    (game_ids : list json) : result (list string) * socket :=
  let '(placement_data, s1) := fetch_loop top_meta_record host port game_ids [] s in
  (bind placement_data (fun d =>
   bind (top_meta_rows d) (fun result_list =>
   Ok (top_meta_lines (sort_by_mean result_list)))), s1).

End WithLibraries.

End Client.


(** ** The words of the specification

    Notions the specification uses and the code does not compute; the
    properties below compare the code with them. *)

Module Spec.
Import PyText Json PyNum Key Client.

(** The status code of a status line [HTTP-version SP status-code SP
    reason-phrase]: the text between the first space and the next. *)
Definition status_code_of (status_line : string) : string :=
  match split_first " " status_line with
  | Some (_, rest) =>
      match split_first " " rest with
      | Some (code, _) => code
      | None => rest
      end
  | None => ""
  end.

(** Two characters that are one letter of the ASCII alphabet, in the
    same case or not, or one character. *)
Definition same_letter (a b : ascii) : bool :=
  let x := nat_of_ascii a in
  let y := nat_of_ascii b in
  ((x =? y) || ((65 <=? x) && (x <=? 90) && (y =? x + 32))
   || ((65 <=? y) && (y <=? 90) && (x =? y + 32)))%nat.

(** Two texts that differ in the case of ASCII letters at most. *)
Fixpoint caseless_eq (a b : string) : bool :=
  match a, b with
  | "", "" => true
  | String x a', String y b' => same_letter x y && caseless_eq a' b'
  | _, _ => false
  end.

(** A header line that declares [Content-Length], whatever the case of
    the letters of the field name, and its value. *)
Definition declares_length (ln value : string) : Prop :=
  exists name,
    ln = name ++ ":" ++ value /\ caseless_eq name "Content-Length" = true.

(** A record whose [game_stats] give this [auth] and this integer
    [ships_sunk]. *)
Definition sunk_by (auth : string) (ships_sunk : Z) (record : json) : Prop :=
  exists items stats,
    record = JObj items /\
    lookup "game_stats" items = Some (JObj stats) /\
    lookup "auth" stats = Some (JStr auth) /\
    lookup "ships_sunk" stats = Some (JInt ships_sunk).



(** The 8 fixed rows, and the 8 bins of the histogram. *)
Definition eight : list Z := [0; 1; 2; 3; 4; 5; 6; 7]%Z.

(** A placement that counts for row [r]: a list of at least two
    elements whose first is equal to [r]. *)
Definition placed_in (r : Z) (cpos : json) : bool :=
  match cpos with
  | JArr (row_idx :: _ :: _) =>
      match key_of row_idx with
      | Ok k => hkey_eqb k (KInt r)
      | Raised => false
      end
  | _ => false
  end.

Definition placements_in_row (cannons : list json) (r : Z) : Z :=
  Z.of_nat (List.length (filter (placed_in r) cannons)).

(** A count of 7 or more goes to bin 7. *)
Definition clamp (c : Z) : Z := Z.min c 7.

(** The number of rows whose clamped placement count is [i]. *)
Definition rows_in_bin (cannons : list json) (i : Z) : Z :=
  Z.of_nat
    (List.length
       (filter (fun r => (clamp (placements_in_row cannons r) =? i)%Z) eight)).

(** The number of counts that fall into bin [i]. *)
Definition tally (counts : list Z) (i : Z) : Z :=
  Z.of_nat (List.length (filter (fun c => (clamp c =? i)%Z) counts)).

Definition zsum (l : list Z) : Z := fold_right Z.add 0%Z l.

(** The histogram key, one decimal numeral per bin. *)
Definition histogram_key (cannons : list json) : string :=
  String.concat "" (map (fun i => str_of_Z (rows_in_bin cannons i)) eight).

Fixpoint chars_between (lo hi : ascii) (s : string) : bool :=
  match s with
  | "" => true
  | String c s' =>
      (nat_of_ascii lo <=? nat_of_ascii c)%nat
      && (nat_of_ascii c <=? nat_of_ascii hi)%nat
      && chars_between lo hi s'
  end.

(** The sum of the values of the digits of a string of digits. *)
Fixpoint digit_sum (s : string) : Z :=
  match s with
  | "" => 0%Z
  | String c s' => (Z.of_nat (nat_of_ascii c) - 48 + digit_sum s')%Z
  end.

End Spec.

(** ** The pages of a ranking

    The specification speaks of the sequence of pages the server
    returns and of the identifiers available before a stopping
    condition. *)

Module Pages.
Import PyText Socket Transport Json Client.

(** One page fetch, as the crawler reads it. *)
Inductive page : Type :=
| PageStop
    (** transport failure, decode failure, no ["games"] field, or an
        empty page *)
| PageRaised
    (** a payload that makes the crawler raise *)
| PageIds (ids : list json) (more : bool)
    (** identifiers, and whether a ["next"] marker is present *).

(** The identifiers available before a stopping condition. *)
Fixpoint available (pages : list page) : Z :=
  match pages with
  | PageIds ids true :: rest => (Z.of_nat (List.length ids) + available rest)%Z
  | PageIds ids false :: _ => Z.of_nat (List.length ids)
  | _ => 0%Z
  end.

(** Whether the crawl goes on after a page, the cap left aside. *)
Definition goes_on (p : page) : bool :=
  match p with
  | PageIds _ true => true
  | _ => false
  end.

Section WithLibraries.
Variable decode : string -> string.
Variable json_loads : string -> option json.

(** How the result of [http_get] for a page reads. *)
Definition read_page (data : option string) : page :=
  match data with
  | None => PageStop
  | Some text =>
      match json_loads text with
      | None => PageStop
      | Some (JObj items) =>
          match lookup "games" items with
          | None => PageStop
          | Some page_games =>
              if negb (sized page_games) then PageRaised
              else if negb (truthy page_games) then PageStop
              else
                match iterate page_games with
                | Raised => PageRaised
                | Ok elems =>
                    PageIds elems
                      (match lookup "next" items with
                       | Some next => truthy next
                       | None => false
                       end)
                end
          end
      | Some _ => PageRaised
      end
  end.

Definition fetch_page (host : string) (port : Z) (ranking_type : string)
    (start : Z) (s : socket) : page * socket :=
  let '(data, s1) := http_get decode s host port (rank_path ranking_type start) in
  (read_page data, s1).

(** [serves s start pages]: asked for page after page from [start] on,
    the peer behind [s] returns [pages], the last of which is the first
    that stops the crawl. *)
Inductive serves (host : string) (port : Z) (ranking_type : string)
  : socket -> Z -> list page -> Prop :=
| serves_last (s s1 : socket) (start : Z) (p : page) :
    fetch_page host port ranking_type start s = (p, s1) ->
    goes_on p = false ->
    serves host port ranking_type s start [p]
| serves_more (s s1 : socket) (start : Z) (p : page) (rest : list page) :
    fetch_page host port ranking_type start s = (p, s1) ->
    goes_on p = true ->
    serves host port ranking_type s1 (start + limit) rest ->
    serves host port ranking_type s start (p :: rest).

End WithLibraries.

End Pages.

(** ** Concrete exchanges *)

Module Scenarios.
Import PyText Socket Json.
Local Open Scope Z_scope.
Local Open Scope string_scope.

(** The bytes of these exchanges are ASCII: they decode to themselves. *)
Definition ascii_decode (b : string) : string := b.

(** A response: status line, header lines, blank line, body bytes. *)
Definition response (status_line : string) (headers : list string)
    (body : string) : string :=
  join CRLF (status_line :: headers) ++ CRLFCRLF ++ body.

Definition fresh (evs : list event) : socket := mkSocket evs [] [].

(** The peer declares 12 body bytes, delivers 6 and closes. *)
Definition truncated_socket : socket :=
  fresh [Data (response "HTTP/1.1 200 OK" ["Content-Length: 12"] "");
         Data "[10, 2"].

(** A 404 whose reason phrase mentions 200. *)
Definition not_found_status : string := "HTTP/1.1 404 Not Found (expected 200)".

Definition not_found_socket : socket :=
  fresh [Data (response not_found_status
                 ["Content-Type: application/json"; "Content-Length: 2"] "{}")].

(** A 200 that declares an empty body, followed by the next response. *)
Definition empty_body_socket : socket :=
  fresh [Data (response "HTTP/1.1 200 OK"
                 ["Content-Type: application/json"; "CONTENT-length: 0"] "");
         Data (response "HTTP/1.1 200 OK" ["Content-Length: 2"] "[]")].

Definition DQ : string := String "034"%char "".
Definition quoted (s : string) : string := DQ ++ s ++ DQ.

(** A 200 response that declares the length of its body. *)
Definition ok_response (body : string) : string :=
  response "HTTP/1.1 200 OK"
    ["Content-Type: application/json";
     "Content-Length: " ++ str_of_Z (Z.of_nat (String.length body))]
    body.

(** The payload of [/api/game/<id>] for a game of [auth] with
    [ships_sunk] ships sunk, as text and decoded. *)
Definition sunk_body (auth : string) (ships_sunk : Z) : string :=
  "{" ++ quoted "game_id" ++ ": 1, " ++ quoted "game_stats" ++ ": {"
    ++ quoted "auth" ++ ": " ++ quoted auth ++ ", "
    ++ quoted "ships_sunk" ++ ": " ++ str_of_Z ships_sunk ++ "}}".

Definition sunk_record (auth : string) (ships_sunk : Z) : json :=
  JObj [("game_id", JInt 1);
        ("game_stats", JObj [("auth", JStr auth); ("ships_sunk", JInt ships_sunk)])].

(** The payload for a game with one cannon in each listed row and
    [ships_escaped] ships escaped. *)
Definition escaped_body (rows : list Z) (ships_escaped : Z) : string :=
  "{" ++ quoted "game_id" ++ ": 1, " ++ quoted "game_stats" ++ ": {"
    ++ quoted "cannons" ++ ": ["
    ++ join ", " (map (fun r => "[" ++ str_of_Z r ++ ", 1]") rows) ++ "], "
    ++ quoted "ships_escaped" ++ ": " ++ str_of_Z ships_escaped ++ "}}".

Definition escaped_record (rows : list Z) (ships_escaped : Z) : json :=
  JObj [("game_id", JInt 1);
        ("game_stats",
         JObj [("cannons", JArr (map (fun r => JArr [JInt r; JInt 1]) rows));
               ("ships_escaped", JInt ships_escaped)])].

(** A page of [/api/rank/...]: the identifiers and the link to the next
    page, [null] on the last one. *)
Definition page_body (ids : list Z) (next : option string) : string :=
  "{" ++ quoted "games" ++ ": [" ++ join ", " (map str_of_Z ids) ++ "], "
    ++ quoted "next" ++ ": "
    ++ match next with Some link => quoted link | None => "null" end ++ "}".

Definition page_value (ids : list Z) (next : option string) : json :=
  JObj [("games", JArr (map JInt ids));
        ("next", match next with Some link => JStr link | None => JNull end)].

(** [json.loads] on the texts of these exchanges. *)
Definition scenario_table : list (string * json) :=
  [ (sunk_body "alice" 5, sunk_record "alice" 5);
    (sunk_body "alice" 7, sunk_record "alice" 7);
    (sunk_body "bob" 9, sunk_record "bob" 9);
    (sunk_body "carol" 4, sunk_record "carol" 4);
    (escaped_body [0; 0; 0] 2, escaped_record [0; 0; 0] 2);
    (escaped_body [] 1, escaped_record [] 1);
    (escaped_body [3] 2, escaped_record [3] 2);
    (page_body [11; 12; 13] (Some "/api/rank/sunk?limit=50&start=51"),
     page_value [11; 12; 13] (Some "/api/rank/sunk?limit=50&start=51"));
    (page_body [14; 15] None, page_value [14; 15] None) ].

Definition scenario_loads (text : string) : option json :=
  lookup text scenario_table.

(** [str] on the identifiers of these exchanges. *)
Definition scenario_str (v : json) : string :=
  match v with
  | JInt z => str_of_Z z
  | JStr s => s
  | _ => ""
  end.

(** Two games of alice, with 5 and with 7 ships sunk. *)
Definition alice_socket : socket :=
  fresh [Data (ok_response (sunk_body "alice" 5));
         Data (ok_response (sunk_body "alice" 7))].

(** Games of bob, alice, carol and alice again. *)
Definition immortals_socket : socket :=
  fresh [Data (ok_response (sunk_body "bob" 9));
         Data (ok_response (sunk_body "alice" 5));
         Data (ok_response (sunk_body "carol" 4));
         Data (ok_response (sunk_body "alice" 7))].

(** Three placements: three cannons in row 0, none, one in row 3. *)
Definition top_meta_socket : socket :=
  fresh [Data (ok_response (escaped_body [0; 0; 0] 2));
         Data (ok_response (escaped_body [] 1));
         Data (ok_response (escaped_body [3] 2))].

(** Two pages of a ranking, of three and of two identifiers. *)
Definition ranking_socket : socket :=
  fresh [Data (ok_response
                 (page_body [11; 12; 13] (Some "/api/rank/sunk?limit=50&start=51")));
         Data (ok_response (page_body [14; 15] None))].

End Scenarios.

(** ** The server: pagination of a ranking ([server.py]) *)

Module Server.
Import PyText Json.
Local Open Scope Z_scope.

Section Slices.
Context {A : Type}.

(** A slice bound as Python reads it against a length: a negative bound
    counts from the end, and both ends are clipped. *)
Definition clip (len i : Z) : Z :=
  if i <? 0 then Z.max (i + len) 0 else Z.min i len.

(** [df.iloc[a:b]]: rows by position, with Python's slice bounds. *)
Definition iloc (df : list A) (a b : Z) : list A :=
  let len := Z.of_nat (List.length df) in
  let lo := clip len a in
  let hi := clip len b in
  firstn (Z.to_nat (hi - lo)) (skipn (Z.to_nat lo) df).

(** [paginate_df(df, limit, start)] *)
Definition paginate_df (df : list A) (limit start : Z) : list A :=
  let start_idx := start - 1 in
  let end_idx := start_idx + limit in
  let total := Z.of_nat (List.length df) in
  if start_idx >=? total then iloc df 0 0
  else iloc df start_idx end_idx.

End Slices.

Definition rank_link (ranking_type : string) (limit start : Z) : string :=
  "/api/rank/" ++ ranking_type ++ "?limit=" ++ str_of_Z limit
    ++ "&start=" ++ str_of_Z start.

(** [build_pagination_links(ranking_type, limit, start, total_items)]:
    the links [(prev, next)], [None] where there is none. *)
Definition build_pagination_links (ranking_type : string)
    (limit start total_items : Z) : option string * option string :=
  let prev_start := start - limit in
  let prev_link :=
    if prev_start <? 1 then None
    else Some (rank_link ranking_type limit prev_start) in
  let next_start := start + limit in
  let next_link :=
    if next_start >? total_items then None
    else Some (rank_link ranking_type limit next_start) in
  (prev_link, next_link).

Definition link_json (link : option string) : json :=
  match link with
  | Some l => JStr l
  | None => JNull
  end.

(** The answer of a ranking endpoint once [limit] and [start] are read
    and [limit] is in range: the payload given to [jsonify]. [df] is
    the [game_id] column of the sorted frame. *)
Definition rank_payload (ranking_type : string) (df : list Z)
    (limit start : Z) : json :=
  let total_games := Z.of_nat (List.length df) in
  let game_ids := paginate_df df limit start in
  let '(prev_link, next_link) :=
    build_pagination_links ranking_type limit start total_games in
  JObj [("ranking", JStr ranking_type);
        ("limit", JInt limit);
        ("start", JInt start);
        ("games", JArr (map JInt game_ids));
        ("prev", link_json prev_link);
        ("next", link_json next_link)].

(** [int(request.args.get(name, default))]: the first value of the
    parameter, read as an integer; [None] stands for [ValueError]. *)
Definition int_arg (args : list (string * string)) (name : string)
    (default : Z) : option Z :=
  match find (fun kv => String.eqb (fst kv) name) args with
  | Some kv => py_int (snd kv)
  | None => Some default
  end.

(** [get_rank_sunk()] and [get_rank_escaped()], which differ in the
    name of the ranking and in the frame: the payload and the status
    code. *)
Definition get_rank (ranking_type : string) (df : list Z)
    (args : list (string * string)) : json * Z :=
  match int_arg args "limit" 10, int_arg args "start" 1 with
  | Some limit, Some start =>
      if (limit <? 1) || (limit >? 50) then
        (JObj [("error", JStr "'limit' deve estar entre 1 e 50")], 400)
      else (rank_payload ranking_type df limit start, 200)
  | _, _ =>
      (JObj [("error",
              JStr "parametros 'limit' e 'start' devem ser inteiros")], 400)
  end.

End Server.

(** ** More words for the pages of a ranking *)

Module Crawl.
Import PyText Socket Json Client Pages Server.
Local Open Scope Z_scope.

(** The identifiers of the pages up to the first stopping condition,
    in the order of the pages. *)
Fixpoint collected (pages : list page) : list json :=
  match pages with
  | PageIds ids true :: rest => (ids ++ collected rest)%list
  | PageIds ids false :: _ => ids
  | _ => []
  end.

(** How a decoded payload reads as a page: what [read_page] does after
    [json.loads]. *)
Definition payload_page (payload : json) : page :=
  match payload with
  | JObj items =>
      match lookup "games" items with
      | None => PageStop
      | Some page_games =>
          if negb (sized page_games) then PageRaised
          else if negb (truthy page_games) then PageStop
          else
            match iterate page_games with
            | Raised => PageRaised
            | Ok elems =>
                PageIds elems
                  (match lookup "next" items with
                   | Some next => truthy next
                   | None => false
                   end)
            end
      end
  | _ => PageRaised
  end.

(** The pages a crawl with [limit = 50] gets from the ranking endpoint
    of the server for the frame [df], from [start] on; one page takes at
    least one row, so [fuel] need not exceed the number of rows. *)
Fixpoint server_pages (fuel : nat) (ranking_type : string) (df : list Z)
    (start : Z) : list page :=
  let p := payload_page (rank_payload ranking_type df Client.limit start) in
  if goes_on p then
    match fuel with
    | O => [p]
    | S fuel' => p :: server_pages fuel' ranking_type df (start + Client.limit)
    end
  else [p].

End Crawl.

(** ** The bytes of a stream *)

Module Stream.
Import PyText Socket.

(** The bytes the events hold, in order. *)
Fixpoint bytes_of (evs : list event) : string :=
  match evs with
  | [] => ""
  | Data bytes :: rest => bytes ++ bytes_of rest
  | Fault :: rest => bytes_of rest
  end.

(** The bytes of a list of segments. *)
Definition segments (segs : list string) : string := bytes_of (map Data segs).

End Stream.

(** ** The key of a record *)

Module Grouping.
Import PyText Json PyNum Key Client.

(** The key under which Variant A files a record: its ["auth"]. *)
Definition immortals_key (info : json) : result hkey :=
  bind (get info "game_stats" (JObj [])) (fun game_stats =>
  bind (get game_stats "auth" (JStr "UnknownAuth")) key_of).

(** The key under which Variant B files a record: the placement of its
    ["cannons"]. *)
Definition top_meta_key (info : json) : result string :=
  bind (get info "game_stats" (JObj [])) (fun game_stats =>
  bind (get game_stats "cannons" (JArr [])) placement_of).

(** Whether a record is filed under [k]. *)
Definition filed_under {K : Type} (eqb : K -> K -> bool)
    (key : json -> result K) (k : K) (info : json) : bool :=
  match key info with
  | Ok k' => eqb k' k
  | Raised => false
  end.

End Grouping.


(** ** Measures of the output and of the traffic *)

Module Csv.

(** [line.count(",")] *)
Fixpoint commas (line : string) : nat :=
  match line with
  | "" => 0
  | String c rest => (if Ascii.eqb c "," then 1 else 0) + commas rest
  end.

End Csv.

Module Trace.
Import Socket.

(** The requests written to the socket, in order. *)
Fixpoint sent (cs : list call) : list string :=
  match cs with
  | [] => []
  | CallSend data :: rest => data :: sent rest
  | CallRecv _ :: rest => sent rest
  end.

End Trace.


(** ** Responses with other length headers *)

Module Headers.
Import PyText Socket Scenarios.

(** A 200 whose length header is written in mixed case, with a body of
    5 bytes. *)
Definition mixed_case_lines : list string :=
  ["Content-Type: text/plain"; "cOnTeNt-LeNgTh: 5"].

Definition mixed_case_socket : socket :=
  fresh [Data (response "HTTP/1.1 200 OK" mixed_case_lines "hello")].

(** ARABIC-INDIC DIGIT THREE (U+0663) and NO-BREAK SPACE (U+00A0), in
    UTF-8. *)
Definition arabic_three : string := String "217" (String "163" "").
Definition no_break_space : string := String "194" (String "160" "").

(** A 200 whose length is that digit, the value ending in a no-break
    space, with a body of 3 bytes. *)
Definition arabic_lines : list string :=
  ["Content-Length: " ++ arabic_three ++ no_break_space].

Definition arabic_socket : socket :=
  fresh [Data (response "HTTP/1.1 200 OK" arabic_lines "abc")].

End Headers.

(** ** The sort of CPython on a short list *)

Module Cpython.

Section WithOrder.
Context {A : Type}.

(** [lt x y]: the key of [x] is less than the key of [y]. *)
Variable lt : A -> A -> bool.

(** [count_run]: the run at the head of the list is descending when
    its second element is less than its first, and then goes on while
    each element is less than the one before it; otherwise it goes on
    until an element is less than the one before it. *)
Fixpoint descending_run (prev : A) (l : list A) : nat :=
  match l with
  | x :: rest => if lt x prev then S (descending_run x rest) else 0
  | [] => 0
  end.

Fixpoint ascending_run (prev : A) (l : list A) : nat :=
  match l with
  | x :: rest => if lt x prev then 0 else S (ascending_run x rest)
  | [] => 0
  end.

Definition count_run (l : list A) : nat * bool :=
  match l with
  | [] => (0, false)
  | [x] => (1, false)
  | x :: y :: rest =>
      if lt y x then (2 + descending_run y rest, true)
      else (2 + ascending_run y rest, false)
  end.

(** The binary search of [binarysort] for the place of [pivot] in the
    sorted prefix: it halves the interval from [l] to [r], so that the
    length of the prefix is fuel enough. *)
Fixpoint search (fuel : nat) (sorted : list A) (pivot : A) (l r : nat) : nat :=
  match fuel with
  | O => l
  | S fuel' =>
      let p := l + (r - l) / 2 in
      match nth_error sorted p with
      | None => l
      | Some x =>
          let '(l', r') := if lt pivot x then (l, p) else (S p, r) in
          if (l' <? r')%nat then search fuel' sorted pivot l' r' else l'
      end
  end.

Definition binary_insert (sorted : list A) (pivot : A) : list A :=
  let i := search (List.length sorted) sorted pivot 0 (List.length sorted) in
  (firstn i sorted ++ pivot :: skipn i sorted)%list.

(** [list.sort] of CPython 3.11 on a list of fewer than 64 elements:
    the run at the head, reversed if it is descending, is extended to
    the whole list by binary insertion. The runs of this file use it
    as the sort of means that [<] does not preorder. *)
Definition sort_short (l : list A) : list A :=
  let '(n, descending) := count_run l in
  let run := firstn n l in
  fold_left binary_insert (skipn n l) (if descending then rev run else run).

End WithOrder.

End Cpython.

(** ** A record whose metric is NaN *)

Module NanScenario.
Import PyText Socket Json Scenarios.
Local Open Scope Z_scope.






End NanScenario.

(** ** More exchanges *)

Module Exchanges.
Import PyText Socket Json Scenarios.
Local Open Scope Z_scope.

(** A response with a body of 5 bytes, cut into segments inside a
    header line, inside the blank line and inside the body; the last
    segment goes on with the start of the next response. *)
Definition cut_segments : list string :=
  [ "HTTP/1.1 200 OK" ++ CRLF ++ "Content-Le";
    "ngth: 5" ++ CRLF ++ String CR "";
    String LF "hel";
    "loHTTP/1.1 2" ].

Definition cut_socket : socket := fresh (map Data cut_segments).

(** A peer that closes the connection inside the header block. *)
Definition headless_socket : socket :=
  fresh [Data ("HTTP/1.1 200 OK" ++ CRLF ++ "Content-Length: 2" ++ CRLF)].

(** The text of the payload of a ranking endpoint. *)
Definition rank_body (ranking_type : string) (ids : list Z) (limit start : Z)
    (prev next : option string) : string :=
  let link l := match l with Some x => quoted x | None => "null" end in
  "{" ++ quoted "games" ++ ": [" ++ join ", " (map str_of_Z ids) ++ "], "
    ++ quoted "limit" ++ ": " ++ str_of_Z limit ++ ", "
    ++ quoted "next" ++ ": " ++ link next ++ ", "
    ++ quoted "prev" ++ ": " ++ link prev ++ ", "
    ++ quoted "ranking" ++ ": " ++ quoted ranking_type ++ ", "
    ++ quoted "start" ++ ": " ++ str_of_Z start ++ "}".

(** A ranking of 51 games, 1 to 51, and the two pages the server makes
    of it for a limit of 50. *)
Definition fifty_one : list Z := map Z.of_nat (seq 1 51).

Definition first_page_body : string :=
  rank_body "sunk" (firstn 50 fifty_one) 50 1 None
    (Some "/api/rank/sunk?limit=50&start=51").

Definition second_page_body : string :=
  rank_body "sunk" [51] 50 51 (Some "/api/rank/sunk?limit=50&start=1") None.

Definition ranking_table : list (string * json) :=
  [ (first_page_body, Server.rank_payload "sunk" fifty_one 50 1);
    (second_page_body, Server.rank_payload "sunk" fifty_one 50 51) ].

Definition ranking_loads (text : string) : option json :=
  lookup text ranking_table.

Definition server_socket : socket :=
  fresh [Data (ok_response first_page_body);
         Data (ok_response second_page_body)].

End Exchanges.
(** * Properties *)

(** ** Text *)

Module PyTextFacts.
Import PyText.

Lemma startswith_nil_r (p : string) : startswith p "" = true -> p = "".
Proof. destruct p; simpl; congruence. Qed.

Lemma length_app (x y : string) :
  String.length (x ++ y) = String.length x + String.length y.
Proof. induction x as [|c x IH]; simpl; [reflexivity | now rewrite IH]. Qed.

Lemma app_nil_r (x : string) : x ++ "" = x.
Proof. induction x as [|c x IH]; simpl; [reflexivity | now rewrite IH]. Qed.

Lemma drop_all (s : string) (n : nat) : String.length s <= n -> drop n s = "".
Proof.
  revert n; induction s as [|c s IH]; intros [|n] H; simpl in *;
    try reflexivity; try lia.
  apply IH; lia.
Qed.

Lemma take_length (n : nat) (s : string) : String.length (take n s) <= n.
Proof.
  revert s; induction n as [|n IH]; intros [|c s]; simpl; try lia.
  specialize (IH s); lia.
Qed.

Lemma take_drop_length (n : nat) (s : string) :
  String.length (take n s) + String.length (drop n s) = String.length s.
Proof.
  revert s; induction n as [|n IH]; intros [|c s]; simpl; try lia.
  specialize (IH s); lia.
Qed.

(** A separator that matches at the front once one more byte has come,
    and did not before, ends with that byte. *)
Lemma startswith_grown (sep x : string) (c : ascii) :
  startswith sep (x ++ String c "") = true ->
  startswith sep x = false ->
  String.length sep = S (String.length x).
Proof.
  revert x; induction sep as [|a sep IH]; intros x Hafter Hbefore.
  - destruct x; discriminate.
  - destruct x as [|b x]; simpl in *.
    + apply andb_true_iff in Hafter as [_ Hnil].
      apply startswith_nil_r in Hnil; now subst.
    + apply andb_true_iff in Hafter as [Hab Hrest].
      rewrite Hab in Hbefore; simpl in Hbefore.
      f_equal; now apply IH.
Qed.

Lemma contains_cons (sep : string) (c : ascii) (s : string) :
  contains sep (String c s) = false ->
  startswith sep (String c s) = false /\ contains sep s = false.
Proof.
  unfold contains; simpl.
  destruct sep as [|a sep]; [discriminate|].
  simpl. destruct (Ascii.eqb a c && startswith sep s); [discriminate|].
  destruct (split_first (String a sep) s) as [[? ?]|]; [discriminate|].
  auto.
Qed.

Lemma split_first_unfold (sep s : string) :
  split_first sep s =
  if startswith sep s then Some ("", drop (String.length sep) s)
  else match s with
       | "" => None
       | String c s' =>
           match split_first sep s' with
           | Some (before, after) => Some (String c before, after)
           | None => None
           end
       end.
Proof. destruct s; reflexivity. Qed.

(** The byte that completes the first occurrence of the separator is
    the last one of that occurrence: nothing follows it. *)
Lemma split_first_grown (sep acc : string) (c : ascii) (before after : string) :
  contains sep acc = false ->
  split_first sep (acc ++ String c "") = Some (before, after) ->
  after = "".
Proof.
  revert before; induction acc as [|a acc IH]; intros before Hno Hsplit;
    rewrite split_first_unfold in Hsplit; cbn [append] in Hsplit.
  - assert (Hne : startswith sep "" = false).
    { unfold contains in Hno; destruct sep; [discriminate | reflexivity]. }
    destruct (startswith sep (String c "")) eqn:Hsw.
    + injection Hsplit as <- <-.
      pose proof (startswith_grown sep "" c Hsw Hne) as Hlen.
      destruct sep as [|x [|y sep]]; simpl in *; try discriminate.
      reflexivity.
    + rewrite split_first_unfold, Hne in Hsplit. discriminate.
  - apply contains_cons in Hno as [Hsw Hno].
    destruct (startswith sep (String a (acc ++ String c ""))) eqn:Hsw'.
    + injection Hsplit as <- <-.
      pose proof (startswith_grown sep (String a acc) c Hsw' Hsw) as Hlen.
      apply drop_all. rewrite Hlen; simpl. rewrite length_app; simpl; lia.
    + destruct (split_first sep (acc ++ String c "")) as [[b' a']|] eqn:Hrec;
        [|discriminate].
      injection Hsplit as <- <-.
      now apply (IH b').
Qed.

End PyTextFacts.

(** ** The socket and the transport *)

Module TransportFacts.
Import PyText PyTextFacts Socket Transport.

Lemma recv_from_chunk (n : nat) (evs evs' : list event) (chunk : string) :
  recv_from n evs = (Chunk chunk, evs') ->
  String.length chunk <= n /\
  pending evs' + String.length chunk <= pending evs.
Proof.
  revert evs'; induction evs as [|[bytes|] evs IH]; intros evs' H; simpl in H.
  - injection H as <- <-; simpl; lia.
  - destruct bytes as [|c bytes].
    + apply IH in H. simpl; lia.
    + injection H as <- <-.
      pose proof (take_length n (String c bytes)).
      pose proof (take_drop_length n (String c bytes)).
      split; [assumption|].
      destruct (drop n (String c bytes)); simpl pending in *; simpl in *; lia.
  - discriminate.
Qed.

Lemma recv_from_raised (n : nat) (evs evs' : list event) :
  recv_from n evs = (RecvRaised, evs') -> S (pending evs') <= pending evs.
Proof.
  revert evs'; induction evs as [|[bytes|] evs IH]; intros evs' H; simpl in H.
  - discriminate.
  - destruct bytes; [apply IH in H; simpl; lia | discriminate].
  - injection H as <-; simpl; lia.
Qed.

(** One byte at most comes back from [recv(1)]. *)
Lemma recv_one (s s' : socket) (c : ascii) (chunk : string) :
  recv 1 s = (Chunk (String c chunk), s') -> chunk = "".
Proof.
  unfold recv. destruct (recv_from 1 (inbound s)) as [r evs] eqn:E.
  intros H; injection H as -> <-.
  apply recv_from_chunk in E as [Hlen _].
  destruct chunk; [reflexivity | simpl in Hlen; lia].
Qed.

Lemma recv_pending (n : nat) (s s' : socket) (r : received) :
  recv n s = (r, s') ->
  send_script s' = send_script s /\
  match r with
  | Chunk chunk =>
      String.length chunk <= n /\
      pending (inbound s') + String.length chunk <= pending (inbound s)
  | RecvRaised => S (pending (inbound s')) <= pending (inbound s)
  end.
Proof.
  unfold recv. destruct (recv_from n (inbound s)) as [r0 evs] eqn:E.
  intros H; injection H as <- <-. simpl. split; [reflexivity|].
  destruct r0; [now apply recv_from_chunk | now apply (recv_from_raised n)].
Qed.

Section WithDecoder.
Variable decode : string -> string.

(** The header loop stops on the byte that completes the blank line:
    no byte of the body has been read, and at least one byte is gone
    from the stream. *)
Lemma read_header_loop_done (fuel : nat) (acc : string) (s s' : socket)
    (response_header : string) :
  contains CRLFCRLF acc = false ->
  read_header_loop fuel acc s = (Some response_header, s') ->
  (exists header_bytes,
      split_first CRLFCRLF response_header = Some (header_bytes, "")) /\
  S (pending (inbound s')) <= pending (inbound s) /\
  send_script s' = send_script s.
Proof.
  revert acc s; induction fuel as [|fuel IH]; intros acc s Hacc H; simpl in H.
  - discriminate.
  - destruct (recv 1 s) as [[chunk|] s1] eqn:Hrecv; [|discriminate].
    destruct chunk as [|c chunk]; [discriminate|].
    pose proof (recv_one _ _ _ _ Hrecv); subst chunk.
    apply recv_pending in Hrecv as [Hscript [_ Hpend]]. simpl in Hpend.
    destruct (contains CRLFCRLF (acc ++ String c "")) eqn:Hc.
    + injection H as <- <-. repeat split; [|lia|assumption].
      unfold contains in Hc.
      destruct (split_first CRLFCRLF (acc ++ String c "")) as [[b a]|] eqn:Hs;
        [|discriminate].
      pose proof (split_first_grown _ _ _ _ _ Hacc Hs); subst a.
      now exists b.
    + apply IH in H as (Hh & Hp & Hss); [|assumption].
      repeat split; [assumption|lia|congruence].
Qed.

(** The fuel [read_header] gives is enough: more changes nothing. *)
Lemma read_header_loop_fuel (fuel : nat) (acc : string) (s : socket) :
  pending (inbound s) < fuel ->
  read_header_loop fuel acc s = read_header_loop (S (pending (inbound s))) acc s.
Proof.
  remember (pending (inbound s)) as p eqn:Hp.
  revert fuel acc s Hp; induction p as [p IHp] using lt_wf_ind.
  intros fuel acc s Hp Hlt.
  destruct fuel as [|fuel]; [lia|]. simpl.
  destruct (recv 1 s) as [[chunk|] s1] eqn:Hrecv; [|reflexivity].
  destruct chunk as [|c chunk]; [reflexivity|].
  destruct (contains CRLFCRLF (acc ++ String c chunk)); [reflexivity|].
  apply recv_pending in Hrecv as [_ [_ Hpend]]. simpl in Hpend.
  rewrite (IHp (pending (inbound s1))) with (fuel := fuel); try lia; try reflexivity.
  rewrite (IHp (pending (inbound s1))) with (fuel := p); try lia; reflexivity.
Qed.

Lemma read_header_done (s s' : socket) (response_header : string) :
  read_header s = (Some response_header, s') ->
  (exists header_bytes,
      split_first CRLFCRLF response_header = Some (header_bytes, "")) /\
  S (pending (inbound s')) <= pending (inbound s) /\
  send_script s' = send_script s.
Proof. apply read_header_loop_done. reflexivity. Qed.

(** The body loop never reads past [to_read] bytes and never adds to
    the stream. *)
Lemma read_body_loop_pending (fuel : nat) (body : string) (to_read : Z)
    (s s' : socket) (r : body_result) :
  read_body_loop fuel body to_read s = (r, s') ->
  pending (inbound s') <= pending (inbound s) /\
  send_script s' = send_script s.
Proof.
  revert body to_read s; induction fuel as [|fuel IH]; intros body to_read s H;
    simpl in H; destruct (to_read >? 0)%Z;
    try (injection H as <- <-; split; [lia | reflexivity]).
  destruct (recv (Z.to_nat to_read) s) as [[chunk|] s1] eqn:Hrecv.
  - apply recv_pending in Hrecv as [Hss [_ Hpend]].
    destruct chunk as [|c chunk].
    + injection H as <- <-. split; [lia | assumption].
    + apply IH in H as [Hp Hs]. split; [lia | congruence].
  - apply recv_pending in Hrecv as [Hss Hpend].
    injection H as <- <-. split; [lia | assumption].
Qed.

(** The fuel [read_body] gives is enough: more changes nothing. *)
Lemma read_body_loop_fuel (fuel : nat) (body : string) (to_read : Z) (s : socket) :
  Z.to_nat to_read <= fuel ->
  read_body_loop fuel body to_read s = read_body body to_read s.
Proof.
  unfold read_body.
  remember (Z.to_nat to_read) as k eqn:Hk.
  revert fuel body to_read s Hk; induction k as [k IHk] using lt_wf_ind.
  intros fuel body to_read s Hk Hle.
  destruct (to_read >? 0)%Z eqn:Hpos.
  - apply Z.gtb_lt in Hpos.
    destruct fuel as [|fuel]; [lia|]. destruct k as [|k]; [lia|].
    simpl. apply Z.gtb_lt in Hpos. rewrite Hpos.
    destruct (recv (Z.to_nat to_read) s) as [[chunk|] s1] eqn:Hrecv; [|reflexivity].
    destruct chunk as [|c chunk]; [reflexivity|].
    set (rest := (to_read - Z.of_nat (String.length (String c chunk)))%Z).
    assert (Hrest : Z.to_nat rest <= k) by (subst rest; simpl String.length; lia).
    rewrite (IHk (Z.to_nat rest)) with (fuel := fuel); try lia; try reflexivity.
    rewrite (IHk (Z.to_nat rest)) with (fuel := k); try lia; reflexivity.
  - destruct fuel, k; simpl; rewrite Hpos; reflexivity.
Qed.

(** A call of [http_get] that returns a body has taken bytes from the
    stream. *)
Lemma http_get_consumes (s s' : socket) (host : string) (port : Z)
    (path data : string) :
  http_get decode s host port path = (Some data, s') ->
  S (pending (inbound s')) <= pending (inbound s).
Proof.
  unfold http_get.
  destruct (sendall (request_data host path) s) as [[|] s1] eqn:Hsend;
    [|discriminate].
  assert (Hin : inbound s1 = inbound s).
  { unfold sendall in Hsend.
    destruct (send_script s); inversion Hsend; reflexivity. }
  destruct (read_header s1) as [[hdr|] s2] eqn:Hhdr; [|discriminate].
  apply read_header_done in Hhdr as (_ & Hp & _).
  unfold handle_response.
  destruct (match split_first CRLFCRLF hdr with
            | Some parts => parts | None => (hdr, "") end) as [hb ba].
  destruct (negb _); [discriminate|].
  destruct (read_body ba _ s2) as [[body|] s3] eqn:Hbody; [|discriminate].
  apply read_body_loop_pending in Hbody as [Hp' _].
  intros H; injection H as _ <-. rewrite <- Hin. lia.
Qed.

End WithDecoder.

End TransportFacts.

(** ** The header block *)

Module HeaderFacts.
Import PyText PyTextFacts Socket Transport Spec.

Lemma lower_char_colon (c : ascii) : lower_char c = ":"%char -> c = ":"%char.
Proof.
  destruct c as [[] [] [] [] [] [] [] []]; vm_compute; intros H;
    first [reflexivity | discriminate H].
Qed.

Lemma lower_app (x y : string) : lower (x ++ y) = lower x ++ lower y.
Proof. induction x as [|c x IH]; simpl; [reflexivity | now rewrite IH]. Qed.

Lemma has_colon_lower (s : string) :
  has_char ":" (lower s) = false -> has_char ":" s = false.
Proof.
  induction s as [|c s IH]; simpl; [reflexivity|].
  intros H. apply orb_false_iff in H as [Hc Hs].
  rewrite (IH Hs), orb_false_r.
  destruct (Ascii.eqb c ":") eqn:E; [|reflexivity].
  apply Ascii.eqb_eq in E; subst c. discriminate Hc.
Qed.

Lemma startswith_app (p rest : string) : startswith p (p ++ rest) = true.
Proof.
  induction p as [|c p IH]; simpl; [reflexivity|].
  now rewrite Ascii.eqb_refl, IH.
Qed.

(** [ln.split(":", 1)] cuts at the colon that ends the field name. *)
Lemma split_colon (name value : string) :
  has_char ":" name = false ->
  split_first ":" (name ++ ":" ++ value) = Some (name, value).
Proof.
  induction name as [|c name IH]; intros H.
  - reflexivity.
  - simpl in H. apply orb_false_iff in H as [Hc Hname].
    rewrite split_first_unfold. cbn [append startswith].
    rewrite Ascii.eqb_sym, Hc. cbn [andb].
    change (name ++ String ":" value) with (name ++ ":" ++ value).
    now rewrite (IH Hname).
Qed.

(** A character and its lowercase form are one letter. *)
Lemma same_letter_lower (c : ascii) : same_letter c (lower_char c) = true.
Proof.
  destruct c as [[] [] [] [] [] [] [] []]; vm_compute; reflexivity.
Qed.

Lemma same_letter_sym (a b : ascii) : same_letter a b = same_letter b a.
Proof.
  unfold same_letter. rewrite (Nat.eqb_sym (nat_of_ascii a)).
  destruct (nat_of_ascii b =? nat_of_ascii a)%nat; [reflexivity|].
  cbn [orb]. apply orb_comm.
Qed.

Lemma same_letter_trans (a b c : ascii) :
  same_letter a b = true -> same_letter b c = true -> same_letter a c = true.
Proof.
  unfold same_letter. intros H1 H2.
  repeat match goal with
         | H : (_ || _)%bool = true |- _ => apply orb_true_iff in H as [H|H]
         | H : (_ && _)%bool = true |- _ => apply andb_true_iff in H as [? H]
         | H : (_ =? _)%nat = true |- _ => apply Nat.eqb_eq in H
         | H : (_ <=? _)%nat = true |- _ => apply Nat.leb_le in H
         end;
    repeat (apply orb_true_iff;
            first [ left; apply Nat.eqb_eq; lia
                  | right; repeat (apply andb_true_iff; split);
                    first [apply Nat.leb_le; lia | apply Nat.eqb_eq; lia]
                  | left ]).
Qed.

(** A letter of either case has the lowercase form of its lowercase
    partner. *)
Lemma lower_char_same (c p : ascii) :
  same_letter c p = true -> lower_char c = lower_char p.
Proof.
  unfold same_letter, lower_char. intros H.
  pose proof (nat_ascii_bounded c) as Hc.
  pose proof (nat_ascii_bounded p) as Hp.
  apply orb_true_iff in H as [H|H]; [apply orb_true_iff in H as [H|H]|].
  - apply Nat.eqb_eq in H.
    assert (c = p) by (rewrite <- (ascii_nat_embedding c),
                         <- (ascii_nat_embedding p); now rewrite H).
    now subst.
  - apply andb_true_iff in H as [H Hy]. apply andb_true_iff in H as [H1 H2].
    apply Nat.leb_le in H1, H2. apply Nat.eqb_eq in Hy.
    rewrite (proj2 (Nat.leb_le _ _) H1), (proj2 (Nat.leb_le _ _) H2).
    cbn [andb]. rewrite <- Hy.
    assert (E : (65 <=? nat_of_ascii p)%nat && (nat_of_ascii p <=? 90)%nat
                = false).
    { apply andb_false_iff. right. apply Nat.leb_gt. lia. }
    rewrite E. apply ascii_nat_embedding.
  - apply andb_true_iff in H as [H Hx]. apply andb_true_iff in H as [H1 H2].
    apply Nat.leb_le in H1, H2. apply Nat.eqb_eq in Hx.
    rewrite (proj2 (Nat.leb_le _ _) H1), (proj2 (Nat.leb_le _ _) H2).
    cbn [andb]. rewrite <- Hx.
    assert (E : (65 <=? nat_of_ascii c)%nat && (nat_of_ascii c <=? 90)%nat
                = false).
    { apply andb_false_iff. right. apply Nat.leb_gt. lia. }
    rewrite E. symmetry. apply ascii_nat_embedding.
Qed.

Lemma caseless_lower (a b : string) :
  caseless_eq a b = true -> lower a = lower b.
Proof.
  revert b; induction a as [|x a IH]; intros [|y b] H; try discriminate;
    [reflexivity|].
  cbn [caseless_eq] in H. apply andb_true_iff in H as [Hxy H].
  cbn [lower]. now rewrite (lower_char_same _ _ Hxy), (IH _ H).
Qed.

Lemma caseless_of_lower (a : string) : caseless_eq a (lower a) = true.
Proof.
  induction a as [|x a IH]; [reflexivity|].
  cbn [lower caseless_eq]. now rewrite same_letter_lower, IH.
Qed.

Lemma caseless_trans (a b c : string) :
  caseless_eq a b = true -> caseless_eq b c = true -> caseless_eq a c = true.
Proof.
  revert b c; induction a as [|x a IH]; intros [|y b] [|z c] H1 H2;
    try discriminate; [reflexivity|].
  cbn [caseless_eq] in *.
  apply andb_true_iff in H1 as [Hxy H1]. apply andb_true_iff in H2 as [Hyz H2].
  now rewrite (same_letter_trans _ _ _ Hxy Hyz), (IH _ _ H1 H2).
Qed.

(** The test the code makes on a header line is the declaration of the
    specification. *)
Lemma declares_length_test (ln : string) :
  startswith "content-length:" (lower ln) = true <->
  exists value, declares_length ln value.
Proof.
  split.
  - intros H.
    do 14 (destruct ln as [|?c ln]; [discriminate|];
           cbn [lower startswith] in H;
           apply andb_true_iff in H as [?Hc H]).
    destruct ln as [|c15 ln]; [discriminate|].
    cbn [lower startswith] in H. apply andb_true_iff in H as [Hc15 _].
    apply Ascii.eqb_eq in Hc15. symmetry in Hc15.
    apply lower_char_colon in Hc15; subst c15.
    exists ln.
    exists (String c (String c0 (String c1 (String c2 (String c3 (String c4
      (String c5 (String c6 (String c7 (String c8 (String c9 (String c10
      (String c11 (String c12 "")))))))))))))).
    split; [reflexivity|].
    apply (caseless_trans _ "content-length"); [|reflexivity].
    match goal with
    | |- caseless_eq ?name _ = true =>
        replace "content-length" with (lower name); [apply caseless_of_lower|]
    end.
    cbn [lower].
    repeat match goal with
           | E : Ascii.eqb _ (lower_char _) = true |- _ =>
               apply Ascii.eqb_eq in E; rewrite <- E
           end.
    reflexivity.
  - intros (value & name & -> & Hname).
    apply caseless_lower in Hname. rewrite lower_app, Hname.
    apply (startswith_app "content-length:").
Qed.

Lemma find_content_length_absent (lines : list string) :
  Forall (fun ln => forall value, ~ declares_length ln value) lines ->
  find_content_length lines = 0%Z.
Proof.
  induction 1 as [|ln lines Hln _ IH]; [reflexivity|].
  cbn [find_content_length].
  destruct (startswith "content-length:" (lower ln)) eqn:E; [|exact IH].
  apply declares_length_test in E as [value Hv]. now destruct (Hln value).
Qed.

Lemma find_content_length_first (before after : list string) (ln value : string) :
  Forall (fun l => forall v, ~ declares_length l v) before ->
  declares_length ln value ->
  find_content_length (before ++ ln :: after) =
  match py_int (strip value) with
  | Some n => n
  | None => 0%Z
  end.
Proof.
  intros Hbefore Hln.
  induction Hbefore as [|l before Hl _ IH]; cbn [find_content_length app].
  - assert (E : startswith "content-length:" (lower ln) = true)
      by (apply declares_length_test; eauto).
    rewrite E. destruct Hln as (name & -> & Hname).
    rewrite split_colon; [reflexivity|].
    apply has_colon_lower. now rewrite (caseless_lower _ _ Hname).
  - destruct (startswith "content-length:" (lower l)) eqn:E; [|exact IH].
    apply declares_length_test in E as [v Hv]. now destruct (Hl v).
Qed.

Lemma split_crlf_cons (s : string) :
  exists first rest, split_crlf s = first :: rest.
Proof.
  induction s as [|c s (f & r & IH)]; simpl; [eauto|].
  rewrite IH.
  destruct (Ascii.eqb c CR); [|eauto].
  destruct s as [|d s']; [eauto|].
  destruct (Ascii.eqb d LF); eauto.
Qed.

End HeaderFacts.

(** ** Claims about the transport *)

Module TransportClaims.
Import PyText PyTextFacts Socket Transport Spec TransportFacts HeaderFacts Scenarios.

(** Where the body loop meets a closed connection it leaves by [break]
    with what it has read so far. *)
Lemma read_body_peer_closed (fuel : nat) (body : string) (to_read : Z) (s : socket) :
  (0 < to_read)%Z ->
  inbound s = [] ->
  fst (read_body_loop (S fuel) body to_read s) = BodyRead body.
Proof.
  intros Hpos Hclosed. cbn [read_body_loop].
  apply Z.gtb_lt in Hpos. rewrite Hpos.
  unfold recv. rewrite Hclosed. reflexivity.
Qed.

(** C1, at the failing input: the response declares [Content-Length: 12],
    the peer closes after 6 body bytes, and [http_get] returns those 6
    bytes as the body instead of [None]. *)
Theorem http_get_truncated_body_is_returned :
  fst (http_get ascii_decode truncated_socket "127.0.0.1" 5000 "/api/game/7")
  = Some "[10, 2".
Proof. vm_compute. reflexivity. Qed.

(** C5, at the failing input: the status code of the response is 404,
    its reason phrase contains the characters 200, and [http_get]
    returns the body instead of [None]. *)
Theorem http_get_accepts_404_mentioning_200 :
  status_code_of not_found_status = "404" /\
  fst (http_get ascii_decode not_found_socket "127.0.0.1" 5000 "/api/game/7")
  = Some "{}".
Proof. split; vm_compute; reflexivity. Qed.

(** What the status test does guarantee: a status line in which the
    characters 200 do not occur makes [http_get] return [None]. *)
Lemma http_get_without_200 (decode : string -> string) (s s1 s2 : socket)
    (host path : string) (port : Z)
    (response_header header_bytes body_already : string) :
  sendall (request_data host path) s = (true, s1) ->
  read_header s1 = (Some response_header, s2) ->
  split_first CRLFCRLF response_header = Some (header_bytes, body_already) ->
  contains "200" (hd "" (split_crlf (decode header_bytes))) = false ->
  http_get decode s host port path = (None, s2).
Proof.
  intros Hsend Hhdr Hsplit Hno.
  unfold http_get. rewrite Hsend, Hhdr.
  unfold handle_response. rewrite Hsplit, Hno. reflexivity.
Qed.

(** C6: on a response whose status line passes the test, the scan for
    the length finds 0 when no header line declares [Content-Length];
    otherwise the first declaring line decides, whatever the case of its
    letters, with the integer its value reads as, or 0 when it reads as
    none. The body is what the body loop reads for that length (no body
    byte was read with the header), and for a length of 0 or less
    [http_get] returns the empty string with the socket as the header
    loop left it: no further [recv]. *)
Theorem http_get_content_length (decode : string -> string) (s s1 s2 : socket)
    (host path : string) (port : Z)
    (response_header header_bytes body_already status_line : string)
    (header_lines : list string) :
  decode "" = "" ->
  sendall (request_data host path) s = (true, s1) ->
  read_header s1 = (Some response_header, s2) ->
  split_first CRLFCRLF response_header = Some (header_bytes, body_already) ->
  split_crlf (decode header_bytes) = status_line :: header_lines ->
  contains "200" status_line = true ->
  let declared := find_content_length header_lines in
  (Forall (fun ln => forall v, ~ declares_length ln v) header_lines ->
   declared = 0%Z) /\
  (forall before ln value after,
      header_lines = (before ++ ln :: after)%list ->
      Forall (fun l => forall v, ~ declares_length l v) before ->
      declares_length ln value ->
      declared = match py_int (strip value) with
                 | Some n => n
                 | None => 0%Z
                 end) /\
  http_get decode s host port path =
    match read_body "" declared s2 with
    | (BodyRaised, s3) => (None, s3)
    | (BodyRead body, s3) => (Some (decode body), s3)
    end /\
  ((declared <= 0)%Z -> http_get decode s host port path = (Some "", s2)).
Proof.
  intros Hdec Hsend Hhdr Hsplit Hlines H200 declared.
  destruct (read_header_done _ _ _ Hhdr) as ((hb & Hhb) & _ & _).
  rewrite Hhb in Hsplit. injection Hsplit as <- <-.
  assert (Hget : http_get decode s host port path =
                 match read_body "" declared s2 with
                 | (BodyRaised, s3) => (None, s3)
                 | (BodyRead body, s3) => (Some (decode body), s3)
                 end).
  { unfold http_get. rewrite Hsend, Hhdr.
    unfold handle_response. rewrite Hhb, Hlines. cbn [hd tl].
    rewrite H200. cbn [negb String.length Z.of_nat].
    now rewrite Z.sub_0_r. }
  repeat split.
  - apply find_content_length_absent.
  - intros before ln value after -> Hbefore Hln.
    now apply find_content_length_first.
  - exact Hget.
  - intros Hle. rewrite Hget. unfold read_body.
    destruct (Z.to_nat declared) eqn:E; [|lia].
    cbn [read_body_loop].
    assert (Hgt : (declared >? 0)%Z = false)
      by (rewrite Z.gtb_ltb; apply Z.ltb_ge; lia).
    rewrite Hgt, Hdec. reflexivity.
Qed.

Lemma http_get_content_length_witness :
  http_get ascii_decode empty_body_socket "127.0.0.1" 5000 "/api/game/7" =
  (Some "",
   snd (read_header
          (snd (sendall (request_data "127.0.0.1" "/api/game/7")
                  empty_body_socket)))) /\
  (find_content_length Headers.mixed_case_lines = 5%Z /\
   fst (http_get ascii_decode Headers.mixed_case_socket "127.0.0.1" 5000
          "/api/game/7") = Some "hello") /\
  (find_content_length Headers.arabic_lines = 3%Z /\
   fst (http_get ascii_decode Headers.arabic_socket "127.0.0.1" 5000
          "/api/game/7") = Some "abc").
Proof.
  split; [|split].
  - refine (proj2 (proj2 (proj2
      (http_get_content_length ascii_decode empty_body_socket
         (snd (sendall (request_data "127.0.0.1" "/api/game/7")
                 empty_body_socket))
         (snd (read_header
                 (snd (sendall (request_data "127.0.0.1" "/api/game/7")
                         empty_body_socket))))
         "127.0.0.1" "/api/game/7" 5000
         (response "HTTP/1.1 200 OK"
            ["Content-Type: application/json"; "CONTENT-length: 0"] "")
         (join CRLF ["HTTP/1.1 200 OK"; "Content-Type: application/json";
                     "CONTENT-length: 0"])
         "" "HTTP/1.1 200 OK"
         ["Content-Type: application/json"; "CONTENT-length: 0"]
         _ _ _ _ _ _))) _);
      vm_compute; first [reflexivity | discriminate].
  - destruct
      (http_get_content_length ascii_decode Headers.mixed_case_socket
         (snd (sendall (request_data "127.0.0.1" "/api/game/7")
                 Headers.mixed_case_socket))
         (snd (read_header
                 (snd (sendall (request_data "127.0.0.1" "/api/game/7")
                         Headers.mixed_case_socket))))
         "127.0.0.1" "/api/game/7" 5000
         (join CRLF ("HTTP/1.1 200 OK" :: Headers.mixed_case_lines)
            ++ CRLFCRLF)
         (join CRLF ("HTTP/1.1 200 OK" :: Headers.mixed_case_lines))
         "" "HTTP/1.1 200 OK" Headers.mixed_case_lines)
      as (_ & Hfirst & Hget & _);
      try (vm_compute; reflexivity).
    split.
    + rewrite (Hfirst ["Content-Type: text/plain"] "cOnTeNt-LeNgTh: 5" " 5" []).
      * vm_compute. reflexivity.
      * reflexivity.
      * constructor; [|constructor]. intros v Hv.
        assert (E : startswith "content-length:"
                      (lower "Content-Type: text/plain") = true)
          by (apply declares_length_test; eauto).
        vm_compute in E. discriminate E.
      * exists "cOnTeNt-LeNgTh". split; reflexivity.
    + rewrite Hget. vm_compute. reflexivity.
  - destruct
      (http_get_content_length ascii_decode Headers.arabic_socket
         (snd (sendall (request_data "127.0.0.1" "/api/game/7")
                 Headers.arabic_socket))
         (snd (read_header
                 (snd (sendall (request_data "127.0.0.1" "/api/game/7")
                         Headers.arabic_socket))))
         "127.0.0.1" "/api/game/7" 5000
         (join CRLF ("HTTP/1.1 200 OK" :: Headers.arabic_lines) ++ CRLFCRLF)
         (join CRLF ("HTTP/1.1 200 OK" :: Headers.arabic_lines))
         "" "HTTP/1.1 200 OK" Headers.arabic_lines)
      as (_ & Hfirst & Hget & _);
      try (vm_compute; reflexivity).
    split.
    + rewrite (Hfirst [] ("Content-Length: " ++ Headers.arabic_three
                            ++ Headers.no_break_space)
                 (" " ++ Headers.arabic_three ++ Headers.no_break_space) []).
      * vm_compute. reflexivity.
      * reflexivity.
      * constructor.
      * exists "Content-Length". split; reflexivity.
    + rewrite Hget. vm_compute. reflexivity.
Defined.

End TransportClaims.

(** ** Dictionaries *)

Module DictFacts.

Section WithKey.
Context {K V : Type}.
Variable eqb : K -> K -> bool.
Hypothesis eqb_refl : forall k, eqb k k = true.

Lemma find_set_same (k : K) (v : V) (d : list (K * V)) :
  Dict.find eqb k (Dict.set eqb k v d) = Some v.
Proof.
  induction d as [|[k' v'] d IH]; simpl.
  - now rewrite eqb_refl.
  - destruct (eqb k' k) eqn:E; simpl; rewrite E; [reflexivity | exact IH].
Qed.

Lemma set_set (k : K) (v v' : V) (d : list (K * V)) :
  Dict.set eqb k v' (Dict.set eqb k v d) = Dict.set eqb k v' d.
Proof.
  induction d as [|[k' w] d IH]; simpl.
  - now rewrite eqb_refl.
  - destruct (eqb k' k) eqn:E; simpl; rewrite E; [reflexivity | now rewrite IH].
Qed.

Lemma find_In (k : K) (v : V) (d : list (K * V)) :
  Dict.find eqb k d = Some v -> exists k', In (k', v) d.
Proof.
  induction d as [|[k' w] d IH]; simpl; [discriminate|].
  destruct (eqb k' k).
  - intros H; injection H as ->. eauto.
  - intros H. destruct (IH H) as [k'' Hin]. eauto.
Qed.

Lemma set_Forall (P : K * V -> Prop) (k : K) (v : V) (d : list (K * V)) :
  (forall k', P (k', v)) -> Forall P d -> Forall P (Dict.set eqb k v d).
Proof.
  intros Hv; induction 1 as [|[k' w] d Hw Hd IH]; simpl.
  - constructor; [apply Hv | constructor].
  - destruct (eqb k' k); constructor; auto.
Qed.

(** A stored key keeps its place; a new key goes last. *)
Lemma set_keys (k : K) (v : V) (d : list (K * V)) :
  map fst (Dict.set eqb k v d) =
  if Dict.member eqb k d then map fst d else (map fst d ++ [k])%list.
Proof.
  unfold Dict.member.
  induction d as [|[k' w] d IH]; simpl; [reflexivity|].
  destruct (eqb k' k); simpl; [reflexivity|].
  rewrite IH. now destruct (Dict.find eqb k d).
Qed.

End WithKey.

End DictFacts.

(** ** Buckets *)

Module BucketFacts.
Import Socket Json PyNum Key Client DictFacts.

Lemma hkey_eqb_refl (k : hkey) : hkey_eqb k k = true.
Proof.
  destruct k as [|z|f|s]; simpl.
  - reflexivity.
  - apply Z.eqb_refl.
  - destruct f as [[]|[]| |[] m e]; simpl; try reflexivity;
      now rewrite Pos.eqb_refl, Z.eqb_refl.
  - apply String.eqb_refl.
Qed.

Section WithKey.
Context {K : Type}.
Variable eqb : K -> K -> bool.
Hypothesis eqb_refl : forall k, eqb k k = true.

(** One record: the bucket of its key, created if need be, gets one
    more in its count and the metric in its sum. *)
Lemma record_into_spec (k : K) (zero : number) (metric : json)
    (d d' : list (K * bucket)) :
  record_into eqb k zero metric d = Ok d' ->
  exists x t,
    as_number metric = Ok x /\
    add (total_before eqb zero k d) x = Ok t /\
    d' = Dict.set eqb k (mkBucket (count_before eqb k d + 1) t) d.
Proof.
  unfold record_into, modify, count_before, total_before, Dict.member.
  destruct (Dict.find eqb k d) as [b|] eqn:Hfind.
  - rewrite Hfind. cbn [bind bump_count].
    rewrite (find_set_same eqb eqb_refl). unfold add_total; cbn [bind count total].
    destruct (as_number metric) as [x|]; cbn [bind]; [|discriminate].
    destruct (add (total b) x) as [t|] eqn:Hadd; cbn [bind]; [|discriminate].
    rewrite (set_set eqb eqb_refl). intros H; injection H as <-. eauto.
  - rewrite (find_set_same eqb eqb_refl). cbn [bind bump_count].
    rewrite (find_set_same eqb eqb_refl). unfold add_total; cbn [bind count total].
    destruct (as_number metric) as [x|]; cbn [bind]; [|discriminate].
    destruct (add zero x) as [t|] eqn:Hadd; cbn [bind]; [|discriminate].
    rewrite !(set_set eqb eqb_refl). intros H; injection H as <-. eauto.
Qed.

(** Buckets stay in the order in which they were created. *)
Lemma record_into_keys (k : K) (zero : number) (metric : json)
    (d d' : list (K * bucket)) :
  record_into eqb k zero metric d = Ok d' ->
  map fst d' = if Dict.member eqb k d then map fst d else (map fst d ++ [k])%list.
Proof.
  intros H. apply record_into_spec in H as (x & t & _ & _ & ->).
  apply set_keys.
Qed.

Lemma record_into_counts (k : K) (zero : number) (metric : json)
    (d d' : list (K * bucket)) :
  Forall (fun kv => (1 <= count (snd kv))%Z) d ->
  record_into eqb k zero metric d = Ok d' ->
  Forall (fun kv => (1 <= count (snd kv))%Z) d'.
Proof.
  intros Hd H. apply record_into_spec in H as (x & t & _ & _ & ->).
  apply set_Forall; [|assumption].
  intros k'. cbn [snd count]. unfold count_before.
  destruct (Dict.find eqb k d) as [b|] eqn:Hfind; [|lia].
  apply find_In in Hfind as [k0 Hin].
  rewrite Forall_forall in Hd. specialize (Hd _ Hin). simpl in Hd. lia.
Qed.

End WithKey.

Lemma immortals_record_counts (info : json) (d d' : list (hkey * bucket)) :
  Forall (fun kv => (1 <= count (snd kv))%Z) d ->
  immortals_record info d = Ok d' ->
  Forall (fun kv => (1 <= count (snd kv))%Z) d'.
Proof.
  intros Hd. unfold immortals_record.
  destruct (get info "game_stats" (JObj [])) as [stats|]; cbn [bind]; [|discriminate].
  destruct (get stats "auth" (JStr "UnknownAuth")) as [auth|]; cbn [bind]; [|discriminate].
  destruct (get stats "ships_sunk" (JInt 0)) as [sunk|]; cbn [bind]; [|discriminate].
  destruct (key_of auth) as [k|]; cbn [bind]; [|discriminate].
  now apply record_into_counts; [apply hkey_eqb_refl|].
Qed.

Lemma top_meta_record_counts (info : json) (d d' : list (string * bucket)) :
  Forall (fun kv => (1 <= count (snd kv))%Z) d ->
  top_meta_record info d = Ok d' ->
  Forall (fun kv => (1 <= count (snd kv))%Z) d'.
Proof.
  intros Hd. unfold top_meta_record.
  destruct (get info "game_stats" (JObj [])) as [stats|]; cbn [bind]; [|discriminate].
  destruct (get stats "cannons" (JArr [])) as [cannons|]; cbn [bind]; [|discriminate].
  destruct (get stats "ships_escaped" (JInt 0)) as [escaped|]; cbn [bind]; [|discriminate].
  destruct (placement_of cannons) as [k|]; cbn [bind]; [|discriminate].
  now apply record_into_counts; [apply String.eqb_refl|].
Qed.

Lemma fold_records_invariant {D : Type} (P : D -> Prop)
    (step : json -> D -> result D) :
  (forall v d d', P d -> step v d = Ok d' -> P d') ->
  forall records d d', P d -> fold_records step records d = Ok d' -> P d'.
Proof.
  intros Hstep records; induction records as [|v records IH]; intros d d' Hd H;
    simpl in H.
  - now injection H as <-.
  - destruct (step v d) as [d1|] eqn:E; [|discriminate]. simpl in H.
    eapply IH; [|exact H]. eapply Hstep; eauto.
Qed.

Section WithLibraries.
Variable decode : string -> string.
Variable json_loads : string -> option json.
Variable py_str : json -> string.

(** The loop of an analysis folds its step over the present records. *)
Lemma fetch_loop_fold {D : Type} (step : json -> D -> result D)
    (host : string) (port : Z) (game_ids : list json) (buckets : D) (s : socket) :
  fst (fetch_loop decode json_loads py_str step host port game_ids buckets s) =
  fold_records step (present_records decode json_loads py_str host port game_ids s)
    buckets.
Proof.
  revert buckets s; induction game_ids as [|g rest IH]; intros buckets s;
    [reflexivity|].
  cbn [fetch_loop present_records].
  destruct (get_game_info decode json_loads py_str s host port g) as [info s1].
  destruct (present info) as [v|]; [|apply IH].
  cbn [fold_records bind].
  destruct (step v buckets) as [b|]; [apply IH | reflexivity].
Qed.

End WithLibraries.

End BucketFacts.

(** ** Claims about the record fetcher and the buckets *)

Module BucketClaims.
Import PyText Socket Transport Json PyNum Key Client Spec DictFacts BucketFacts
  Scenarios.

Section WithLibraries.
Variable decode : string -> string.
Variable json_loads : string -> option json.
Variable py_str : json -> string.
Variable sort_unordered :
  list (string * spec_float) -> list (string * spec_float).

Let get_game_info := get_game_info decode json_loads py_str.
Let fetch_loop {D : Type} := @fetch_loop decode json_loads py_str D.
Let analysis_immortals := analysis_immortals decode json_loads py_str.
Let analysis_top_meta :=
  analysis_top_meta decode json_loads py_str sort_unordered.
Let present_records := present_records decode json_loads py_str.

(** C10: when [http_get] answers a record lookup with the empty string
    (a 200 response with an empty body), [get_game_info] returns [None],
    whatever [json.loads] would make of the text, and either analysis
    goes on with the remaining identifiers and the buckets it had: the
    record adds to no bucket. *)
Theorem empty_body_record_is_absent (s s1 : socket) (host : string) (port : Z)
    (g_id : json) :
  http_get decode s host port ("/api/game/" ++ py_str g_id) = (Some "", s1) ->
  get_game_info s host port g_id = (None, s1) /\
  (forall (D : Type) (step : json -> D -> result D) rest (buckets : D),
      fetch_loop step host port (g_id :: rest) buckets s =
      fetch_loop step host port rest buckets s1) /\
  (forall rest,
      analysis_immortals s host port (g_id :: rest) =
      analysis_immortals s1 host port rest) /\
  (forall rest,
      analysis_top_meta s host port (g_id :: rest) =
      analysis_top_meta s1 host port rest).
Proof.
  intros Hget.
  assert (Hinfo : get_game_info s host port g_id = (None, s1)).
  { unfold get_game_info, Client.get_game_info. now rewrite Hget. }
  assert (Hloop : forall (D : Type) (step : json -> D -> result D) rest
                         (buckets : D),
             fetch_loop step host port (g_id :: rest) buckets s =
             fetch_loop step host port rest buckets s1).
  { intros D step rest buckets. unfold fetch_loop.
    cbn [Client.fetch_loop]. fold get_game_info. now rewrite Hinfo. }
  repeat split; [assumption | assumption | |]; intros rest.
  - unfold analysis_immortals, Client.analysis_immortals.
    fold (@fetch_loop (list (hkey * bucket))). now rewrite Hloop.
  - unfold analysis_top_meta, Client.analysis_top_meta.
    fold (@fetch_loop (list (string * bucket))). now rewrite Hloop.
Qed.

(** C8: in both variants every bucket the loop leaves has a count of at
    least 1, so that its mean is the quotient [s / c], never the value
    of the branch for a count of zero. *)
Theorem finalized_buckets_are_counted (s : socket) (host : string) (port : Z)
    (game_ids : list json) :
  (forall gas_data s',
      fetch_loop immortals_record host port game_ids [] s = (Ok gas_data, s') ->
      Forall (fun kv => (1 <= count (snd kv))%Z /\
                        mean (snd kv) = truediv_int (total (snd kv)) (count (snd kv)))
             gas_data) /\
  (forall placement_data s',
      fetch_loop top_meta_record host port game_ids [] s = (Ok placement_data, s') ->
      Forall (fun kv => (1 <= count (snd kv))%Z /\
                        mean (snd kv) = truediv_int (total (snd kv)) (count (snd kv)))
             placement_data).
Proof.
  assert (Hmean : forall (K : Type) (d : list (K * bucket)),
             Forall (fun kv => (1 <= count (snd kv))%Z) d ->
             Forall (fun kv => (1 <= count (snd kv))%Z /\
                        mean (snd kv) = truediv_int (total (snd kv)) (count (snd kv)))
                    d).
  { intros K d Hd. eapply Forall_impl; [|exact Hd].
    intros [k b] Hb; cbn [snd] in *. split; [assumption|].
    unfold mean. assert (E : (count b >? 0)%Z = true) by (apply Z.gtb_lt; lia).
    now rewrite E. }
  split; intros d s' Hrun; apply Hmean.
  - pose proof (fetch_loop_fold decode json_loads py_str immortals_record
                  host port game_ids [] s) as Hfold.
    fold (@fetch_loop (list (hkey * bucket))) in Hfold.
    rewrite Hrun in Hfold. symmetry in Hfold. cbn [fst] in Hfold.
    refine (fold_records_invariant _ _ immortals_record_counts _ _ _ _ Hfold).
    constructor.
  - pose proof (fetch_loop_fold decode json_loads py_str top_meta_record
                  host port game_ids [] s) as Hfold.
    fold (@fetch_loop (list (string * bucket))) in Hfold.
    rewrite Hrun in Hfold. symmetry in Hfold. cbn [fst] in Hfold.
    refine (fold_records_invariant _ _ top_meta_record_counts _ _ _ _ Hfold).
    constructor.
Qed.

Lemma immortals_record_sunk_by (auth : string) (k : Z) (record : json)
    (d : list (hkey * bucket)) :
  sunk_by auth k record ->
  immortals_record record d =
  record_into hkey_eqb (KStr auth) (NFloat (S754_zero false)) (JInt k) d.
Proof.
  intros (items & stats & -> & Hstats & Hauth & Hsunk).
  unfold immortals_record, get. rewrite Hstats. cbn [bind].
  rewrite Hauth, Hsunk. reflexivity.
Qed.

(** C9: when the present records are two, both of alice, one with 5 and
    one with 7 ships sunk, in either order, the output of
    [analysis_immortals] is the one line [alice,2,6.00]. *)
Theorem two_alice_records (s : socket) (host : string) (port : Z)
    (game_ids : list json) (first second : json) :
  present_records host port game_ids s = [first; second] ->
  (sunk_by "alice" 5 first /\ sunk_by "alice" 7 second) \/
  (sunk_by "alice" 7 first /\ sunk_by "alice" 5 second) ->
  fst (analysis_immortals s host port game_ids) = Ok ["alice,2,6.00"].
Proof.
  intros Hrecords Halice.
  unfold analysis_immortals, Client.analysis_immortals.
  pose proof (fetch_loop_fold decode json_loads py_str immortals_record
                host port game_ids [] s) as Hfold.
  destruct (Client.fetch_loop decode json_loads py_str immortals_record
              host port game_ids [] s) as [gas_data s1].
  cbn [fst] in *. subst gas_data.
  fold present_records. rewrite Hrecords. cbn [fold_records].
  destruct Halice as [[H1 H2] | [H1 H2]];
    rewrite (immortals_record_sunk_by _ _ _ _ H1);
    vm_compute record_into; cbn [bind];
    rewrite (immortals_record_sunk_by _ _ _ _ H2);
    vm_compute; reflexivity.
Qed.

End WithLibraries.

Lemma empty_body_record_is_absent_witness :
  get_game_info ascii_decode scenario_loads scenario_str empty_body_socket
    "127.0.0.1" 5000 (JInt 7) =
  (None,
   snd (http_get ascii_decode empty_body_socket "127.0.0.1" 5000 "/api/game/7")).
Proof.
  refine (proj1 (empty_body_record_is_absent ascii_decode scenario_loads
                   scenario_str (Cpython.sort_short by_mean_asc)
                   empty_body_socket _ "127.0.0.1" 5000 (JInt 7) _)).
  vm_compute. reflexivity.
Defined.

Lemma finalized_buckets_are_counted_witness :
  Forall (fun kv => (1 <= count (snd kv))%Z /\
                    mean (snd kv) = truediv_int (total (snd kv)) (count (snd kv)))
    [(KStr "bob", mkBucket 1 (NFloat (S754_finite false 5066549580791808 (-49))));
     (KStr "alice", mkBucket 2 (NFloat (S754_finite false 6755399441055744 (-49))));
     (KStr "carol", mkBucket 1 (NFloat (S754_finite false 4503599627370496 (-50))))].
Proof.
  refine (proj1 (finalized_buckets_are_counted ascii_decode scenario_loads
                   scenario_str immortals_socket "127.0.0.1" 5000
                   [JInt 1; JInt 2; JInt 3; JInt 4]) _ _ _).
  vm_compute. reflexivity.
Defined.

Lemma two_alice_records_witness :
  fst (analysis_immortals ascii_decode scenario_loads scenario_str alice_socket
         "127.0.0.1" 5000 [JInt 1; JInt 2]) = Ok ["alice,2,6.00"].
Proof.
  apply (two_alice_records ascii_decode scenario_loads scenario_str alice_socket
           "127.0.0.1" 5000 [JInt 1; JInt 2]
           (sunk_record "alice" 5) (sunk_record "alice" 7)).
  - vm_compute. reflexivity.
  - left. split.
    + exists [("game_id", JInt 1);
              ("game_stats", JObj [("auth", JStr "alice"); ("ships_sunk", JInt 5)])],
        [("auth", JStr "alice"); ("ships_sunk", JInt 5)].
      repeat split.
    + exists [("game_id", JInt 1);
              ("game_stats", JObj [("auth", JStr "alice"); ("ships_sunk", JInt 7)])],
        [("auth", JStr "alice"); ("ships_sunk", JInt 7)].
      repeat split.
Defined.

End BucketClaims.

(** ** The placement histogram *)

Module HistogramFacts.
Import PyText PyTextFacts Json PyNum Key Client Spec DictFacts BucketFacts.
Local Open Scope Z_scope.

Lemma float_same_eq (a b : spec_float) : float_same a b = true <-> a = b.
Proof.
  destruct a as [s1|s1| |s1 m1 e1], b as [s2|s2| |s2 m2 e2]; simpl;
    split; intros H; try discriminate; try reflexivity.
  - apply eqb_prop in H; now subst.
  - injection H as ->; apply eqb_reflx.
  - apply eqb_prop in H; now subst.
  - injection H as ->; apply eqb_reflx.
  - apply andb_true_iff in H as [H He]. apply andb_true_iff in H as [Hs Hm].
    apply eqb_prop in Hs. apply Pos.eqb_eq in Hm. apply Z.eqb_eq in He.
    now subst.
  - injection H as -> -> ->.
    now rewrite eqb_reflx, Pos.eqb_refl, Z.eqb_refl.
Qed.

(** Keys that compare equal are the same key. *)
Lemma hkey_eqb_eq (a b : hkey) : hkey_eqb a b = true <-> a = b.
Proof.
  destruct a, b; simpl; split; intros H; try discriminate; try reflexivity.
  - apply Z.eqb_eq in H; now subst.
  - injection H as ->; apply Z.eqb_refl.
  - apply float_same_eq in H; now subst.
  - injection H as ->; now apply float_same_eq.
  - apply String.eqb_eq in H; now subst.
  - injection H as ->; apply String.eqb_refl.
Qed.

Lemma find_set_other {V : Type} (k k' : hkey) (v : V) (d : list (hkey * V)) :
  hkey_eqb k' k = false ->
  Dict.find hkey_eqb k (Dict.set hkey_eqb k' v d) = Dict.find hkey_eqb k d.
Proof.
  intros Hne. induction d as [|[k0 v0] d IH]; simpl.
  - now rewrite Hne.
  - destruct (hkey_eqb k0 k') eqn:E; simpl.
    + apply hkey_eqb_eq in E; subst k0. now rewrite Hne.
    + now rewrite IH.
Qed.

Lemma length_filter_cons {A : Type} (p : A -> bool) (x : A) (l : list A) :
  Z.of_nat (List.length (filter p (x :: l))) =
  (if p x then 1 else 0) + Z.of_nat (List.length (filter p l)).
Proof. simpl. destruct (p x); simpl List.length; lia. Qed.

(** The counter of a row is the number of placements in that row. *)
Lemma count_rows_counted (cannons : list json) (r : Z) :
  forall row_counters row_counters',
    count_rows cannons row_counters = Ok row_counters' ->
    counted (KInt r) row_counters' =
    counted (KInt r) row_counters + placements_in_row cannons r.
Proof.
  unfold placements_in_row.
  induction cannons as [|cpos rest IH]; intros rc rc' H.
  - injection H as <-. simpl. lia.
  - rewrite length_filter_cons.
    assert (Hskip : placed_in r cpos = false ->
                    count_rows rest rc = Ok rc' ->
                    counted (KInt r) rc' =
                    counted (KInt r) rc
                    + ((if placed_in r cpos then 1 else 0)
                       + Z.of_nat (List.length (filter (placed_in r) rest)))).
    { intros E H'. rewrite E. rewrite (IH _ _ H'). lia. }
    destruct cpos as [| | | | |elems|]; try (now apply Hskip).
    destruct elems as [|row_idx [|second elems]]; try (now apply Hskip).
    cbn [count_rows] in H. cbn [placed_in].
    destruct (key_of row_idx) as [k|]; cbn [bind] in H; [|discriminate].
    rewrite (IH _ _ H). fold (counted k rc). unfold counted at 1.
    destruct (hkey_eqb k (KInt r)) eqn:E.
    + apply hkey_eqb_eq in E; subst k.
      rewrite (find_set_same hkey_eqb hkey_eqb_refl). lia.
    + rewrite (find_set_other _ _ _ _ E). fold (counted (KInt r) rc). lia.
Qed.

Lemma row_counts_placements (cannons : list json) (row_counters : list (hkey * Z)) :
  count_rows cannons [] = Ok row_counters ->
  row_counts row_counters = map (placements_in_row cannons) eight.
Proof.
  intros H. unfold row_counts, eight. apply map_ext. intros r.
  fold (counted (KInt r) row_counters).
  now rewrite (count_rows_counted _ r _ _ H).
Qed.

Lemma tally_cons (c : Z) (counts : list Z) (i : Z) :
  tally (c :: counts) i = (if clamp c =? i then 1 else 0) + tally counts i.
Proof. apply (length_filter_cons (fun c => clamp c =? i)). Qed.

Lemma clamp_cases (c : Z) :
  0 <= c ->
  c = 0 \/ c = 1 \/ c = 2 \/ c = 3 \/ c = 4 \/ c = 5 \/ c = 6 \/
  (7 <= c /\ clamp c = 7 /\ forall h, hist_step h c = bump 7 h).
Proof.
  intros Hc.
  destruct (Z.eq_dec c 0); [auto|]. destruct (Z.eq_dec c 1); [auto|].
  destruct (Z.eq_dec c 2); [auto 10|]. destruct (Z.eq_dec c 3); [auto 10|].
  destruct (Z.eq_dec c 4); [auto 10|]. destruct (Z.eq_dec c 5); [auto 10|].
  destruct (Z.eq_dec c 6); [auto 10|].
  do 7 right. repeat split; [lia | unfold clamp; lia |].
  intros h. unfold hist_step.
  destruct (Z.eq_dec c 7) as [->|]; [reflexivity|].
  assert (E : (c <=? 7) = false) by (apply Z.leb_gt; lia).
  now rewrite E, andb_false_r.
Qed.

(** The loop over the row counts leaves in each bin what it held plus
    the number of rows that fall into it. *)
Lemma fold_hist_step (counts : list Z) :
  Forall (fun c => 0 <= c) counts ->
  forall h0 h1 h2 h3 h4 h5 h6 h7,
    fold_left hist_step counts [h0; h1; h2; h3; h4; h5; h6; h7] =
    [h0 + tally counts 0; h1 + tally counts 1; h2 + tally counts 2;
     h3 + tally counts 3; h4 + tally counts 4; h5 + tally counts 5;
     h6 + tally counts 6; h7 + tally counts 7].
Proof.
  induction 1 as [|c counts Hc _ IH]; intros h0 h1 h2 h3 h4 h5 h6 h7.
  - unfold tally; simpl. now rewrite !Z.add_0_r.
  - cbn [fold_left]. rewrite !tally_cons.
    destruct (clamp_cases c Hc)
      as [->|[->|[->|[->|[->|[->|[->|(Hge & Hcl & Hstep)]]]]]]].
    1-7: cbv [hist_step bump Z.to_nat Pos.to_nat Pos.iter_op Nat.add andb
              Z.leb Z.compare Pos.compare Pos.compare_cont
              clamp Z.min Z.eqb Pos.eqb];
         rewrite IH; repeat (apply (f_equal2 (@cons Z)); [lia|]); reflexivity.
    rewrite Hstep, Hcl.
    cbv [bump Z.eqb Pos.eqb]. rewrite IH.
    repeat (apply (f_equal2 (@cons Z)); [lia|]); reflexivity.
Qed.

Lemma histogram_tally (counts : list Z) :
  Forall (fun c => 0 <= c) counts ->
  histogram counts = map (tally counts) eight.
Proof.
  intros H. unfold histogram. cbn [repeat].
  change (fold_left _ counts ?h) with (fold_left hist_step counts h).
  rewrite (fold_hist_step counts H). reflexivity.
Qed.

Lemma length_filter_map {A B : Type} (f : A -> B) (p : B -> bool) (l : list A) :
  List.length (filter p (map f l)) = List.length (filter (fun x => p (f x)) l).
Proof.
  induction l as [|x l IH]; simpl; [reflexivity|].
  destruct (p (f x)); simpl; now rewrite IH.
Qed.

(** The key the code derives is the histogram key of the
    specification. *)
Lemma placement_of_key (cannons : json) (elems : list json) (key : string) :
  iterate cannons = Ok elems ->
  placement_of cannons = Ok key ->
  key = histogram_key elems.
Proof.
  intros Hit. unfold placement_of. rewrite Hit. cbn [bind].
  destruct (count_rows elems []) as [rc|] eqn:Hrc; cbn [bind]; [|discriminate].
  intros H; injection H as <-.
  rewrite (row_counts_placements _ _ Hrc).
  rewrite histogram_tally.
  - unfold placement_str, histogram_key. rewrite map_map. f_equal.
    apply map_ext. intros i. f_equal. unfold tally, rows_in_bin.
    now rewrite length_filter_map.
  - apply Forall_forall. intros c Hin. apply in_map_iff in Hin as (r & <- & _).
    unfold placements_in_row. lia.
Qed.


Lemma clamp_range (c : Z) : 0 <= c -> 0 <= clamp c <= 7.
Proof. unfold clamp; lia. Qed.

(** Every row falls into exactly one bin. *)
Lemma bins_partition (g : Z -> Z) (rows : list Z) :
  (forall r, 0 <= g r <= 7) ->
  let n i := Z.of_nat (List.length (filter (fun r => g r =? i) rows)) in
  n 0 + n 1 + n 2 + n 3 + n 4 + n 5 + n 6 + n 7 = Z.of_nat (List.length rows).
Proof.
  intros Hg. cbv zeta. induction rows as [|r rows IH].
  - reflexivity.
  - rewrite !length_filter_cons. cbn [List.length]. rewrite Nat2Z.inj_succ.
    rewrite <- IH.
    assert (E : g r = 0 \/ g r = 1 \/ g r = 2 \/ g r = 3 \/ g r = 4 \/
                g r = 5 \/ g r = 6 \/ g r = 7) by (specialize (Hg r); lia).
    destruct E as [E|[E|[E|[E|[E|[E|[E|E]]]]]]]; rewrite E;
      cbv [Z.eqb Pos.eqb]; lia.
Qed.

Lemma rows_in_bin_total (cannons : list json) :
  rows_in_bin cannons 0 + rows_in_bin cannons 1 + rows_in_bin cannons 2
  + rows_in_bin cannons 3 + rows_in_bin cannons 4 + rows_in_bin cannons 5
  + rows_in_bin cannons 6 + rows_in_bin cannons 7 = 8.
Proof.
  apply (bins_partition (fun r => clamp (placements_in_row cannons r)) eight).
  intros r. apply clamp_range. unfold placements_in_row. lia.
Qed.

Lemma rows_in_bin_nonneg (cannons : list json) (i : Z) : 0 <= rows_in_bin cannons i.
Proof. unfold rows_in_bin. lia. Qed.

(** A number below ten prints as its digit. *)
Lemma str_of_Z_digit (d : Z) :
  0 <= d <= 9 ->
  str_of_Z d = String (ascii_of_nat (48 + Z.to_nat d)) "".
Proof.
  intros H.
  assert (E : d = 0 \/ d = 1 \/ d = 2 \/ d = 3 \/ d = 4 \/ d = 5 \/ d = 6 \/
              d = 7 \/ d = 8 \/ d = 9) by lia.
  destruct E as [E|[E|[E|[E|[E|[E|[E|[E|[E|E]]]]]]]]]; subst d; reflexivity.
Qed.

Lemma concat_cons (x : string) (l : list string) :
  String.concat "" (x :: l) = x ++ String.concat "" l.
Proof. destruct l; simpl; [now rewrite app_nil_r | reflexivity]. Qed.

(** The key of a list of digits, none above [top]: one character each,
    between '0' and the digit [top], with the digits as values. *)
Lemma digits_key (top : Z) (ds : list Z) :
  top <= 9 ->
  Forall (fun d => 0 <= d <= top) ds ->
  let key := String.concat "" (map str_of_Z ds) in
  String.length key = List.length ds /\
  digit_sum key = zsum ds /\
  chars_between "0" (ascii_of_nat (48 + Z.to_nat top)) key = true.
Proof.
  intros Htop Hds. cbv zeta.
  induction Hds as [|d ds Hd _ (IHlen & IHsum & IHchars)].
  - repeat split.
  - cbn [map]. rewrite concat_cons, str_of_Z_digit by lia.
    cbn [append String.length digit_sum chars_between List.length zsum fold_right].
    fold (zsum ds).
    rewrite !nat_ascii_embedding by lia.
    rewrite IHlen, IHsum, IHchars.
    repeat split; [lia|].
    cbn [nat_of_ascii]. change (nat_of_ascii "0") with 48%nat.
    rewrite andb_true_r. apply andb_true_iff.
    split; apply Nat.leb_le; lia.
Qed.

Lemma histogram_key_digits (cannons : list json) :
  histogram_key cannons =
  String.concat "" (map str_of_Z (map (rows_in_bin cannons) eight)).
Proof. unfold histogram_key. now rewrite map_map. Qed.

Lemma rows_in_bin_digits (cannons : list json) :
  Forall (fun d => 0 <= d <= 8) (map (rows_in_bin cannons) eight).
Proof.
  pose proof (rows_in_bin_total cannons).
  pose proof (rows_in_bin_nonneg cannons) as Hn.
  pose proof (Hn 0). pose proof (Hn 1). pose proof (Hn 2). pose proof (Hn 3).
  pose proof (Hn 4). pose proof (Hn 5). pose proof (Hn 6). pose proof (Hn 7).
  cbn [map eight]. repeat constructor; lia.
Qed.

End HistogramFacts.

(** ** Claims about the histogram key *)

Module HistogramClaims.
Import PyText Json Key Client Spec HistogramFacts.

(** C2 as stated fails: a record without cannons has all 8 rows in bin
    0, and its key starts with the digit 8. *)
Lemma placement_key_holds_an_8 :
  placement_of (JArr []) = Ok "80000000" /\
  chars_between "0" "7" "80000000" = false.
Proof. split; vm_compute; reflexivity. Qed.

(** C2, amended: the key derived from the cannons of a record is the
    histogram key of the specification (bin [i] holds the number of
    rows whose placement count, clamped to 7, is [i]), and each of its
    characters is a digit between '0' and '8'. *)
Theorem placement_key_digits (cannons : json) (elems : list json) (key : string) :
  iterate cannons = Ok elems ->
  placement_of cannons = Ok key ->
  key = histogram_key elems /\ chars_between "0" "8" key = true.
Proof.
  intros Hit Hkey. pose proof (placement_of_key _ _ _ Hit Hkey) as ->.
  split; [reflexivity|].
  rewrite histogram_key_digits.
  apply (digits_key 8); [lia | apply rows_in_bin_digits].
Qed.

Lemma placement_key_digits_witness :
  "70010000" = histogram_key [JArr [JInt 0; JInt 1]; JArr [JInt 0; JInt 4];
                              JArr [JBool false; JInt 2]; JStr "x"; JArr [JInt 5]]
  /\ chars_between "0" "8" "70010000" = true.
Proof.
  apply (placement_key_digits
           (JArr [JArr [JInt 0; JInt 1]; JArr [JInt 0; JInt 4];
                  JArr [JBool false; JInt 2]; JStr "x"; JArr [JInt 5]]));
    vm_compute; reflexivity.
Defined.

(** C4: the key derived from the cannons of a record has 8 characters,
    and the values of its digits add up to 8. *)
Theorem placement_key_length_and_sum (cannons : json) (key : string) :
  placement_of cannons = Ok key ->
  String.length key = 8 /\ digit_sum key = 8%Z.
Proof.
  intros Hkey.
  destruct (iterate cannons) as [elems|] eqn:Hit.
  - pose proof (placement_of_key _ _ _ Hit Hkey) as ->.
    rewrite histogram_key_digits.
    destruct (digits_key 8 _ ltac:(lia) (rows_in_bin_digits elems))
      as (Hlen & Hsum & _).
    rewrite Hlen, Hsum. split; [reflexivity|].
    cbn [map eight zsum fold_right].
    pose proof (rows_in_bin_total elems). lia.
  - unfold placement_of in Hkey. rewrite Hit in Hkey. discriminate.
Qed.

Lemma placement_key_length_and_sum_witness :
  String.length "62000000" = 8 /\ digit_sum "62000000" = 8%Z.
Proof.
  apply (placement_key_length_and_sum
           (JArr [JArr [JInt 2; JInt 0]; JArr [JInt 6; JInt 3]])).
  vm_compute. reflexivity.
Defined.

End HistogramClaims.

(** ** The stable sort *)

Module SortingFacts.
Import Sorting.

Section WithOrder.
Context {A : Type}.
Variable before : A -> A -> bool.

(** The elements the order is well behaved on (for [float] keys: those
    whose key is not NaN). *)
Variable good : A -> Prop.

Hypothesis before_asym :
  forall x y, good x -> good y -> before x y = true -> before y x = false.
Hypothesis before_negtrans :
  forall x y z, good x -> good y -> good z ->
    before y x = false -> before z y = false -> before z x = false.

Lemma insert_perm (x : A) (l : list A) : Permutation (x :: l) (insert before x l).
Proof.
  induction l as [|y l IH]; simpl; [reflexivity|].
  destruct (before y x); [|reflexivity].
  rewrite perm_swap. now apply perm_skip.
Qed.

Lemma stable_sort_perm (l : list A) : Permutation l (stable_sort before l).
Proof.
  induction l as [|x l IH]; simpl; [reflexivity|].
  rewrite <- insert_perm. now apply perm_skip.
Qed.





(** Elements none of which has to come before another keep the order
    they had. *)
Section Stable.
Variable class : A -> bool.
Hypothesis class_tied :
  forall x y, class x = true -> class y = true -> before y x = false.



End Stable.

End WithOrder.

End SortingFacts.

(** ** The order of [float]s *)

Module FloatFacts.
Import PyNum.





End FloatFacts.

(** ** Means of integer metrics *)

Module MeanFacts.
Import Json PyNum Key Client Spec DictFacts BucketFacts.
Local Open Scope Z_scope.










End MeanFacts.

(** ** Claims about the order of the output *)

Module OrderClaims.
Import PyText Socket Json PyNum Key Client Spec Sorting SortingFacts FloatFacts
  BucketFacts MeanFacts Scenarios.






Section WithLibraries.
Variable decode : string -> string.
Variable json_loads : string -> option json.
Variable py_str : json -> string.
Variable sort_unordered :
  list (string * spec_float) -> list (string * spec_float).

Let fetch_loop {D : Type} := @fetch_loop decode json_loads py_str D.
Let analysis_immortals := analysis_immortals decode json_loads py_str.
Let analysis_top_meta :=
  analysis_top_meta decode json_loads py_str sort_unordered.
Let present_records := present_records decode json_loads py_str.


End WithLibraries.



End OrderClaims.

(** ** The crawler *)

Module CrawlerFacts.
Import PyText Socket Transport Json Client Pages TransportFacts.
Local Open Scope Z_scope.

Lemma available_nonneg (pages : list page) : 0 <= available pages.
Proof.
  induction pages as [|[| |ids [|]] pages IH]; cbn [available]; lia.
Qed.

Lemma utf8_chars_nonempty (c : ascii) (s : string) : utf8_chars (String c s) <> [].
Proof.
  cbn [utf8_chars]. destruct (utf8_chars s); [discriminate|].
  destruct s; [discriminate|]. destruct (is_continuation _); discriminate.
Qed.

(** The inner loop stops at the cap. *)
Lemma append_upto_length (n : Z) (page_games game_ids : list json) :
  Z.of_nat (List.length game_ids) <= n ->
  Z.of_nat (List.length (append_upto n game_ids page_games)) =
  Z.min n (Z.of_nat (List.length game_ids) + Z.of_nat (List.length page_games)).
Proof.
  revert game_ids; induction page_games as [|g rest IH]; intros game_ids Hle;
    cbn [append_upto List.length].
  - lia.
  - destruct (Z.of_nat (List.length game_ids) <? n) eqn:E.
    + apply Z.ltb_lt in E. rewrite IH; rewrite List.length_app; cbn [List.length]; lia.
    + apply Z.ltb_ge in E. lia.
Qed.

Section WithLibraries.
Variable decode : string -> string.
Variable json_loads : string -> option json.

Let read_page := read_page json_loads.
Let fetch_page := fetch_page decode json_loads.
Let serves := serves decode json_loads.
Let crawl_loop := crawl_loop decode json_loads.
Let get_top_n_games := get_top_n_games decode json_loads.

Lemma read_page_ids (data : option string) (ids : list json) (more : bool) :
  read_page data = PageIds ids more -> ids <> [].
Proof.
  unfold read_page, Pages.read_page.
  destruct data as [text|]; [|discriminate].
  destruct (json_loads text) as [[| | | | | |items]|]; try discriminate.
  destruct (lookup "games" items) as [page_games|]; [|discriminate].
  destruct (negb (sized page_games)); [discriminate|].
  destruct (negb (truthy page_games)) eqn:Ht; [discriminate|].
  apply negb_false_iff in Ht.
  destruct page_games as [| | | |str|elems|fields]; try discriminate;
    cbn [iterate]; intros H; injection H as <- _.
  - destruct str; [discriminate|].
    intros E. apply map_eq_nil in E. now apply utf8_chars_nonempty in E.
  - destruct elems; [discriminate|]. discriminate.
  - destruct fields; [discriminate|]. discriminate.
Qed.

(** One turn of the loop, read through the page it fetches. *)
Lemma crawl_loop_step (fuel : nat) (host : string) (port : Z)
    (ranking_type : string) (n : Z) (game_ids : list json) (start : Z)
    (s : socket) :
  Z.of_nat (List.length game_ids) < n ->
  crawl_loop (S fuel) host port ranking_type n game_ids start s =
  match fetch_page host port ranking_type start s with
  | (PageStop, s1) => (Ok game_ids, s1)
  | (PageRaised, s1) => (Raised, s1)
  | (PageIds elems more, s1) =>
      if more
      then crawl_loop fuel host port ranking_type n
             (append_upto n game_ids elems) (start + limit) s1
      else (Ok (append_upto n game_ids elems), s1)
  end.
Proof.
  intros Hlt. apply Z.ltb_lt in Hlt.
  unfold crawl_loop, fetch_page, Pages.fetch_page. cbn [Client.crawl_loop].
  rewrite Hlt.
  destruct (http_get decode s host port (rank_path ranking_type start))
    as [[text|] s1]; [|reflexivity].
  unfold Pages.read_page.
  destruct (json_loads text) as [[| | | | | |items]|]; try reflexivity.
  destruct (lookup "games" items) as [page_games|]; [|reflexivity].
  destruct (negb (sized page_games)); [reflexivity|].
  destruct (negb (truthy page_games)); [reflexivity|].
  destruct (iterate page_games) as [elems|]; [|reflexivity].
  destruct (lookup "next" items) as [next|]; [|reflexivity].
  destruct (truthy next); reflexivity.
Qed.

Lemma crawl_loop_full (fuel : nat) (host : string) (port : Z)
    (ranking_type : string) (n : Z) (game_ids : list json) (start : Z)
    (s : socket) :
  n <= Z.of_nat (List.length game_ids) ->
  crawl_loop fuel host port ranking_type n game_ids start s = (Ok game_ids, s).
Proof.
  intros Hge. apply Z.ltb_ge in Hge.
  unfold crawl_loop. destruct fuel; cbn [Client.crawl_loop]; now rewrite Hge.
Qed.

Lemma fetch_page_ids (host : string) (port : Z) (ranking_type : string)
    (start : Z) (s s1 : socket) (ids : list json) (more : bool) :
  fetch_page host port ranking_type start s = (PageIds ids more, s1) ->
  ids <> [] /\ (S (pending (inbound s1)) <= pending (inbound s))%nat.
Proof.
  unfold fetch_page, Pages.fetch_page.
  destruct (http_get decode s host port (rank_path ranking_type start))
    as [data s2] eqn:Hget.
  intros H; injection H as Hpage <-. split.
  - now apply (read_page_ids data ids more).
  - destruct data as [text|]; [|discriminate].
    exact (http_get_consumes decode s s2 host port _ text Hget).
Qed.

(** After a page that goes on, fewer turns are needed. *)
Lemma append_upto_progress (n : Z) (game_ids elems : list json) (fuel : nat) :
  Z.of_nat (List.length game_ids) < n ->
  elems <> [] ->
  (Z.to_nat (n - Z.of_nat (List.length game_ids)) <= S fuel)%nat ->
  Z.of_nat (List.length (append_upto n game_ids elems)) <= n /\
  (Z.to_nat (n - Z.of_nat (List.length (append_upto n game_ids elems))) <= fuel)%nat.
Proof.
  intros Hlt Hne Hfuel.
  rewrite append_upto_length by lia.
  destruct elems; [contradiction|]. cbn [List.length]. lia.
Qed.

(** The fuel [get_top_n_games] gives is enough: more changes nothing. *)
Lemma crawl_loop_fuel (host : string) (port : Z) (ranking_type : string) (n : Z)
    (fuel fuel' : nat) :
  forall game_ids start s,
    (Z.to_nat (n - Z.of_nat (List.length game_ids)) <= fuel)%nat ->
    (Z.to_nat (n - Z.of_nat (List.length game_ids)) <= fuel')%nat ->
    crawl_loop fuel host port ranking_type n game_ids start s =
    crawl_loop fuel' host port ranking_type n game_ids start s.
Proof.
  revert fuel'; induction fuel as [|fuel IH]; intros fuel' game_ids start s H H'.
  - rewrite !crawl_loop_full by lia. reflexivity.
  - destruct (Z.lt_ge_cases (Z.of_nat (List.length game_ids)) n) as [Hlt|Hge];
      [|rewrite !crawl_loop_full by lia; reflexivity].
    destruct fuel' as [|fuel']; [lia|].
    rewrite !crawl_loop_step by assumption.
    destruct (fetch_page host port ranking_type start s) as [[| |elems more] s1]
      eqn:Hpage; try reflexivity.
    destruct more; [|reflexivity].
    apply fetch_page_ids in Hpage as [Hne _].
    apply IH; now apply append_upto_progress.
Qed.

(** Every socket serves a sequence of pages. *)
Lemma serves_total (host : string) (port : Z) (ranking_type : string)
    (s : socket) (start : Z) :
  exists pages, serves host port ranking_type s start pages.
Proof.
  remember (pending (inbound s)) as p eqn:Hp.
  revert s start Hp; induction p as [p IH] using lt_wf_ind; intros s start Hp.
  destruct (fetch_page host port ranking_type start s) as [pg s1] eqn:Hpage.
  destruct (goes_on pg) eqn:Hgo.
  - destruct pg as [| |ids [|]]; try discriminate.
    pose proof (fetch_page_ids _ _ _ _ _ _ _ _ Hpage) as [_ Hlt].
    destruct (IH (pending (inbound s1)) ltac:(lia) s1 (start + limit) eq_refl)
      as [rest Hrest].
    exists (PageIds ids true :: rest).
    eapply serves_more; eauto.
  - exists [pg]. eapply serves_last; eauto.
Qed.

(** The crawl collects the identifiers of the pages served, up to the
    cap. *)
Lemma crawl_loop_collects (host : string) (port : Z) (ranking_type : string)
    (n : Z) (s : socket) (start : Z) (pages : list page) :
  serves host port ranking_type s start pages ->
  forall fuel game_ids ids s',
    Z.of_nat (List.length game_ids) <= n ->
    (Z.to_nat (n - Z.of_nat (List.length game_ids)) <= fuel)%nat ->
    crawl_loop fuel host port ranking_type n game_ids start s = (Ok ids, s') ->
    Z.of_nat (List.length ids) =
    Z.min n (Z.of_nat (List.length game_ids) + available pages).
Proof.
  induction 1 as [s s1 start p Hpage Hgo | s s1 start p rest Hpage Hgo _ IH];
    intros fuel game_ids ids s' Hle Hfuel Hrun.
  - destruct (Z.lt_ge_cases (Z.of_nat (List.length game_ids)) n) as [Hlt|Hge].
    + destruct fuel as [|fuel]; [lia|].
      rewrite crawl_loop_step in Hrun by assumption;
      unfold fetch_page in Hrun; rewrite Hpage in Hrun.
      destruct p as [| |elems [|]]; try discriminate.
      * injection Hrun as <- _. cbn [available]. lia.
      * injection Hrun as <- _. cbn [available].
        rewrite append_upto_length; lia.
    + rewrite crawl_loop_full in Hrun by assumption. injection Hrun as <- _.
      pose proof (available_nonneg [p]). lia.
  - destruct p as [| |elems [|]]; try discriminate.
    pose proof (available_nonneg rest) as Hrest.
    destruct (Z.lt_ge_cases (Z.of_nat (List.length game_ids)) n) as [Hlt|Hge].
    + destruct fuel as [|fuel]; [lia|].
      rewrite crawl_loop_step in Hrun by assumption;
      unfold fetch_page in Hrun; rewrite Hpage in Hrun.
      pose proof (fetch_page_ids _ _ _ _ _ _ _ _ Hpage) as [Hne _].
      destruct (append_upto_progress n game_ids elems fuel Hlt Hne Hfuel)
        as [Hle' Hfuel'].
      rewrite (IH _ _ _ _ Hle' Hfuel' Hrun).
      rewrite append_upto_length by lia. cbn [available]. lia.
    + rewrite crawl_loop_full in Hrun by assumption. injection Hrun as <- _.
      cbn [available]. lia.
Qed.

(** The crawl returns unless a page makes it raise. *)
Lemma crawl_loop_returns (host : string) (port : Z) (ranking_type : string)
    (n : Z) (s : socket) (start : Z) (pages : list page) :
  serves host port ranking_type s start pages ->
  ~ In PageRaised pages ->
  forall fuel game_ids,
    (Z.to_nat (n - Z.of_nat (List.length game_ids)) <= fuel)%nat ->
    exists ids s',
      crawl_loop fuel host port ranking_type n game_ids start s = (Ok ids, s').
Proof.
  induction 1 as [s s1 start p Hpage Hgo | s s1 start p rest Hpage Hgo _ IH];
    intros Hsafe fuel game_ids Hfuel;
    (destruct (Z.lt_ge_cases (Z.of_nat (List.length game_ids)) n) as [Hlt|Hge];
     [|rewrite crawl_loop_full by assumption; eauto]);
    (destruct fuel as [|fuel]; [lia|]);
    rewrite crawl_loop_step by assumption; unfold fetch_page; rewrite Hpage.
  - destruct p as [| |elems [|]]; try discriminate; eauto.
    destruct Hsafe. now left.
  - destruct p as [| |elems [|]]; try discriminate.
    pose proof (fetch_page_ids _ _ _ _ _ _ _ _ Hpage) as [Hne _].
    apply IH.
    + intros Hin. apply Hsafe. now right.
    + now apply append_upto_progress.
Qed.

End WithLibraries.

End CrawlerFacts.

(** ** Claim about the crawler *)

Module CrawlerClaims.
Import PyText Socket Transport Json Client Pages CrawlerFacts Scenarios.
Local Open Scope Z_scope.

(** C3: for a cap [n] that is not negative and the pages the peer
    serves, a list [get_top_n_games] returns has
    [min n (available pages)] elements, hence no more than [n]; and it
    does return a list unless one of the pages makes it raise. *)
Theorem crawl_returns_min (decode : string -> string)
    (json_loads : string -> option json) (s : socket) (host : string)
    (port : Z) (ranking_type : string) (n : Z) (pages : list page) :
  0 <= n ->
  serves decode json_loads host port ranking_type s 1 pages ->
  (forall ids s',
      get_top_n_games decode json_loads s host port ranking_type n = (Ok ids, s') ->
      Z.of_nat (List.length ids) = Z.min n (available pages) /\
      Z.of_nat (List.length ids) <= n) /\
  (~ In PageRaised pages ->
   exists ids s',
     get_top_n_games decode json_loads s host port ranking_type n = (Ok ids, s')).
Proof.
  intros Hn Hpages. split.
  - intros ids s' Hrun.
    pose proof (crawl_loop_collects decode json_loads host port ranking_type n
                  s 1 pages Hpages (Z.to_nat n) [] ids s') as H.
    cbn [List.length Z.of_nat] in H. rewrite Z.sub_0_r, Z.add_0_l in H.
    specialize (H Hn (Nat.le_refl _) Hrun).
    split; [exact H | lia].
  - intros Hsafe.
    apply (crawl_loop_returns decode json_loads host port ranking_type n
             s 1 pages Hpages Hsafe (Z.to_nat n) []).
    cbn [List.length Z.of_nat]. rewrite Z.sub_0_r. apply Nat.le_refl.
Qed.

Lemma crawl_returns_min_witness :
  Z.of_nat (List.length [JInt 11; JInt 12; JInt 13; JInt 14]) =
  Z.min 4 (available [PageIds [JInt 11; JInt 12; JInt 13] true;
                      PageIds [JInt 14; JInt 15] false]) /\
  Z.of_nat (List.length [JInt 11; JInt 12; JInt 13; JInt 14]) <= 4.
Proof.
  refine (proj1 (crawl_returns_min ascii_decode scenario_loads ranking_socket
                   "127.0.0.1" 5000 "sunk" 4 _ _ _) _
            (snd (get_top_n_games ascii_decode scenario_loads ranking_socket
                    "127.0.0.1" 5000 "sunk" 4)) _).
  - lia.
  - eapply serves_more; [vm_compute; reflexivity | reflexivity |].
    eapply serves_last; [vm_compute; reflexivity | reflexivity].
  - vm_compute. reflexivity.
Defined.

End CrawlerClaims.

(** ** The server's pagination *)

Module ServerFacts.
Import PyText Json Client Server.
Local Open Scope Z_scope.

Section Slices.
Context {A : Type}.

Lemma iloc_length (df : list A) (a b : Z) :
  Z.of_nat (List.length (iloc df a b)) <=
  Z.max 0 (clip (Z.of_nat (List.length df)) b - clip (Z.of_nat (List.length df)) a).
Proof.
  unfold iloc. rewrite length_firstn. lia.
Qed.

Lemma paginate_df_length (df : list A) (limit start : Z) :
  0 <= limit ->
  Z.of_nat (List.length (paginate_df df limit start)) <= limit.
Proof.
  intros Hl. unfold paginate_df.
  destruct (start - 1 >=? Z.of_nat (List.length df)).
  - pose proof (iloc_length df 0 0) as H. lia.
  - pose proof (iloc_length df (start - 1) (start - 1 + limit)) as H.
    unfold clip in H.
    destruct (start - 1 + limit <? 0) eqn:E1, (start - 1 <? 0) eqn:E2;
      lia.
Qed.

(** X1: a page never holds more than [limit] rows, wherever it starts,
    a [start] of zero or less included. *)
Theorem paginate_df_at_most_limit (df : list A) (limit start : Z) :
  0 <= limit ->
  Z.of_nat (List.length (paginate_df df limit start)) <= limit.
Proof. apply paginate_df_length. Qed.

Lemma firstn_beyond (n m : nat) (l : list A) :
  (List.length l <= n)%nat -> (List.length l <= m)%nat -> firstn n l = firstn m l.
Proof. intros Hn Hm. now rewrite !firstn_all2. Qed.

(** A page that starts at a positive position holds the [limit] rows
    from that position on, or those that are left. *)
Lemma paginate_df_from (df : list A) (limit start : Z) :
  1 <= start -> 0 <= limit ->
  paginate_df df limit start =
  firstn (Z.to_nat limit) (skipn (Z.to_nat (start - 1)) df).
Proof.
  intros Hs Hl. unfold paginate_df.
  destruct (start - 1 >=? Z.of_nat (List.length df)) eqn:E.
  - rewrite Z.geb_leb in E. apply Z.leb_le in E.
    rewrite skipn_all2 by lia. rewrite firstn_nil.
    pose proof (iloc_length df 0 0) as H.
    destruct (iloc df 0 0); [reflexivity | simpl in H; lia].
  - rewrite Z.geb_leb in E. apply Z.leb_gt in E.
    assert (Hlt : start - 1 < Z.of_nat (List.length df)) by lia.
    unfold iloc, clip.
    assert (E1 : (start - 1 <? 0) = false) by lia.
    assert (E2 : (start - 1 + limit <? 0) = false) by lia.
    rewrite E1, E2.
    replace (Z.min (start - 1) (Z.of_nat (List.length df))) with (start - 1) by lia.
    destruct (Z.le_gt_cases (start - 1 + limit) (Z.of_nat (List.length df))).
    + f_equal. lia.
    + apply firstn_beyond; rewrite length_skipn; lia.
Qed.

Lemma firstn_plus (a b : nat) (l : list A) :
  firstn (a + b) l = (firstn a l ++ firstn b (skipn a l))%list.
Proof.
  revert l; induction a as [|a IH]; intros l; [reflexivity|].
  destruct l as [|x l]; simpl; [now rewrite firstn_nil | now rewrite IH].
Qed.

(** X2: the pages that start at 1, 1 + limit, 1 + 2 limit, ... tile the
    frame: the first [k] of them, put end to end, are its first
    [k * limit] rows. *)
Theorem pages_tile (df : list A) (limit : Z) (k : nat) :
  0 <= limit ->
  List.concat
    (map (fun i => paginate_df df limit (1 + Z.of_nat i * limit)) (seq 0 k)) =
  firstn (k * Z.to_nat limit) df.
Proof.
  intros Hl. induction k as [|k IH]; [reflexivity|].
  rewrite seq_S, map_app, concat_app, IH. cbn [map List.concat Nat.add].
  rewrite List.app_nil_r, paginate_df_from by lia.
  replace (1 + Z.of_nat k * limit - 1) with (Z.of_nat k * limit) by lia.
  rewrite Z2Nat.inj_mul, Nat2Z.id by lia.
  replace (S k * Z.to_nat limit)%nat with (k * Z.to_nat limit + Z.to_nat limit)%nat
    by (simpl; lia).
  now rewrite firstn_plus.
Qed.

(** X3: the [next] link is absent exactly when the page it would point
    to is empty. *)
Theorem next_link_iff_more (ranking_type : string) (df : list A)
    (limit start : Z) :
  1 <= limit -> 1 <= start ->
  snd (build_pagination_links ranking_type limit start
         (Z.of_nat (List.length df))) = None <->
  paginate_df df limit (start + limit) = [].
Proof.
  intros Hl Hs. unfold build_pagination_links. cbn [snd].
  rewrite paginate_df_from by lia.
  destruct (start + limit >? Z.of_nat (List.length df)) eqn:E;
    rewrite Z.gtb_ltb in E;
    [apply Z.ltb_lt in E | apply Z.ltb_ge in E]; split;
    intros H; try reflexivity; try discriminate.
  - rewrite skipn_all2 by lia. apply firstn_nil.
  - exfalso.
    assert (Hlen : (Z.to_nat (start + limit - 1) < List.length df)%nat) by lia.
    apply (f_equal (@List.length A)) in H.
    rewrite length_firstn, length_skipn in H. simpl in H. lia.
Qed.

End Slices.

End ServerFacts.

(** ** What the crawler collects *)

Module CrawlFacts.
Import PyText Socket Transport Json Client Pages Crawl CrawlerFacts.
Local Open Scope Z_scope.

Lemma append_upto_firstn (n : Z) (page_games game_ids : list json) :
  Z.of_nat (List.length game_ids) <= n ->
  append_upto n game_ids page_games =
  (game_ids
     ++ firstn (Z.to_nat (n - Z.of_nat (List.length game_ids))) page_games)%list.
Proof.
  revert game_ids; induction page_games as [|g rest IH]; intros game_ids Hle;
    cbn [append_upto].
  - now rewrite firstn_nil, List.app_nil_r.
  - destruct (Z.of_nat (List.length game_ids) <? n) eqn:E.
    + apply Z.ltb_lt in E. rewrite IH by (rewrite List.length_app; simpl; lia).
      rewrite List.length_app. cbn [List.length].
      replace (Z.to_nat (n - Z.of_nat (List.length game_ids)))
        with (S (Z.to_nat (n - Z.of_nat (List.length game_ids + 1)))) by lia.
      cbn [firstn]. now rewrite <- List.app_assoc.
    + apply Z.ltb_ge in E.
      replace (Z.to_nat (n - Z.of_nat (List.length game_ids))) with O by lia.
      now rewrite List.app_nil_r.
Qed.

Section WithLibraries.
Variable decode : string -> string.
Variable json_loads : string -> option json.

Lemma crawl_loop_prefix (host : string) (port : Z) (ranking_type : string)
    (n : Z) (s : socket) (start : Z) (pages : list page) :
  serves decode json_loads host port ranking_type s start pages ->
  forall fuel game_ids ids s',
    Z.of_nat (List.length game_ids) <= n ->
    (Z.to_nat (n - Z.of_nat (List.length game_ids)) <= fuel)%nat ->
    crawl_loop decode json_loads fuel host port ranking_type n game_ids start s
    = (Ok ids, s') ->
    ids = (game_ids
             ++ firstn (Z.to_nat (n - Z.of_nat (List.length game_ids)))
                  (collected pages))%list.
Proof.
  induction 1 as [s s1 start p Hpage Hgo | s s1 start p rest Hpage Hgo _ IH];
    intros fuel game_ids ids s' Hle Hfuel Hrun;
    (destruct (Z.lt_ge_cases (Z.of_nat (List.length game_ids)) n) as [Hlt|Hge];
     [|rewrite crawl_loop_full in Hrun by assumption; injection Hrun as <- _;
       replace (Z.to_nat (n - Z.of_nat (List.length game_ids))) with O by lia;
       now rewrite List.app_nil_r]);
    (destruct fuel as [|fuel]; [lia|]);
    rewrite crawl_loop_step in Hrun by assumption;
    rewrite Hpage in Hrun.
  - destruct p as [| |elems [|]]; try discriminate; injection Hrun as <- _;
      cbn [collected].
    + now rewrite firstn_nil, List.app_nil_r.
    + now apply append_upto_firstn.
  - destruct p as [| |elems [|]]; try discriminate.
    pose proof (fetch_page_ids _ _ _ _ _ _ _ _ _ _ Hpage) as [Hne _].
    destruct (append_upto_progress n game_ids elems fuel Hlt Hne Hfuel)
      as [Hle' Hfuel'].
    rewrite (IH _ _ _ _ Hle' Hfuel' Hrun). cbn [collected].
    rewrite append_upto_length by lia.
    rewrite append_upto_firstn by lia.
    rewrite firstn_app, <- List.app_assoc. f_equal. f_equal.
    f_equal. lia.
Qed.

(** X4: the list [get_top_n_games] returns is made of the first [n]
    identifiers of the pages served, in their order. *)
Theorem crawl_returns_prefix (s s' : socket) (host : string) (port : Z)
    (ranking_type : string) (n : Z) (pages : list page) (ids : list json) :
  0 <= n ->
  serves decode json_loads host port ranking_type s 1 pages ->
  get_top_n_games decode json_loads s host port ranking_type n = (Ok ids, s') ->
  ids = firstn (Z.to_nat n) (collected pages).
Proof.
  intros Hn Hpages Hrun.
  pose proof (crawl_loop_prefix host port ranking_type n s 1 pages Hpages
                (Z.to_nat n) [] ids s') as H.
  cbn [List.length Z.of_nat app] in H. rewrite Z.sub_0_r in H.
  exact (H Hn (Nat.le_refl _) Hrun).
Qed.

End WithLibraries.

End CrawlFacts.

(** ** The crawler against the server *)

Module EndToEndFacts.
Import PyText Socket Transport Json Client Pages Crawl Server ServerFacts
  CrawlerFacts CrawlFacts.
Local Open Scope Z_scope.

(** How the crawler reads an answer of the ranking endpoint. *)
Lemma payload_page_rank (ranking_type : string) (df : list Z) (limit start : Z) :
  payload_page (rank_payload ranking_type df limit start) =
  match paginate_df df limit start with
  | [] => PageStop
  | ids => PageIds (map JInt ids) (negb (start + limit >? Z.of_nat (List.length df)))
  end.
Proof.
  unfold rank_payload, build_pagination_links.
  destruct (start - limit <? 1);
    destruct (start + limit >? Z.of_nat (List.length df));
    destruct (paginate_df df limit start); reflexivity.
Qed.

Lemma read_page_payload (json_loads : string -> option json) (text : string)
    (payload : json) :
  json_loads text = Some payload ->
  read_page json_loads (Some text) = payload_page payload.
Proof.
  intros H. unfold read_page, payload_page. rewrite H.
  destruct payload; reflexivity.
Qed.

Lemma server_pages_collected (ranking_type : string) (df : list Z) :
  forall fuel off,
    (List.length df - off <= fuel)%nat ->
    collected (server_pages fuel ranking_type df (1 + Z.of_nat off)) =
    map JInt (skipn off df) /\
    ~ In PageRaised (server_pages fuel ranking_type df (1 + Z.of_nat off)).
Proof.
  induction fuel as [|fuel IH]; intros off Hfuel.
  - cbn [server_pages]. rewrite payload_page_rank, paginate_df_from by (unfold limit; lia).
    replace (Z.to_nat (1 + Z.of_nat off - 1)) with off by lia.
    rewrite !skipn_all2 by lia. rewrite firstn_nil. cbn.
    split; [reflexivity | intros [H|[]]; discriminate H].
  - cbn [server_pages]. rewrite payload_page_rank.
    rewrite paginate_df_from by (unfold limit; lia).
    replace (Z.to_nat (1 + Z.of_nat off - 1)) with off by lia.
    destruct (firstn (Z.to_nat limit) (skipn off df)) as [|x ids] eqn:Hpage.
    + cbn. split; [|intros [H|[]]; discriminate H].
      destruct (skipn off df); [reflexivity | discriminate].
    + destruct (1 + Z.of_nat off + limit >? Z.of_nat (List.length df)) eqn:E;
        rewrite Z.gtb_ltb in E;
        [apply Z.ltb_lt in E | apply Z.ltb_ge in E]; cbn [negb goes_on].
      * cbn [collected]. split; [|intros [H|[]]; discriminate H].
        rewrite <- Hpage. rewrite firstn_all2; [reflexivity|].
        rewrite length_skipn. unfold limit in *. lia.
      * replace (1 + Z.of_nat off + limit) with (1 + Z.of_nat (off + 50))
          by (unfold limit; lia).
        destruct (IH (off + 50)%nat ltac:(unfold limit in *; lia)) as [Hc Hsafe].
        cbn [collected]. rewrite Hc, <- Hpage. split.
        -- rewrite <- map_app. f_equal.
           change (Z.to_nat limit) with 50%nat.
           etransitivity; [|apply (firstn_skipn 50)].
           f_equal. rewrite skipn_skipn. f_equal. lia.
        -- cbn [In]. intros [Hd|Hin]; [discriminate | now apply Hsafe].
Qed.

Section WithLibraries.
Variable decode : string -> string.
Variable json_loads : string -> option json.

(** X5: when the peer serves the pages of the server's ranking endpoint
    for a frame [df], [get_top_n_games] returns, and what it returns
    are the first [n] identifiers of the frame, in its order. *)
Theorem crawl_of_server_ranking (s : socket) (host : string) (port : Z)
    (ranking_type : string) (n : Z) (df : list Z) :
  0 <= n ->
  serves decode json_loads host port ranking_type s 1
    (server_pages (List.length df) ranking_type df 1) ->
  exists s',
    get_top_n_games decode json_loads s host port ranking_type n =
    (Ok (map JInt (firstn (Z.to_nat n) df)), s').
Proof.
  intros Hn Hserves.
  destruct (server_pages_collected ranking_type df (List.length df) 0
              ltac:(lia)) as [Hc Hsafe].
  cbn [Z.of_nat skipn] in Hc, Hsafe. rewrite Z.add_0_r in Hc, Hsafe.
  destruct (crawl_loop_returns decode json_loads host port ranking_type n s 1
              _ Hserves Hsafe (Z.to_nat n) [] ltac:(simpl; lia))
    as (ids & s' & Hrun).
  fold (get_top_n_games decode json_loads s host port ranking_type n) in Hrun.
  exists s'. rewrite Hrun. f_equal. f_equal.
  pose proof (crawl_loop_prefix decode json_loads host port ranking_type n s 1
                _ Hserves (Z.to_nat n) [] ids s') as Hprefix.
  cbn [List.length Z.of_nat app] in Hprefix. rewrite Z.sub_0_r in Hprefix.
  rewrite (Hprefix Hn (Nat.le_refl _) Hrun).
  rewrite Hc. now rewrite firstn_map.
Qed.

End WithLibraries.

End EndToEndFacts.

(** ** The links and the endpoint of the server *)

Module ServerLinkFacts.
Import PyText Json Client Server ServerFacts.
Local Open Scope Z_scope.


(** X7: a ranking endpoint answers 200 exactly when both parameters read
    as integers and [limit] is between 1 and 50, and 400 otherwise; an
    answer of 200 lists at most [limit] identifiers, hence at most
    50. *)
Theorem get_rank_status (ranking_type : string) (df : list Z)
    (args : list (string * string)) :
  (snd (get_rank ranking_type df args) = 200 \/
   snd (get_rank ranking_type df args) = 400) /\
  (snd (get_rank ranking_type df args) = 200 <->
   exists limit start,
     int_arg args "limit" 10 = Some limit /\
     int_arg args "start" 1 = Some start /\
     1 <= limit <= 50) /\
  (snd (get_rank ranking_type df args) = 200 ->
   exists limit ids,
     int_arg args "limit" 10 = Some limit /\
     get (fst (get_rank ranking_type df args)) "games" JNull
       = Ok (JArr (map JInt ids)) /\
     Z.of_nat (List.length ids) <= limit <= 50).
Proof.
  unfold get_rank.
  destruct (int_arg args "limit" 10) as [limit|];
    [destruct (int_arg args "start" 1) as [start|]|].
  - destruct ((limit <? 1) || (limit >? 50)) eqn:E.
    + cbn [snd fst]. repeat split; auto; try discriminate.
      intros (l & st & Hl & _ & Hr). injection Hl as <-.
      apply orb_true_iff in E as [E|E]; [|rewrite Z.gtb_ltb in E]; lia.
    + apply orb_false_iff in E as [E1 E2]. rewrite Z.gtb_ltb in E2.
      cbn [snd fst]. repeat split; auto.
      * intros _. exists limit, start. repeat split; lia.
      * intros _. exists limit, (paginate_df df limit start).
        split; [reflexivity|]. split.
        -- unfold rank_payload, build_pagination_links.
           destruct (start - limit <? 1);
             destruct (start + limit >? Z.of_nat (List.length df)); reflexivity.
        -- split; [apply paginate_df_length|]; lia.
  - cbn [snd fst]. repeat split; auto; try discriminate.
    intros (l & st & _ & Hst & _). discriminate.
  - cbn [snd fst]. repeat split; auto; try discriminate.
    intros (l & st & Hl & _). discriminate.
Qed.

End ServerLinkFacts.
(** ** Framing: the stream and the responses in it *)

Module FramingFacts.
Import PyText PyTextFacts Socket Transport Stream TransportFacts.

Lemma take_drop (n : nat) (s : string) : take n s ++ drop n s = s.
Proof.
  revert s; induction n as [|n IH]; intros [|c s]; simpl; try reflexivity.
  now rewrite IH.
Qed.

Lemma str_app_assoc (x y z : string) : (x ++ y) ++ z = x ++ (y ++ z).
Proof. induction x as [|c x IH]; simpl; [reflexivity | now rewrite IH]. Qed.

Lemma split_first_sound (sep s before after : string) :
  split_first sep s = Some (before, after) -> s = before ++ sep ++ after.
Proof.
  revert before; induction s as [|c s IH]; intros before H;
    rewrite split_first_unfold in H.
  - destruct (startswith sep "") eqn:E; [|discriminate].
    apply startswith_nil_r in E; subst sep. now injection H as <- <-.
  - destruct (startswith sep (String c s)) eqn:E.
    + injection H as <- <-. cbn [append].
      clear IH. revert E. generalize (String c s) as t. clear.
      induction sep as [|a sep IH]; intros t E; [reflexivity|].
      destruct t as [|b t]; [discriminate|]. simpl in E.
      apply andb_true_iff in E as [Hab E]. apply Ascii.eqb_eq in Hab; subst.
      simpl. f_equal. now apply IH.
    + destruct (split_first sep s) as [[b a]|]; [|discriminate].
      injection H as <- <-. cbn [append]. f_equal. now apply IH.
Qed.

Lemma startswith_app_l (sep x y : string) :
  startswith sep x = true -> startswith sep (x ++ y) = true.
Proof.
  revert x; induction sep as [|a sep IH]; intros x H; [reflexivity|].
  destruct x as [|b x]; [discriminate|]. simpl in *.
  apply andb_true_iff in H as [Hab H]. rewrite Hab. simpl. now apply IH.
Qed.

Lemma startswith_length (sep x : string) :
  startswith sep x = true -> String.length sep <= String.length x.
Proof.
  revert x; induction sep as [|a sep IH]; intros x H; simpl; [lia|].
  destruct x as [|b x]; [discriminate|]. simpl in *.
  apply andb_true_iff in H as [_ H]. apply IH in H. lia.
Qed.

Lemma startswith_app_false (sep x y : string) :
  startswith sep x = false -> String.length sep <= String.length x ->
  startswith sep (x ++ y) = false.
Proof.
  revert x; induction sep as [|a sep IH]; intros x H Hlen; [discriminate|].
  destruct x as [|b x]; [simpl in Hlen; lia|]. simpl in *.
  destruct (Ascii.eqb a b); [|reflexivity]. simpl in *.
  apply IH; [assumption | lia].
Qed.

Lemma drop_app (n : nat) (x y : string) :
  n <= String.length x -> drop n (x ++ y) = drop n x ++ y.
Proof.
  revert x; induction n as [|n IH]; intros x H; [reflexivity|].
  destruct x as [|c x]; [simpl in H; lia|]. simpl. apply IH. simpl in H. lia.
Qed.

(** What follows the first occurrence of a separator grows with the
    text. *)
Lemma split_first_app (sep x y before after : string) :
  split_first sep x = Some (before, after) ->
  split_first sep (x ++ y) = Some (before, after ++ y).
Proof.
  revert before; induction x as [|c x IH]; intros before H;
    rewrite split_first_unfold in H; rewrite split_first_unfold.
  - destruct (startswith sep "") eqn:E; [|discriminate].
    apply startswith_nil_r in E; subst sep. injection H as <- <-.
    reflexivity.
  - destruct (startswith sep (String c x)) eqn:E.
    + injection H as <- <-.
      rewrite (startswith_app_l _ _ y E).
      rewrite drop_app by now apply startswith_length. reflexivity.
    + destruct (split_first sep x) as [[b a]|] eqn:Hx; [|discriminate].
      injection H as <- <-.
      assert (Hlen : String.length sep <= String.length (String c x)).
      { apply split_first_sound in Hx. subst x. simpl.
        rewrite !length_app. lia. }
      rewrite (startswith_app_false _ _ y E Hlen).
      cbn [append]. now rewrite (IH b eq_refl).
Qed.

Lemma contains_app (sep x y : string) :
  contains sep x = true -> contains sep (x ++ y) = true.
Proof.
  unfold contains.
  destruct (split_first sep x) as [[b a]|] eqn:E; [|discriminate].
  now rewrite (split_first_app _ _ y _ _ E).
Qed.

(** A chunk that starts a text and is no longer than its first part. *)
Lemma app_prefix (x y chunk z : string) :
  x ++ y = chunk ++ z -> String.length chunk <= String.length x ->
  exists x', x = chunk ++ x' /\ z = x' ++ y.
Proof.
  revert x; induction chunk as [|c chunk IH]; intros x H Hlen.
  - exists x. simpl in H. auto.
  - destruct x as [|a x]; [simpl in Hlen; lia|].
    simpl in H. injection H as -> H.
    destruct (IH x H ltac:(simpl in Hlen; lia)) as (x' & -> & ->).
    now exists x'.
Qed.

(** [recv] on a stream whose next segments hold bytes: a chunk that is
    not empty, taken from the front. *)
Lemma recv_from_segments (n : nat) (later : list event) :
  forall (segs : list string) (c : ascii) (t : string),
    1 <= n ->
    segments segs = String c t ->
    exists chunk segs',
      recv_from n (map Data segs ++ later) = (Chunk chunk, (map Data segs' ++ later)%list) /\
      chunk <> "" /\
      String.length chunk <= n /\
      segments segs = chunk ++ segments segs'.
Proof.
  unfold segments.
  induction segs as [|seg segs IH]; intros c t Hn H; [discriminate|].
  destruct seg as [|a seg].
  - cbn [map app recv_from bytes_of append] in *.
    destruct (IH c t Hn H) as (chunk & segs' & Hr & Hne & Hlen & Hb).
    now exists chunk, segs'.
  - cbn [map app recv_from].
    destruct n as [|n]; [lia|].
    exists (take (S n) (String a seg)).
    destruct (drop (S n) (String a seg)) as [|d rest] eqn:Hd.
    + exists segs. repeat split.
      * discriminate.
      * apply take_length.
      * cbn [map bytes_of].
        rewrite <- (take_drop (S n) (String a seg)) at 1. rewrite Hd.
        now rewrite app_nil_r.
    + exists (String d rest :: segs). repeat split.
      * discriminate.
      * apply take_length.
      * cbn [map bytes_of].
        rewrite <- (take_drop (S n) (String a seg)) at 1. rewrite Hd.
        now rewrite str_app_assoc.
Qed.

Lemma sendall_inbound (data : string) (s s1 : socket) (ok : bool) :
  sendall data s = (ok, s1) -> inbound s1 = inbound s.
Proof.
  unfold sendall. destruct (send_script s); intros H; inversion H; reflexivity.
Qed.

(** The header loop on a stream that holds a blank line: it stops right
    after the first one. *)
Lemma read_header_loop_segments (later : list event) :
  forall (stream : string) (segs : list string) (acc : string) (fuel : nat)
         (s : socket) (head tail : string),
    inbound s = (map Data segs ++ later)%list ->
    segments segs = stream ->
    contains CRLFCRLF acc = false ->
    split_first CRLFCRLF (acc ++ stream) = Some (head, tail) ->
    String.length stream < fuel ->
    exists s' segs',
      read_header_loop fuel acc s = (Some (head ++ CRLFCRLF), s') /\
      inbound s' = (map Data segs' ++ later)%list /\
      segments segs' = tail /\
      send_script s' = send_script s.
Proof.
  induction stream as [|c t IH];
    intros segs acc fuel s head tail Hin Hsegs Hacc Hsplit Hfuel.
  - rewrite app_nil_r in Hsplit. unfold contains in Hacc.
    now rewrite Hsplit in Hacc.
  - destruct fuel as [|fuel]; [lia|]. cbn [read_header_loop].
    destruct (recv_from_segments 1 later segs c t (Nat.le_refl 1) Hsegs)
      as (chunk & segs1 & Hrecv & Hne & Hlen & Hbytes).
    unfold recv. rewrite Hin, Hrecv.
    destruct chunk as [|c' chunk]; [contradiction|].
    destruct chunk; [|simpl in Hlen; lia].
    rewrite Hsegs in Hbytes. simpl in Hbytes. injection Hbytes as <- Ht.
    set (s1 := mkSocket (map Data segs1 ++ later) (send_script s)
                 (calls s ++ [CallRecv 1])).
    assert (Hsplit' : split_first CRLFCRLF ((acc ++ String c "") ++ t)
                      = Some (head, tail)).
    { rewrite str_app_assoc. exact Hsplit. }
    destruct (contains CRLFCRLF (acc ++ String c "")) eqn:Hc.
    + unfold contains in Hc.
      destruct (split_first CRLFCRLF (acc ++ String c "")) as [[b a]|] eqn:Hs;
        [|discriminate].
      pose proof (split_first_grown _ _ _ _ _ Hacc Hs); subst a.
      pose proof (split_first_app _ _ t _ _ Hs) as Hs'.
      rewrite Hsplit' in Hs'. injection Hs' as -> ->.
      apply split_first_sound in Hs. rewrite app_nil_r in Hs.
      exists s1, segs1. rewrite Hs. repeat split. symmetry. exact Ht.
    + destruct (IH segs1 (acc ++ String c "") fuel s1 head tail eq_refl
                  (eq_sym Ht) Hc Hsplit' ltac:(simpl in Hfuel; lia))
        as (s' & segs' & Hrun & Hin' & Hsegs' & Hscript).
      exists s', segs'. repeat split; assumption.
Qed.

(** The body loop on a stream that holds the whole body: it reads the
    body, and nothing after it. *)
Lemma read_body_loop_segments (later : list event) :
  forall (fuel : nat) (body : string) (segs : list string) (body0 : string)
         (s : socket) (rest : string),
    inbound s = (map Data segs ++ later)%list ->
    segments segs = body ++ rest ->
    String.length body <= fuel ->
    exists s' segs',
      read_body_loop fuel body0 (Z.of_nat (String.length body)) s
        = (BodyRead (body0 ++ body), s') /\
      inbound s' = (map Data segs' ++ later)%list /\
      segments segs' = rest /\
      send_script s' = send_script s.
Proof.
  induction fuel as [|fuel IH]; intros body segs body0 s rest Hin Hsegs Hfuel.
  - destruct body; [|simpl in Hfuel; lia].
    exists s, segs. cbn. rewrite app_nil_r. auto.
  - destruct body as [|c body].
    + exists s, segs. cbn. rewrite app_nil_r. auto.
    + cbn [read_body_loop].
      assert (Hpos : (Z.of_nat (String.length (String c body)) >? 0)%Z = true)
        by (apply Z.gtb_lt; simpl String.length; lia).
      rewrite Hpos. rewrite Nat2Z.id.
      destruct (recv_from_segments (String.length (String c body)) later segs c
                  (body ++ rest) ltac:(simpl; lia) Hsegs)
        as (chunk & segs1 & Hrecv & Hne & Hlen & Hbytes).
      unfold recv. rewrite Hin, Hrecv.
      rewrite Hsegs in Hbytes.
      destruct (app_prefix _ _ _ _ Hbytes Hlen) as (body' & Hbody & Hrest).
      destruct chunk as [|c' chunk]; [contradiction|].
      set (s1 := mkSocket (map Data segs1 ++ later) (send_script s)
                   (calls s ++ [CallRecv (String.length (String c body))])).
      replace (Z.of_nat (String.length (String c body))
               - Z.of_nat (String.length (String c' chunk)))%Z
        with (Z.of_nat (String.length body'))
        by (rewrite Hbody, length_app; lia).
      destruct (IH body' segs1 (body0 ++ String c' chunk) s1 rest eq_refl Hrest)
        as (s' & segs' & Hrun & Hin' & Hsegs' & Hscript).
      { rewrite Hbody, length_app in Hfuel. simpl in Hfuel. lia. }
      exists s', segs'. rewrite Hrun, Hbody, str_app_assoc. auto.
Qed.

Section WithDecoder.
Variable decode : string -> string.

(** X8: framing. When the stream holds a response whose status line
    passes the test and whose [Content-Length] is the length of its body,
    however the bytes are cut into segments, [http_get] returns that
    body and leaves in the stream exactly what follows the response. *)
Theorem http_get_reads_one_response (s s1 : socket) (host path : string)
    (port : Z) (segs : list string) (later : list event)
    (head body rest : string) :
  sendall (request_data host path) s = (true, s1) ->
  inbound s = (map Data segs ++ later)%list ->
  split_first CRLFCRLF (segments segs) = Some (head, body ++ rest) ->
  contains "200" (hd "" (split_crlf (decode head))) = true ->
  find_content_length (tl (split_crlf (decode head)))
    = Z.of_nat (String.length body) ->
  exists s' segs',
    http_get decode s host port path = (Some (decode body), s') /\
    inbound s' = (map Data segs' ++ later)%list /\
    segments segs' = rest /\
    send_script s' = send_script s1.
Proof.
  intros Hsend Hin Hsplit H200 Hlen.
  pose proof (sendall_inbound _ _ _ _ Hsend) as Hin1. rewrite Hin in Hin1.
  destruct (read_header_loop_segments later (segments segs) segs ""
              (S (pending (inbound s1))) s1 head (body ++ rest) Hin1 eq_refl
              eq_refl Hsplit)
    as (s2 & segs2 & Hhdr & Hin2 & Hsegs2 & Hscript2).
  { rewrite Hin1. unfold segments. clear.
    induction segs as [|seg segs IH]; simpl; [lia|].
    rewrite length_app. lia. }
  destruct (read_body_loop_segments later (String.length body) body segs2 ""
              s2 rest Hin2 Hsegs2 (Nat.le_refl _))
    as (s3 & segs3 & Hbody & Hin3 & Hsegs3 & Hscript3).
  exists s3, segs3.
  unfold http_get. rewrite Hsend. fold (read_header s1) in Hhdr. rewrite Hhdr.
  unfold handle_response.
  assert (Hs : split_first CRLFCRLF (head ++ CRLFCRLF) = Some (head, "")).
  { destruct (read_header_done _ _ _ Hhdr) as ((hb & Hhb) & _ & _).
    pose proof (split_first_sound _ _ _ _ Hhb) as E.
    rewrite app_nil_r in E.
    assert (hb = head); [|now subst hb].
    clear - E. revert hb E.
    induction head as [|c head IH]; intros [|d hb] E; simpl in *;
      try reflexivity.
    - apply (f_equal String.length) in E. simpl in E.
      rewrite length_app in E. simpl in E. lia.
    - apply (f_equal String.length) in E. simpl in E.
      rewrite length_app in E. simpl in E. lia.
    - injection E as -> E. f_equal. now apply IH. }
  rewrite Hs, H200, Hlen. cbn [negb String.length Z.of_nat].
  rewrite Z.sub_0_r. unfold read_body. rewrite Nat2Z.id.
  cbn [append] in Hbody. rewrite Hbody.
  repeat split; try assumption. congruence.
Qed.

End WithDecoder.

End FramingFacts.
(** ** What a call takes from the stream *)

Module StreamFacts.
Import PyText PyTextFacts Socket Transport Stream TransportFacts FramingFacts.

(** A chunk is the front of the bytes still to come. *)
Lemma recv_from_bytes (n : nat) (evs evs' : list event) (chunk : string) :
  recv_from n evs = (Chunk chunk, evs') ->
  bytes_of evs = chunk ++ bytes_of evs'.
Proof.
  revert evs'; induction evs as [|[bytes|] evs IH]; intros evs' H;
    cbn [recv_from] in H.
  - now injection H as <- <-.
  - destruct bytes as [|c bytes]; [exact (IH _ H)|].
    injection H as <- <-. cbn [bytes_of].
    rewrite <- (take_drop n (String c bytes)) at 1.
    destruct (drop n (String c bytes)); cbn [bytes_of].
    + now rewrite app_nil_r.
    + now rewrite str_app_assoc.
  - discriminate.
Qed.

(** [recv] returns [b""] only on a closed connection. *)
Lemma recv_from_closed (n : nat) (evs evs' : list event) :
  1 <= n -> recv_from n evs = (Chunk "", evs') -> evs' = [].
Proof.
  intros Hn. revert evs'; induction evs as [|[bytes|] evs IH]; intros evs' H;
    cbn [recv_from] in H.
  - now injection H as <-.
  - destruct bytes as [|c bytes]; [exact (IH _ H)|].
    destruct n; [lia|]. discriminate.
  - discriminate.
Qed.

Lemma read_header_loop_bytes (fuel : nat) (acc : string) (s s' : socket)
    (response_header : string) :
  read_header_loop fuel acc s = (Some response_header, s') ->
  exists x, response_header = acc ++ x /\
            bytes_of (inbound s) = x ++ bytes_of (inbound s').
Proof.
  revert acc s; induction fuel as [|fuel IH]; intros acc s H;
    cbn [read_header_loop] in H; [discriminate|].
  unfold recv in H.
  destruct (recv_from 1 (inbound s)) as [[chunk|] evs] eqn:Hrecv;
    [|discriminate].
  apply recv_from_bytes in Hrecv.
  destruct chunk as [|c chunk]; [discriminate|].
  destruct (contains CRLFCRLF (acc ++ String c chunk)).
  - injection H as <- <-. now exists (String c chunk).
  - apply IH in H as (x & -> & Hx). cbn [inbound] in Hx.
    exists (String c chunk ++ x). rewrite !str_app_assoc in *.
    split; [reflexivity|]. now rewrite Hrecv, Hx.
Qed.

Lemma read_body_loop_bytes (fuel : nat) (body : string) (to_read : Z)
    (s s' : socket) (body' : string) :
  read_body_loop fuel body to_read s = (BodyRead body', s') ->
  Z.to_nat to_read <= fuel ->
  exists x, body' = body ++ x /\
            bytes_of (inbound s) = x ++ bytes_of (inbound s') /\
            (Z.of_nat (String.length x) <= Z.max 0 to_read)%Z /\
            ((Z.of_nat (String.length x) < to_read)%Z -> inbound s' = []).
Proof.
  revert body to_read s; induction fuel as [|fuel IH];
    intros body to_read s H Hfuel; cbn [read_body_loop] in H;
    destruct (to_read >? 0)%Z eqn:Hpos;
    try (injection H as <- <-; exists ""; rewrite app_nil_r;
         apply Z.gtb_ltb in Hpos || idtac;
         rewrite Z.gtb_ltb in Hpos;
         (apply Z.ltb_lt in Hpos || apply Z.ltb_ge in Hpos);
         repeat split; simpl; lia).
  unfold recv in H.
  destruct (recv_from (Z.to_nat to_read) (inbound s)) as [[chunk|] evs]
    eqn:Hrecv; [|discriminate].
  rewrite Z.gtb_ltb in Hpos. apply Z.ltb_lt in Hpos.
  pose proof (recv_from_bytes _ _ _ _ Hrecv) as Hbytes.
  destruct chunk as [|c chunk].
  - injection H as <- <-. exists "". rewrite app_nil_r.
    repeat split; [assumption | simpl; lia |]. intros _. cbn [inbound].
    apply (recv_from_closed (Z.to_nat to_read) (inbound s)); [lia | assumption].
  - apply recv_from_chunk in Hrecv as [Hlen _].
    apply IH in H as (x & -> & Hx & Hmax & Hclosed);
      [|simpl String.length in *; lia].
    cbn [inbound] in Hx, Hclosed.
    exists (String c chunk ++ x). rewrite !str_app_assoc.
    rewrite length_app.
    repeat split.
    + now rewrite Hbytes, Hx.
    + simpl String.length in *. lia.
    + intros Hshort. apply Hclosed. simpl String.length in *. lia.
Qed.

Section WithDecoder.
Variable decode : string -> string.

(** X9: what a call that returns a body has taken from the stream: a
    header block up to its first blank line, then the body, and nothing
    else. The body is never longer than the length the header
    declares, and it is shorter only when the peer has closed the
    connection. *)
Theorem http_get_takes_a_prefix (s s' : socket) (host path : string)
    (port : Z) (text : string) :
  http_get decode s host port path = (Some text, s') ->
  exists head body,
    bytes_of (inbound s) = head ++ CRLFCRLF ++ body ++ bytes_of (inbound s') /\
    split_first CRLFCRLF (head ++ CRLFCRLF) = Some (head, "") /\
    contains "200" (hd "" (split_crlf (decode head))) = true /\
    text = decode body /\
    (Z.of_nat (String.length body)
       <= Z.max 0 (find_content_length (tl (split_crlf (decode head)))))%Z /\
    ((Z.of_nat (String.length body)
        < find_content_length (tl (split_crlf (decode head))))%Z ->
     inbound s' = []).
Proof.
  unfold http_get.
  destruct (sendall (request_data host path) s) as [[|] s1] eqn:Hsend;
    [|discriminate].
  apply sendall_inbound in Hsend. rewrite <- Hsend.
  destruct (read_header s1) as [[hdr|] s2] eqn:Hhdr; [|discriminate].
  destruct (read_header_done _ _ _ Hhdr) as ((head & Hsplit) & _ & _).
  apply read_header_loop_bytes in Hhdr as (x & -> & Hx). cbn [append] in *.
  pose proof (split_first_sound _ _ _ _ Hsplit) as E.
  rewrite app_nil_r in E. subst x.
  unfold handle_response. rewrite Hsplit.
  destruct (contains "200" (hd "" (split_crlf (decode head)))) eqn:H200;
    cbn [negb]; [|discriminate].
  cbn [String.length Z.of_nat]. rewrite Z.sub_0_r.
  destruct (read_body "" _ s2) as [[body|] s3] eqn:Hbody; [|discriminate].
  apply read_body_loop_bytes in Hbody as (b & -> & Hb & Hmax & Hclosed);
    [|lia].
  intros H; injection H as <- <-. cbn [append].
  exists head, b. rewrite Hx, Hb, !str_app_assoc. auto 10.
Qed.

(** X10: a stream without a blank line gives no answer: the header loop
    ends on the closed connection or on an exception, and the call
    returns [None]. *)
Theorem http_get_without_blank_line (s : socket) (host path : string)
    (port : Z) :
  contains CRLFCRLF (bytes_of (inbound s)) = false ->
  fst (http_get decode s host port path) = None.
Proof.
  intros Hnone. unfold http_get.
  destruct (sendall (request_data host path) s) as [[|] s1] eqn:Hsend;
    [|reflexivity].
  apply sendall_inbound in Hsend. rewrite <- Hsend in Hnone.
  destruct (read_header s1) as [[hdr|] s2] eqn:Hhdr; [|reflexivity].
  destruct (read_header_done _ _ _ Hhdr) as ((head & Hsplit) & _ & _).
  apply read_header_loop_bytes in Hhdr as (x & -> & Hx). cbn [append] in *.
  rewrite Hx in Hnone. rewrite contains_app in Hnone; [discriminate|].
  unfold contains. now rewrite Hsplit.
Qed.

End WithDecoder.

End StreamFacts.
(** ** Grouping *)

Module GroupingFacts.
Import Socket Json PyNum Key Client DictFacts BucketFacts Grouping.
Local Open Scope Z_scope.

Section WithKey.
Context {K : Type}.
Variable eqb : K -> K -> bool.
Hypothesis eqb_eq : forall a b, eqb a b = true <-> a = b.

Lemma eqb_refl (k : K) : eqb k k = true.
Proof. now apply eqb_eq. Qed.

Lemma find_set_apart {V : Type} (k k' : K) (v : V) (d : list (K * V)) :
  eqb k k' = false -> Dict.find eqb k' (Dict.set eqb k v d) = Dict.find eqb k' d.
Proof.
  intros Hk. induction d as [|[k0 v0] d IH]; simpl.
  - now rewrite Hk.
  - destruct (eqb k0 k) eqn:E; simpl.
    + apply eqb_eq in E; subst k0. now rewrite Hk.
    + now rewrite IH.
Qed.

(** One record adds one to the count of its key and leaves the other
    counts alone. *)
Lemma record_into_count (k k' : K) (zero : number) (metric : json)
    (d d' : list (K * bucket)) :
  record_into eqb k zero metric d = Ok d' ->
  count_before eqb k' d' = count_before eqb k' d + (if eqb k k' then 1 else 0).
Proof.
  intros H. apply (record_into_spec eqb eqb_refl) in H as (x & t & _ & _ & ->).
  unfold count_before. destruct (eqb k k') eqn:E.
  - apply eqb_eq in E; subst k'. rewrite (find_set_same eqb eqb_refl).
    reflexivity.
  - rewrite (find_set_apart _ _ _ _ E). lia.
Qed.

(** The keys of the buckets are pairwise distinct. *)
Lemma record_into_nodup (k : K) (zero : number) (metric : json)
    (d d' : list (K * bucket)) :
  NoDup (map fst d) ->
  record_into eqb k zero metric d = Ok d' ->
  NoDup (map fst d').
Proof.
  intros Hd H. rewrite (record_into_keys eqb eqb_refl _ _ _ _ _ H).
  unfold Dict.member. destruct (Dict.find eqb k d) eqn:Hfind; [assumption|].
  apply NoDup_app; [assumption | repeat constructor; intros [] |].
  intros k0 Hin [<-|[]].
  clear - Hin Hfind eqb_eq. induction d as [|[k1 v1] d IH]; [contradiction|].
  simpl in *. destruct (eqb k1 k) eqn:E; [discriminate|].
  destruct Hin as [->|Hin]; [|now apply IH].
  now rewrite eqb_refl in E.
Qed.

Variable key : json -> result K.
Variable step : json -> list (K * bucket) -> result (list (K * bucket)).
Hypothesis step_count : forall v d d' k,
  step v d = Ok d' ->
  count_before eqb k d' = count_before eqb k d
                          + (if filed_under eqb key k v then 1 else 0).

Lemma fold_records_count (records : list json) (d d' : list (K * bucket))
    (k : K) :
  fold_records step records d = Ok d' ->
  count_before eqb k d'
  = count_before eqb k d
    + Z.of_nat (List.length (filter (filed_under eqb key k) records)).
Proof.
  revert d; induction records as [|v records IH]; intros d H; simpl in H.
  - injection H as <-. simpl. lia.
  - destruct (step v d) as [d1|] eqn:E; [|discriminate]. simpl in H.
    rewrite (IH _ H), (step_count _ _ _ k E). simpl filter.
    destruct (filed_under eqb key k v); simpl List.length; lia.
Qed.

End WithKey.

Lemma hkey_eqb_spec (a b : hkey) : hkey_eqb a b = true <-> a = b.
Proof.
  split; [|intros ->; apply hkey_eqb_refl].
  destruct a as [|x|x|x], b as [|y|y|y]; simpl; try discriminate; intros H.
  - reflexivity.
  - apply Z.eqb_eq in H. congruence.
  - f_equal.
    destruct x as [[]|[]| |[] m e], y as [[]|[]| |[] m' e']; simpl in H;
      try discriminate; try reflexivity;
      apply andb_true_iff in H as [Hm He];
      apply Pos.eqb_eq in Hm; apply Z.eqb_eq in He; congruence.
  - apply String.eqb_eq in H. congruence.
Qed.

Lemma immortals_record_key (info : json) (d d' : list (hkey * bucket)) :
  immortals_record info d = Ok d' ->
  exists k metric,
    immortals_key info = Ok k /\
    record_into hkey_eqb k (NFloat (S754_zero false)) metric d = Ok d'.
Proof.
  unfold immortals_record, immortals_key.
  destruct (get info "game_stats" (JObj [])) as [stats|]; cbn [bind];
    [|discriminate].
  destruct (get stats "auth" (JStr "UnknownAuth")) as [auth|]; cbn [bind];
    [|discriminate].
  destruct (get stats "ships_sunk" (JInt 0)) as [sunk|]; cbn [bind];
    [|discriminate].
  destruct (key_of auth) as [k|]; cbn [bind]; [|discriminate].
  eauto.
Qed.

Lemma top_meta_record_key (info : json) (d d' : list (string * bucket)) :
  top_meta_record info d = Ok d' ->
  exists k metric,
    top_meta_key info = Ok k /\
    record_into String.eqb k (NInt 0) metric d = Ok d'.
Proof.
  unfold top_meta_record, top_meta_key.
  destruct (get info "game_stats" (JObj [])) as [stats|]; cbn [bind];
    [|discriminate].
  destruct (get stats "cannons" (JArr [])) as [cannons|]; cbn [bind];
    [|discriminate].
  destruct (get stats "ships_escaped" (JInt 0)) as [escaped|]; cbn [bind];
    [|discriminate].
  destruct (placement_of cannons) as [k|]; cbn [bind]; [|discriminate].
  eauto.
Qed.

Section WithLibraries.
Variable decode : string -> string.
Variable json_loads : string -> option json.
Variable py_str : json -> string.

(** X11: grouping in Variant A. When the loop over the game ids ends, the
    count of the bucket of a key is the number of present records whose
    ["auth"] is that key; a key with no bucket has none. *)
Theorem immortals_counts_by_auth (s s' : socket) (host : string) (port : Z)
    (game_ids : list json) (gas_data : list (hkey * bucket)) (k : hkey) :
  fetch_loop decode json_loads py_str immortals_record host port game_ids [] s
    = (Ok gas_data, s') ->
  count_before hkey_eqb k gas_data
  = Z.of_nat (List.length
      (filter (filed_under hkey_eqb immortals_key k)
         (present_records decode json_loads py_str host port game_ids s))).
Proof.
  intros H. apply (f_equal fst) in H. rewrite fetch_loop_fold in H.
  cbn [fst] in H.
  refine (fold_records_count hkey_eqb immortals_key immortals_record _
            _ [] gas_data k H).
  intros v d d' k0 Hstep.
  apply immortals_record_key in Hstep as (k1 & metric & Hkey & Hrec).
  unfold filed_under. rewrite Hkey.
  exact (record_into_count hkey_eqb hkey_eqb_spec _ _ _ _ _ _ Hrec).
Qed.

(** X12: grouping in Variant B. When the loop over the game ids ends, the
    count of the bucket of a placement is the number of present records
    with that placement. *)
Theorem top_meta_counts_by_placement (s s' : socket) (host : string)
    (port : Z) (game_ids : list json)
    (placement_data : list (string * bucket)) (k : string) :
  fetch_loop decode json_loads py_str top_meta_record host port game_ids [] s
    = (Ok placement_data, s') ->
  count_before String.eqb k placement_data
  = Z.of_nat (List.length
      (filter (filed_under String.eqb top_meta_key k)
         (present_records decode json_loads py_str host port game_ids s))).
Proof.
  intros H. apply (f_equal fst) in H. rewrite fetch_loop_fold in H.
  cbn [fst] in H.
  refine (fold_records_count String.eqb top_meta_key top_meta_record _
            _ [] placement_data k H).
  intros v d d' k0 Hstep.
  apply top_meta_record_key in Hstep as (k1 & metric & Hkey & Hrec).
  unfold filed_under. rewrite Hkey.
  exact (record_into_count String.eqb String.eqb_eq _ _ _ _ _ _ Hrec).
Qed.

End WithLibraries.

End GroupingFacts.
(** ** The lines of an analysis *)

Module LinesFacts.
Import PyText PyTextFacts Socket Json PyNum Key Client Spec Sorting
  SortingFacts DictFacts BucketFacts HistogramFacts Grouping GroupingFacts.

Lemma immortals_rows_length (d : list (hkey * bucket))
    (rows : list (hkey * Z * spec_float)) :
  immortals_rows d = Ok rows -> List.length rows = List.length d.
Proof.
  revert rows; induction d as [|[k b] d IH]; intros rows H; simpl in H.
  - now injection H as <-.
  - destruct (mean b) as [avg|]; cbn [bind] in H; [|discriminate].
    destruct (immortals_rows d) as [rows'|]; cbn [bind] in H; [|discriminate].
    injection H as <-. simpl. f_equal. now apply IH.
Qed.

Lemma immortals_lines_length (rows : list (hkey * Z * spec_float))
    (lines : list string) :
  immortals_lines rows = Ok lines -> List.length lines = List.length rows.
Proof.
  revert lines; induction rows as [|[[k c] avg] rows IH]; intros lines H;
    simpl in H.
  - now injection H as <-.
  - destruct k; try discriminate.
    destruct (immortals_lines rows) as [lines'|]; cbn [bind] in H;
      [|discriminate].
    injection H as <-. simpl. f_equal. now apply IH.
Qed.

Lemma top_meta_rows_fst (d : list (string * bucket))
    (rows : list (string * spec_float)) :
  top_meta_rows d = Ok rows -> map fst rows = map fst d.
Proof.
  revert rows; induction d as [|[k b] d IH]; intros rows H; simpl in H.
  - now injection H as <-.
  - destruct (mean b) as [avg|]; cbn [bind] in H; [|discriminate].
    destruct (top_meta_rows d) as [rows'|]; cbn [bind] in H; [|discriminate].
    injection H as <-. simpl. f_equal. now apply IH.
Qed.

Lemma stable_sort_length {A : Type} (before : A -> A -> bool) (l : list A) :
  List.length (stable_sort before l) = List.length l.
Proof. symmetry. apply Permutation_length, stable_sort_perm. Qed.

(** A record adds one bucket at most. *)
Lemma fold_records_length {K : Type}
    (step : json -> list (K * bucket) -> result (list (K * bucket))) :
  (forall v d d', step v d = Ok d' -> List.length d' <= S (List.length d)) ->
  forall records d d',
    fold_records step records d = Ok d' ->
    List.length d' <= List.length d + List.length records.
Proof.
  intros Hstep records; induction records as [|v records IH]; intros d d' H;
    simpl in H.
  - injection H as <-. simpl. lia.
  - destruct (step v d) as [d1|] eqn:E; [|discriminate]. simpl in H.
    apply IH in H. apply Hstep in E. simpl. lia.
Qed.

Lemma record_into_length {K : Type} (eqb : K -> K -> bool)
    (eqb_refl : forall k, eqb k k = true) (k : K) (zero : number)
    (metric : json) (d d' : list (K * bucket)) :
  record_into eqb k zero metric d = Ok d' ->
  List.length d' <= S (List.length d).
Proof.
  intros H. apply (record_into_keys eqb eqb_refl) in H.
  apply (f_equal (@List.length K)) in H.
  destruct (Dict.member eqb k d);
    rewrite ?List.length_app, !length_map in H; simpl in H; lia.
Qed.

(** The key of Variant B: 8 characters, each a digit from 0 to 8. *)
Lemma placement_of_shape (cannons : json) (key : string) :
  placement_of cannons = Ok key ->
  String.length key = 8 /\ chars_between "0" "8" key = true.
Proof.
  intros H.
  destruct (iterate cannons) as [elems|] eqn:Hit;
    [|unfold placement_of in H; rewrite Hit in H; discriminate].
  rewrite (placement_of_key _ _ _ Hit H), histogram_key_digits.
  destruct (digits_key 8 (map (rows_in_bin elems) eight) ltac:(lia)
              (rows_in_bin_digits elems)) as (Hlen & _ & Hchars).
  split; [|exact Hchars]. rewrite Hlen. reflexivity.
Qed.

Lemma take_app_length (x y : string) : take (String.length x) (x ++ y) = x.
Proof. induction x as [|c x IH]; simpl; [now destruct y | now rewrite IH]. Qed.

(** Whatever order it leaves, a sort keeps the elements. *)
Lemma sort_by_mean_perm
    (sort_unordered : list (string * spec_float) -> list (string * spec_float))
    (rows : list (string * spec_float)) :
  (forall l, Permutation l (sort_unordered l)) ->
  Permutation rows (sort_by_mean sort_unordered rows).
Proof.
  intros Hperm. unfold sort_by_mean.
  destruct (consistent by_mean_asc rows); [apply stable_sort_perm | apply Hperm].
Qed.

Section WithLibraries.
Variable decode : string -> string.
Variable json_loads : string -> option json.
Variable py_str : json -> string.
Variable sort_unordered :
  list (string * spec_float) -> list (string * spec_float).
Hypothesis sort_unordered_perm : forall l, Permutation l (sort_unordered l).

Lemma present_records_length (host : string) (port : Z) (game_ids : list json)
    (s : socket) :
  List.length (present_records decode json_loads py_str host port game_ids s)
  <= List.length game_ids.
Proof.
  revert s; induction game_ids as [|g rest IH]; intros s; [apply Nat.le_refl|].
  cbn [present_records].
  destruct (get_game_info decode json_loads py_str s host port g) as [info s1].
  specialize (IH s1).
  destruct (present info); simpl; lia.
Qed.

(** X13: either analysis returns one line per bucket: never more lines
    than records that were fetched, and never more than game ids (a
    sort, whatever order it leaves, keeps the elements). *)
Theorem analyses_lines_bounded (s s' : socket) (host : string) (port : Z)
    (game_ids : list json) (lines : list string) :
  analysis_immortals decode json_loads py_str s host port game_ids
    = (Ok lines, s') \/
  analysis_top_meta decode json_loads py_str sort_unordered s host port
    game_ids
    = (Ok lines, s') ->
  List.length lines
    <= List.length (present_records decode json_loads py_str host port
                      game_ids s) /\
  List.length (present_records decode json_loads py_str host port game_ids s)
    <= List.length game_ids.
Proof.
  intros H. split; [|apply present_records_length].
  destruct H as [H|H].
  - unfold analysis_immortals in H.
    pose proof (fetch_loop_fold decode json_loads py_str immortals_record
                  host port game_ids [] s) as Hfold.
    destruct (fetch_loop decode json_loads py_str immortals_record host port
                game_ids [] s) as [gas_data s1].
    cbn [fst] in Hfold. injection H as H _.
    destruct gas_data as [d|]; cbn [bind] in H; [|discriminate].
    destruct (immortals_rows d) as [rows|] eqn:Hrows; cbn [bind] in H;
      [|discriminate].
    apply immortals_lines_length in H. apply immortals_rows_length in Hrows.
    rewrite stable_sort_length in H.
    symmetry in Hfold. apply fold_records_length in Hfold.
    + simpl in Hfold. lia.
    + intros v d0 d1 Hstep.
      apply immortals_record_key in Hstep as (k & metric & _ & Hrec).
      exact (record_into_length hkey_eqb hkey_eqb_refl _ _ _ _ _ Hrec).
  - unfold analysis_top_meta in H.
    pose proof (fetch_loop_fold decode json_loads py_str top_meta_record
                  host port game_ids [] s) as Hfold.
    destruct (fetch_loop decode json_loads py_str top_meta_record host port
                game_ids [] s) as [placement_data s1].
    cbn [fst] in Hfold. injection H as H _.
    destruct placement_data as [d|]; cbn [bind] in H; [|discriminate].
    destruct (top_meta_rows d) as [rows|] eqn:Hrows; cbn [bind] in H;
      [|discriminate].
    injection H as <-. apply top_meta_rows_fst in Hrows.
    apply (f_equal (@List.length string)) in Hrows.
    rewrite !length_map in Hrows.
    unfold top_meta_lines.
    rewrite length_map,
      <- (Permutation_length (sort_by_mean_perm _ rows sort_unordered_perm)).
    symmetry in Hfold. apply fold_records_length in Hfold.
    + simpl in Hfold. lia.
    + intros v d0 d1 Hstep.
      apply top_meta_record_key in Hstep as (k & metric & _ & Hrec).
      exact (record_into_length String.eqb String.eqb_refl _ _ _ _ _ Hrec).
Qed.

(** X14: the lines of Variant B. Every line is a placement key of 8
    characters, each a digit from 0 to 8, then a comma and a mean
    formatted with two decimals; and no two lines have the same key. *)
Theorem top_meta_lines_keyed (s s' : socket) (host : string) (port : Z)
    (game_ids : list json) (lines : list string) :
  analysis_top_meta decode json_loads py_str sort_unordered s host port
    game_ids
    = (Ok lines, s') ->
  NoDup (map (take 8) lines) /\
  Forall (fun line =>
            String.length (take 8 line) = 8 /\
            chars_between "0" "8" (take 8 line) = true /\
            exists avg, line = take 8 line ++ "," ++ format_2f avg) lines.
Proof.
  intros H. unfold analysis_top_meta in H.
  pose proof (fetch_loop_fold decode json_loads py_str top_meta_record
                host port game_ids [] s) as Hfold.
  destruct (fetch_loop decode json_loads py_str top_meta_record host port
              game_ids [] s) as [placement_data s1].
  cbn [fst] in Hfold. injection H as H _.
  destruct placement_data as [d|]; cbn [bind] in H; [|discriminate].
  destruct (top_meta_rows d) as [rows|] eqn:Hrows; cbn [bind] in H;
    [|discriminate].
  injection H as <-. apply top_meta_rows_fst in Hrows.
  set (shaped := fun key : string =>
         String.length key = 8 /\ chars_between "0" "8" key = true).
  assert (Hd : NoDup (map fst d) /\ Forall shaped (map fst d)).
  { symmetry in Hfold. revert Hfold.
    apply (fold_records_invariant
             (fun d => NoDup (map fst d) /\ Forall shaped (map fst d)));
      [|split; constructor].
    intros v d0 d1 [Hnd Hsh] Hstep.
    apply top_meta_record_key in Hstep as (k & metric & Hkey & Hrec).
    split; [exact (record_into_nodup String.eqb String.eqb_eq _ _ _ _ _ Hnd Hrec)|].
    rewrite (record_into_keys String.eqb String.eqb_refl _ _ _ _ _ Hrec).
    destruct (Dict.member String.eqb k d0); [assumption|].
    apply Forall_app. split; [assumption|]. constructor; [|constructor].
    unfold top_meta_key in Hkey.
    destruct (get v "game_stats" (JObj [])) as [stats|]; cbn [bind] in Hkey;
      [|discriminate].
    destruct (get stats "cannons" (JArr [])) as [cannons|]; cbn [bind] in Hkey;
      [|discriminate].
    now apply placement_of_shape in Hkey. }
  rewrite <- Hrows in Hd. clear Hrows Hfold.
  set (sorted := sort_by_mean sort_unordered rows).
  assert (Hs : NoDup (map fst sorted) /\ Forall shaped (map fst sorted)).
  { destruct Hd as [Hnd Hsh].
    assert (Hp : Permutation (map fst rows) (map fst sorted))
      by (apply Permutation_map, sort_by_mean_perm, sort_unordered_perm).
    split; [eapply Permutation_NoDup | eapply Permutation_Forall]; eauto. }
  clearbody sorted. clear Hd. destruct Hs as [Hnd Hsh].
  assert (Hkeys : map (take 8) (top_meta_lines sorted) = map fst sorted).
  { unfold top_meta_lines. rewrite map_map.
    rewrite Forall_map in Hsh. clear Hnd.
    induction Hsh as [|[key avg] l [Hlen _] _ IH]; [reflexivity|].
    cbn [map fst snd] in *. rewrite IH. f_equal.
    rewrite <- Hlen. apply take_app_length. }
  split; [now rewrite Hkeys|].
  unfold top_meta_lines. rewrite Forall_map. rewrite Forall_map in Hsh.
  eapply Forall_impl; [|exact Hsh].
  intros [key avg] [Hlen Hchars]. cbn [fst snd] in *.
  assert (Htake : take 8 (key ++ "," ++ format_2f avg) = key)
    by (rewrite <- Hlen; apply take_app_length).
  rewrite Htake. repeat split; try assumption. now exists avg.
Qed.

End WithLibraries.

End LinesFacts.
(** ** Fields of a line *)

Module CsvFacts.
Import PyText PyTextFacts Socket Json PyNum Key Client Sorting Csv.

Lemma commas_app (x y : string) : commas (x ++ y) = commas x + commas y.
Proof. induction x as [|c x IH]; simpl; [reflexivity | rewrite IH; lia]. Qed.

Lemma commas_remove (s : string) : commas (remove_commas s) = 0.
Proof.
  induction s as [|c s IH]; simpl; [reflexivity|].
  destruct (Ascii.eqb c ",") eqn:E; simpl; [exact IH | now rewrite E].
Qed.

Lemma digit_no_comma (n : nat) :
  n <= 9 -> Ascii.eqb (ascii_of_nat (48 + n)) "," = false.
Proof.
  intros H.
  do 10 (destruct n as [|n]; [reflexivity|]). lia.
Qed.

Lemma commas_decimal_digits (fuel : nat) (z : Z) (acc : string) :
  commas (decimal_digits fuel z acc) = commas acc.
Proof.
  revert z acc; induction fuel as [|fuel IH]; intros z acc;
    cbn [decimal_digits]; [reflexivity|].
  assert (Hd : Ascii.eqb (ascii_of_nat (48 + Z.to_nat (z mod 10))) "," = false).
  { apply digit_no_comma. pose proof (Z.mod_pos_bound z 10). lia. }
  destruct (z <? 10)%Z; [|rewrite IH]; cbn [commas]; now rewrite Hd.
Qed.

Lemma commas_str_of_Z (z : Z) : commas (str_of_Z z) = 0.
Proof.
  destruct z; simpl; [reflexivity| |]; now rewrite commas_decimal_digits.
Qed.

Lemma commas_format_2f (f : spec_float) : commas (format_2f f) = 0.
Proof.
  destruct f as [[]|[]| |sg m e]; try reflexivity.
  unfold format_2f, two_digits.
  rewrite !commas_app, !commas_str_of_Z.
  destruct sg, (_ <? 10)%Z; reflexivity.
Qed.

Lemma commas_placement_str (hist : list Z) : commas (placement_str hist) = 0.
Proof.
  unfold placement_str.
  induction hist as [|x hist IH]; [reflexivity|].
  cbn [map]. destruct hist as [|y hist].
  - simpl. apply commas_str_of_Z.
  - change (String.concat "" (str_of_Z x :: map str_of_Z (y :: hist)))
      with (str_of_Z x ++ "" ++ String.concat "" (map str_of_Z (y :: hist))).
    rewrite !commas_app, commas_str_of_Z, IH. reflexivity.
Qed.

Lemma immortals_lines_commas (rows : list (hkey * Z * spec_float))
    (lines : list string) :
  immortals_lines rows = Ok lines ->
  Forall (fun line => commas line = 2) lines.
Proof.
  revert lines; induction rows as [|[[k c] avg] rows IH]; intros lines H;
    cbn [immortals_lines] in H.
  - injection H as <-. constructor.
  - destruct k as [| | |auth]; try discriminate.
    destruct (immortals_lines rows) as [lines'|]; cbn [bind] in H;
      [|discriminate].
    injection H as <-. constructor; [|now apply IH].
    repeat (rewrite commas_app; cbn [commas append]).
    rewrite commas_remove, commas_str_of_Z, commas_format_2f. reflexivity.
Qed.

Section WithLibraries.
Variable decode : string -> string.
Variable json_loads : string -> option json.
Variable py_str : json -> string.
Variable sort_unordered :
  list (string * spec_float) -> list (string * spec_float).
Hypothesis sort_unordered_perm : forall l, Permutation l (sort_unordered l).

(** X15: the fields of a line. Every line of Variant A holds exactly two
    commas, the commas of the ["auth"] having been removed: three
    fields. Every line of Variant B holds exactly one: two fields. *)
Theorem analyses_lines_fields (s : socket) (host : string) (port : Z)
    (game_ids : list json) :
  (forall lines s',
      analysis_immortals decode json_loads py_str s host port game_ids
        = (Ok lines, s') ->
      Forall (fun line => commas line = 2) lines) /\
  (forall lines s',
      analysis_top_meta decode json_loads py_str sort_unordered s host port
        game_ids
        = (Ok lines, s') ->
      Forall (fun line => commas line = 1) lines).
Proof.
  split; intros lines s' H.
  - unfold analysis_immortals in H.
    destruct (fetch_loop decode json_loads py_str immortals_record host port
                game_ids [] s) as [gas_data s1].
    injection H as H _.
    destruct gas_data as [d|]; cbn [bind] in H; [|discriminate].
    destruct (immortals_rows d) as [rows|]; cbn [bind] in H; [|discriminate].
    now apply immortals_lines_commas in H.
  - unfold analysis_top_meta in H.
    pose proof (BucketFacts.fetch_loop_fold decode json_loads py_str
                  top_meta_record host port game_ids [] s) as Hfold.
    destruct (fetch_loop decode json_loads py_str top_meta_record host port
                game_ids [] s) as [placement_data s1].
    cbn [fst] in Hfold. injection H as H _.
    destruct placement_data as [d|]; cbn [bind] in H; [|discriminate].
    destruct (top_meta_rows d) as [rows|] eqn:Hrows; cbn [bind] in H;
      [|discriminate].
    injection H as <-. apply LinesFacts.top_meta_rows_fst in Hrows.
    assert (Hd : Forall (fun key => commas key = 0) (map fst d)).
    { symmetry in Hfold. revert Hfold.
      apply (BucketFacts.fold_records_invariant
               (fun d => Forall (fun key => commas key = 0) (map fst d)));
        [|constructor].
      intros v d0 d1 Hd0 Hstep.
      apply GroupingFacts.top_meta_record_key in Hstep
        as (k & metric & Hkey & Hrec).
      rewrite (BucketFacts.record_into_keys String.eqb String.eqb_refl
                 _ _ _ _ _ Hrec).
      destruct (Dict.member String.eqb k d0); [assumption|].
      apply Forall_app. split; [assumption|]. constructor; [|constructor].
      unfold Grouping.top_meta_key in Hkey.
      destruct (get v "game_stats" (JObj [])) as [stats|]; cbn [bind] in Hkey;
        [|discriminate].
      destruct (get stats "cannons" (JArr [])) as [cannons|];
        cbn [bind] in Hkey; [|discriminate].
      unfold placement_of in Hkey.
      destruct (iterate cannons) as [elems|]; cbn [bind] in Hkey;
        [|discriminate].
      destruct (count_rows elems []) as [rc|]; cbn [bind] in Hkey;
        [|discriminate].
      injection Hkey as <-. apply commas_placement_str. }
    rewrite <- Hrows in Hd.
    assert (Hs : Forall (fun key => commas key = 0)
                   (map fst (sort_by_mean sort_unordered rows))).
    { eapply Permutation_Forall; [|exact Hd].
      apply Permutation_map, LinesFacts.sort_by_mean_perm, sort_unordered_perm. }
    unfold top_meta_lines. rewrite Forall_map. rewrite Forall_map in Hs.
    eapply Forall_impl; [|exact Hs].
    intros [key avg] Hkey. cbn [fst snd] in *.
    repeat (rewrite commas_app; cbn [commas append]).
    rewrite Hkey, commas_format_2f. reflexivity.
Qed.

End WithLibraries.

End CsvFacts.

(** ** The requests of a run *)

Module TraceFacts.
Import PyText PyTextFacts Socket Transport Json Client Trace.

Lemma sent_app (x y : list call) : sent (x ++ y) = (sent x ++ sent y)%list.
Proof.
  induction x as [|[data|n] x IH]; simpl; [reflexivity| |exact IH].
  now rewrite IH.
Qed.

Lemma recv_sent (n : nat) (s s' : socket) (r : received) :
  recv n s = (r, s') -> sent (calls s') = sent (calls s).
Proof.
  unfold recv. destruct (recv_from n (inbound s)) as [r0 evs].
  intros H; injection H as _ <-. cbn [calls].
  rewrite sent_app. simpl. apply List.app_nil_r.
Qed.

Lemma sendall_sent (data : string) (s s' : socket) (ok : bool) :
  sendall data s = (ok, s') -> sent (calls s') = (sent (calls s) ++ [data])%list.
Proof.
  unfold sendall. destruct (send_script s); intros H; injection H as _ <-;
    cbn [calls]; now rewrite sent_app.
Qed.

Lemma read_header_loop_sent (fuel : nat) (acc : string) (s s' : socket)
    (r : option string) :
  read_header_loop fuel acc s = (r, s') -> sent (calls s') = sent (calls s).
Proof.
  revert acc s; induction fuel as [|fuel IH]; intros acc s H;
    cbn [read_header_loop] in H.
  - now injection H as _ <-.
  - destruct (recv 1 s) as [[chunk|] s1] eqn:Hrecv; apply recv_sent in Hrecv.
    + destruct chunk as [|c chunk]; [injection H as _ <-; exact Hrecv|].
      destruct (contains CRLFCRLF (acc ++ String c chunk)).
      * injection H as _ <-. exact Hrecv.
      * apply IH in H. congruence.
    + injection H as _ <-. exact Hrecv.
Qed.

Lemma read_body_loop_sent (fuel : nat) (body : string) (to_read : Z)
    (s s' : socket) (r : body_result) :
  read_body_loop fuel body to_read s = (r, s') ->
  sent (calls s') = sent (calls s).
Proof.
  revert body to_read s; induction fuel as [|fuel IH]; intros body to_read s H;
    cbn [read_body_loop] in H; destruct (to_read >? 0)%Z;
    try (now injection H as _ <-).
  destruct (recv (Z.to_nat to_read) s) as [[chunk|] s1] eqn:Hrecv;
    apply recv_sent in Hrecv.
  - destruct chunk as [|c chunk]; [injection H as _ <-; exact Hrecv|].
    apply IH in H. congruence.
  - injection H as _ <-. exact Hrecv.
Qed.

Section WithLibraries.
Variable decode : string -> string.
Variable json_loads : string -> option json.
Variable py_str : json -> string.
Variable sort_unordered :
  list (string * spec_float) -> list (string * spec_float).

(** Whatever comes back, a call writes its request and nothing else. *)
Lemma http_get_sent (s s' : socket) (host path : string) (port : Z)
    (r : option string) :
  http_get decode s host port path = (r, s') ->
  sent (calls s') = (sent (calls s) ++ [request_data host path])%list.
Proof.
  unfold http_get.
  destruct (sendall (request_data host path) s) as [ok s1] eqn:Hsend.
  apply sendall_sent in Hsend. rewrite <- Hsend.
  destruct ok; [|now intros H; injection H as _ <-].
  destruct (read_header s1) as [hdr s2] eqn:Hhdr.
  apply read_header_loop_sent in Hhdr. rewrite <- Hhdr.
  destruct hdr as [hdr|]; [|now intros H; injection H as _ <-].
  unfold handle_response.
  destruct (match split_first CRLFCRLF hdr with
            | Some parts => parts | None => (hdr, "") end) as [hb ba].
  destruct (negb _); [now intros H; injection H as _ <-|].
  destruct (read_body ba _ s2) as [b s3] eqn:Hbody.
  apply read_body_loop_sent in Hbody. rewrite <- Hbody.
  destruct b; now intros H; injection H as _ <-.
Qed.

Lemma fetch_loop_sent {D : Type} (step : json -> D -> result D)
    (host : string) (port : Z) (game_ids : list json) (buckets buckets' : D)
    (s s' : socket) :
  fetch_loop decode json_loads py_str step host port game_ids buckets s
    = (Ok buckets', s') ->
  sent (calls s')
  = (sent (calls s)
     ++ map (fun g_id => request_data host ("/api/game/" ++ py_str g_id))
          game_ids)%list.
Proof.
  revert buckets s; induction game_ids as [|g rest IH]; intros buckets s H;
    cbn [fetch_loop] in H.
  - injection H as _ <-. simpl. now rewrite List.app_nil_r.
  - unfold get_game_info in H.
    destruct (Transport.http_get decode s host port ("/api/game/" ++ py_str g))
      as [data s1] eqn:Hget.
    apply http_get_sent in Hget.
    assert (Hrest : forall info,
      match present info with
      | None => fetch_loop decode json_loads py_str step host port rest buckets s1
      | Some v =>
          match step v buckets with
          | Raised => (Raised, s1)
          | Ok b => fetch_loop decode json_loads py_str step host port rest b s1
          end
      end = (Ok buckets', s') ->
      sent (calls s')
      = (sent (calls s)
         ++ map (fun g_id => request_data host ("/api/game/" ++ py_str g_id))
              (g :: rest))%list).
    { intros info Hi. cbn [map].
      change (?x :: ?l) with ([x] ++ l)%list.
      rewrite List.app_assoc, <- Hget.
      destruct (present info) as [v|]; [|exact (IH _ _ Hi)].
      destruct (step v buckets) as [b|]; [exact (IH _ _ Hi) | discriminate]. }
    destruct data as [[|c data]|]; [exact (Hrest None H) | | exact (Hrest None H)].
    exact (Hrest (json_loads (String c data)) H).
Qed.

(** X16: the requests of an analysis. An analysis that returns has
    written one request per game id, [GET /api/game/<id>], in the order
    of the ids, whatever came back: a request that fails is neither
    repeated nor the end of the loop. *)
Theorem analyses_send_one_request_per_id (s s' : socket) (host : string)
    (port : Z) (game_ids : list json) (lines : list string) :
  analysis_immortals decode json_loads py_str s host port game_ids
    = (Ok lines, s') \/
  analysis_top_meta decode json_loads py_str sort_unordered s host port
        game_ids
    = (Ok lines, s') ->
  sent (calls s')
  = (sent (calls s)
     ++ map (fun g_id => request_data host ("/api/game/" ++ py_str g_id))
          game_ids)%list.
Proof.
  intros [H|H].
  - unfold analysis_immortals in H.
    destruct (fetch_loop decode json_loads py_str immortals_record host port
                game_ids [] s) as [gas_data s1] eqn:Hloop.
    injection H as H <-.
    destruct gas_data as [d|]; cbn [bind] in H; [|discriminate].
    exact (fetch_loop_sent _ _ _ _ _ _ _ _ Hloop).
  - unfold analysis_top_meta in H.
    destruct (fetch_loop decode json_loads py_str top_meta_record host port
                game_ids [] s) as [placement_data s1] eqn:Hloop.
    injection H as H <-.
    destruct placement_data as [d|]; cbn [bind] in H; [|discriminate].
    exact (fetch_loop_sent _ _ _ _ _ _ _ _ Hloop).
Qed.

End WithLibraries.

End TraceFacts.
(** ** The short sort keeps the elements *)

Module CpythonFacts.
Import Cpython.

Section WithOrder.
Context {A : Type}.
Variable lt : A -> A -> bool.

Lemma binary_insert_perm (sorted : list A) (pivot : A) :
  Permutation (pivot :: sorted) (binary_insert lt sorted pivot).
Proof.
  unfold binary_insert.
  set (i := search lt (List.length sorted) sorted pivot 0 (List.length sorted)).
  rewrite <- (firstn_skipn i sorted) at 1. apply Permutation_middle.
Qed.

Lemma fold_binary_insert_perm (rest run : list A) :
  Permutation (run ++ rest) (fold_left (binary_insert lt) rest run).
Proof.
  revert run; induction rest as [|x rest IH]; intros run; cbn [fold_left].
  - now rewrite List.app_nil_r.
  - rewrite <- IH. rewrite <- binary_insert_perm.
    symmetry. apply Permutation_middle.
Qed.

Lemma sort_short_perm (l : list A) : Permutation l (sort_short lt l).
Proof.
  unfold sort_short. destruct (count_run lt l) as [n descending].
  rewrite <- fold_binary_insert_perm.
  rewrite <- (firstn_skipn n l) at 1.
  apply Permutation_app_tail.
  destruct descending; [apply Permutation_rev | reflexivity].
Qed.

End WithOrder.

End CpythonFacts.

(** ** The theorems at concrete exchanges *)

Module Instances.
Import Socket Transport Json PyNum Key Client Spec Pages Server Crawl Stream
  Grouping Csv Trace Scenarios Exchanges.
Local Open Scope Z_scope.

Lemma paginate_df_at_most_limit_run :
  Z.of_nat (List.length (paginate_df [1; 2; 3; 4; 5] 2 4)) <= 2.
Proof. apply (ServerFacts.paginate_df_at_most_limit [1; 2; 3; 4; 5] 2 4). lia. Defined.

Lemma pages_tile_run :
  List.concat
    (map (fun i => paginate_df [1; 2; 3; 4; 5] 2 (1 + Z.of_nat i * 2)) (seq 0 2))
  = firstn (2 * Z.to_nat 2) [1; 2; 3; 4; 5].
Proof. apply (ServerFacts.pages_tile [1; 2; 3; 4; 5] 2 2). lia. Defined.

Lemma next_link_iff_more_run :
  snd (build_pagination_links "sunk" 2 4 (Z.of_nat (List.length [1; 2; 3; 4; 5])))
    = None <->
  paginate_df [1; 2; 3; 4; 5] 2 (4 + 2) = [].
Proof. apply (ServerFacts.next_link_iff_more "sunk" [1; 2; 3; 4; 5] 2 4); lia. Defined.


Lemma crawl_returns_prefix_run :
  [JInt 11; JInt 12; JInt 13; JInt 14]
  = firstn (Z.to_nat 4)
      (collected [PageIds [JInt 11; JInt 12; JInt 13] true;
                  PageIds [JInt 14; JInt 15] false]).
Proof.
  apply (CrawlFacts.crawl_returns_prefix ascii_decode scenario_loads
           ranking_socket
           (snd (get_top_n_games ascii_decode scenario_loads ranking_socket
                   "127.0.0.1" 5000 "sunk" 4))
           "127.0.0.1" 5000 "sunk" 4).
  - lia.
  - eapply serves_more; [vm_compute; reflexivity | reflexivity |].
    eapply serves_last; [vm_compute; reflexivity | reflexivity].
  - vm_compute. reflexivity.
Defined.

Lemma crawl_of_server_ranking_run :
  exists s',
    get_top_n_games ascii_decode ranking_loads server_socket "127.0.0.1" 5000
      "sunk" 100
    = (Ok (map JInt (firstn (Z.to_nat 100) fifty_one)), s').
Proof.
  apply (EndToEndFacts.crawl_of_server_ranking ascii_decode ranking_loads
           server_socket "127.0.0.1" 5000 "sunk" 100 fifty_one).
  - lia.
  - vm_compute.
    eapply serves_more; [vm_compute; reflexivity | reflexivity |].
    eapply serves_last; [vm_compute; reflexivity | reflexivity].
Defined.

Lemma http_get_reads_one_response_run :
  exists s' segs',
    http_get ascii_decode cut_socket "127.0.0.1" 5000 "/api/game/7"
      = (Some (ascii_decode "hello"), s') /\
    inbound s' = (map Data segs' ++ [])%list /\
    segments segs' = "HTTP/1.1 2" /\
    send_script s'
    = send_script
        (snd (sendall (request_data "127.0.0.1" "/api/game/7") cut_socket)).
Proof.
  apply (FramingFacts.http_get_reads_one_response ascii_decode cut_socket
           (snd (sendall (request_data "127.0.0.1" "/api/game/7") cut_socket))
           "127.0.0.1" "/api/game/7" 5000 cut_segments []
           ("HTTP/1.1 200 OK" ++ PyText.CRLF ++ "Content-Length: 5")
           "hello" "HTTP/1.1 2");
    vm_compute; reflexivity.
Defined.

Lemma http_get_takes_a_prefix_run :
  exists head body,
    bytes_of (inbound truncated_socket)
    = head ++ PyText.CRLFCRLF ++ body
        ++ bytes_of
             (inbound (snd (http_get ascii_decode truncated_socket
                              "127.0.0.1" 5000 "/api/game/7"))) /\
    PyText.split_first PyText.CRLFCRLF (head ++ PyText.CRLFCRLF)
      = Some (head, "") /\
    PyText.contains "200" (hd "" (PyText.split_crlf (ascii_decode head)))
      = true /\
    "[10, 2" = ascii_decode body /\
    Z.of_nat (String.length body)
      <= Z.max 0 (find_content_length
                    (tl (PyText.split_crlf (ascii_decode head)))) /\
    (Z.of_nat (String.length body)
       < find_content_length (tl (PyText.split_crlf (ascii_decode head))) ->
     inbound (snd (http_get ascii_decode truncated_socket
                     "127.0.0.1" 5000 "/api/game/7")) = []).
Proof.
  apply (StreamFacts.http_get_takes_a_prefix ascii_decode truncated_socket
           (snd (http_get ascii_decode truncated_socket
                   "127.0.0.1" 5000 "/api/game/7"))
           "127.0.0.1" "/api/game/7" 5000 "[10, 2").
  vm_compute. reflexivity.
Defined.

Lemma http_get_without_blank_line_run :
  fst (http_get ascii_decode headless_socket "127.0.0.1" 5000 "/api/game/7")
  = None.
Proof.
  apply (StreamFacts.http_get_without_blank_line ascii_decode headless_socket
           "127.0.0.1" "/api/game/7" 5000).
  vm_compute. reflexivity.
Defined.

Lemma immortals_counts_by_auth_run :
  count_before hkey_eqb (KStr "alice")
    [(KStr "bob", mkBucket 1 (NFloat (S754_finite false 5066549580791808 (-49))));
     (KStr "alice", mkBucket 2 (NFloat (S754_finite false 6755399441055744 (-49))));
     (KStr "carol", mkBucket 1 (NFloat (S754_finite false 4503599627370496 (-50))))]
  = Z.of_nat
      (List.length
         (filter (filed_under hkey_eqb immortals_key (KStr "alice"))
            (present_records ascii_decode scenario_loads scenario_str
               "127.0.0.1" 5000 [JInt 1; JInt 2; JInt 3; JInt 4]
               immortals_socket))).
Proof.
  apply (GroupingFacts.immortals_counts_by_auth ascii_decode scenario_loads
           scenario_str immortals_socket
           (snd (fetch_loop ascii_decode scenario_loads scenario_str
                   immortals_record "127.0.0.1" 5000
                   [JInt 1; JInt 2; JInt 3; JInt 4] [] immortals_socket))
           "127.0.0.1" 5000 [JInt 1; JInt 2; JInt 3; JInt 4]).
  vm_compute. reflexivity.
Defined.

Lemma top_meta_counts_by_placement_run :
  count_before String.eqb "80000000"
    [("70010000", mkBucket 1 (NInt 2));
     ("80000000", mkBucket 1 (NInt 1));
     ("71000000", mkBucket 1 (NInt 2))]
  = Z.of_nat
      (List.length
         (filter (filed_under String.eqb top_meta_key "80000000")
            (present_records ascii_decode scenario_loads scenario_str
               "127.0.0.1" 5000 [JInt 1; JInt 2; JInt 3] top_meta_socket))).
Proof.
  apply (GroupingFacts.top_meta_counts_by_placement ascii_decode scenario_loads
           scenario_str top_meta_socket
           (snd (fetch_loop ascii_decode scenario_loads scenario_str
                   top_meta_record "127.0.0.1" 5000
                   [JInt 1; JInt 2; JInt 3] [] top_meta_socket))
           "127.0.0.1" 5000 [JInt 1; JInt 2; JInt 3]).
  vm_compute. reflexivity.
Defined.

Lemma analyses_lines_bounded_run :
  (List.length ["alice,2,6.00"; "bob,1,9.00"; "carol,1,4.00"]
   <= List.length
        (present_records ascii_decode scenario_loads scenario_str
           "127.0.0.1" 5000 [JInt 1; JInt 2; JInt 3; JInt 4] immortals_socket)
   /\
   List.length
     (present_records ascii_decode scenario_loads scenario_str
        "127.0.0.1" 5000 [JInt 1; JInt 2; JInt 3; JInt 4] immortals_socket)
   <= List.length [JInt 1; JInt 2; JInt 3; JInt 4])%nat.
Proof.
  apply (LinesFacts.analyses_lines_bounded ascii_decode scenario_loads
           scenario_str (Cpython.sort_short by_mean_asc)
           (CpythonFacts.sort_short_perm by_mean_asc)
           immortals_socket
           (snd (analysis_immortals ascii_decode scenario_loads scenario_str
                   immortals_socket "127.0.0.1" 5000
                   [JInt 1; JInt 2; JInt 3; JInt 4]))
           "127.0.0.1" 5000 [JInt 1; JInt 2; JInt 3; JInt 4]).
  left. vm_compute. reflexivity.
Defined.

Lemma top_meta_lines_keyed_run :
  NoDup (map (PyText.take 8)
           ["80000000,1.00"; "70010000,2.00"; "71000000,2.00"]) /\
  Forall (fun line =>
            String.length (PyText.take 8 line) = 8%nat /\
            chars_between "0" "8" (PyText.take 8 line) = true /\
            exists avg, line = PyText.take 8 line ++ "," ++ format_2f avg)
    ["80000000,1.00"; "70010000,2.00"; "71000000,2.00"].
Proof.
  apply (LinesFacts.top_meta_lines_keyed ascii_decode scenario_loads
           scenario_str (Cpython.sort_short by_mean_asc)
           (CpythonFacts.sort_short_perm by_mean_asc)
           top_meta_socket
           (snd (analysis_top_meta ascii_decode scenario_loads scenario_str
                   (Cpython.sort_short by_mean_asc) top_meta_socket
                   "127.0.0.1" 5000 [JInt 1; JInt 2; JInt 3]))
           "127.0.0.1" 5000 [JInt 1; JInt 2; JInt 3]).
  vm_compute. reflexivity.
Defined.

Lemma analyses_lines_fields_run :
  Forall (fun line => commas line = 2%nat)
    ["alice,2,6.00"; "bob,1,9.00"; "carol,1,4.00"] /\
  Forall (fun line => commas line = 1%nat)
    ["80000000,1.00"; "70010000,2.00"; "71000000,2.00"].
Proof.
  split.
  - apply (proj1 (CsvFacts.analyses_lines_fields ascii_decode scenario_loads
                    scenario_str (Cpython.sort_short by_mean_asc)
                    (CpythonFacts.sort_short_perm by_mean_asc)
                    immortals_socket "127.0.0.1" 5000
                    [JInt 1; JInt 2; JInt 3; JInt 4])
             _ (snd (analysis_immortals ascii_decode scenario_loads
                       scenario_str immortals_socket "127.0.0.1" 5000
                       [JInt 1; JInt 2; JInt 3; JInt 4]))).
    vm_compute. reflexivity.
  - apply (proj2 (CsvFacts.analyses_lines_fields ascii_decode scenario_loads
                    scenario_str (Cpython.sort_short by_mean_asc)
                    (CpythonFacts.sort_short_perm by_mean_asc)
                    top_meta_socket "127.0.0.1" 5000
                    [JInt 1; JInt 2; JInt 3])
             _ (snd (analysis_top_meta ascii_decode scenario_loads
                       scenario_str (Cpython.sort_short by_mean_asc)
                       top_meta_socket "127.0.0.1" 5000
                       [JInt 1; JInt 2; JInt 3]))).
    vm_compute. reflexivity.
Defined.

Lemma analyses_send_one_request_per_id_run :
  sent (calls (snd (analysis_immortals ascii_decode scenario_loads
                      scenario_str alice_socket "127.0.0.1" 5000
                      [JInt 1; JInt 2])))
  = (sent (calls alice_socket)
     ++ map (fun g_id =>
               request_data "127.0.0.1" ("/api/game/" ++ scenario_str g_id))
          [JInt 1; JInt 2])%list.
Proof.
  apply (TraceFacts.analyses_send_one_request_per_id ascii_decode
           scenario_loads scenario_str (Cpython.sort_short by_mean_asc)
           alice_socket
           (snd (analysis_immortals ascii_decode scenario_loads scenario_str
                   alice_socket "127.0.0.1" 5000 [JInt 1; JInt 2]))
           "127.0.0.1" 5000 [JInt 1; JInt 2] ["alice,2,6.00"]).
  left. vm_compute. reflexivity.
Defined.

End Instances.
